(** * Canyon Sunset Resort Simulator: the Monte Carlo engine of [simulation.js]

    A shallow embedding of [simulation.js] (the generator [RNG], [PolicyMatrix],
    [SimulationState], [SimulationEngine] and [CSVProcessor]) and of the
    handlers of [app.js] that call them, together with the properties the
    specification states about them and further properties of the code.

    Conventions of the embedding.
    - A JavaScript number that is an integer in the source (seeds, the
      generator's [current], prices, counters, indices) is a [Z].  The source
      computes on IEEE doubles; [js_round] is the rounding of an integer to the
      nearest double and is written wherever the source can leave the exact
      range.
    - A number that need not be an integer (draws, probabilities, averages) is
      a [Q]; [NaN] is [None] in [number := option Q].
    - [undefined] read from an array is [None] in [option Z].
    - A thrown [Error] is [Throw msg] in [result].
    - Mutation of [this.rng] is explicit state passing. *)

From Stdlib Require Import String Ascii ZArith QArith Qround Qminmax List Bool Lia.
From Stdlib Require Import DecimalString.
Import ListNotations.

Open Scope Z_scope.

(** ** JavaScript numbers *)

Module JS.

(** Rounding of an integer to the nearest IEEE binary64 value, ties to even.
    Integers of magnitude below 2^53 are exact.  The definition covers the
    finite range: an integer of magnitude 2^1024 or more is [Infinity] in the
    source (and [NaN] after [%]), which a [Z] does not hold.  In the generator
    this needs a seed of magnitude above 2^1003; a statement about the values
    of the draws of an arbitrary seed carries a bound on the seed. *)
Definition js_round (z : Z) : Z :=
  let a := Z.abs z in
  if a <? 2 ^ 53 then z
  else
    let e := Z.log2 a - 52 in
    let q := Z.shiftr a e in
    let r := a - Z.shiftl q e in
    let half := 2 ^ (e - 1) in
    let q' := if (half <? r) || ((r =? half) && Z.odd q) then q + 1 else q in
    Z.sgn z * Z.shiftl q' e.

(** [x * y] and [x + y] on integer-valued doubles. *)
Definition mul (x y : Z) : Z := js_round (x * y).
Definition add (x y : Z) : Z := js_round (x + y).

(** [x % y]: the remainder takes the sign of the dividend and is exact. *)
Definition rem (x y : Z) : Z := Z.rem x y.

(** [a < b] on rationals, as a boolean. *)
Definition Qltb (a b : Q) : bool :=
  (Qnum a * Zpos (Qden b) <? Qnum b * Zpos (Qden a))%Z.

(** [x || d] for a numeric option: [undefined] and [0] are falsy. *)
Definition or_default_Z (x : option Z) (d : Z) : Z :=
  match x with
  | None => d
  | Some v => if v =? 0 then d else v
  end.

Definition or_default_Q (x : option Q) (d : Q) : Q :=
  match x with
  | None => d
  | Some v => if Qeq_bool v 0 then d else v
  end.

(** [arr[i]] for a possibly negative or too large integer index. *)
Definition index {A : Type} (arr : list A) (i : Z) : option A :=
  if i <? 0 then None else nth_error arr (Z.to_nat i).

(** The integers [lo, lo+1, ..., hi-1] visited by
    [for (let t = lo; t < hi; t++)]. *)
Definition range (lo hi : Z) : list Z :=
  map (fun k => lo + Z.of_nat k) (seq 0 (Z.to_nat (hi - lo))).

(** Decimal rendering of an integer inside a template string. *)
Definition show (z : Z) : string := NilZero.string_of_int (Z.to_int z).

End JS.

(** ** Thrown errors *)

Inductive result (A : Type) : Type :=
| Ok (a : A)
| Throw (msg : string).
Arguments Ok {A} a.
Arguments Throw {A} msg.

(** ** Configuration constants *)

Module CONFIG.
Definition I : Z := 7.
Definition T : Z := 15.
Definition LOW : Z := 30000.
Definition MED : Z := 40000.
Definition HIGH : Z := 50000.
Definition DEFAULT_TRIALS : Q := 10000 # 1.
Definition DEFAULT_SEED : Z := 42.

(** The doubles written [0.90], [0.80] and [0.40] in the source. *)
Definition P_LOW : Q := 8106479329266893 # 9007199254740992.
Definition P_MED : Q := 3602879701896397 # 4503599627370496.
Definition P_HIGH : Q := 3602879701896397 # 9007199254740992.

(** [CONFIG.SALE_PROBABILITIES[price] || 0]; an [undefined] price is no key. *)
Definition SALE_PROBABILITIES (price : option Z) : Q :=
  match price with
  | Some p =>
      if p =? LOW then P_LOW
      else if p =? MED then P_MED
      else if p =? HIGH then P_HIGH
      else 0
  | None => 0
  end.
End CONFIG.

(** ** The linear congruential generator *)

Record RNG : Type := mkRNG {
  rng_seed : Z;
  rng_current : Z
}.

Module Rng.

Definition a : Z := 1664525.
Definition c : Z := 1013904223.
Definition m : Z := 2 ^ 32.

(** [new RNG(seed)] *)
Definition new (seed : Z) : RNG := mkRNG seed seed.

(** [this.current = (this.a * this.current + this.c) % this.m] *)
Definition advance (cur : Z) : Z := JS.rem (JS.add (JS.mul a cur) c) m.

(** [next()]: the draw [current / m] and the generator after it. *)
Definition next (g : RNG) : Q * RNG :=
  let cur := advance (rng_current g) in
  (cur # 4294967296, mkRNG (rng_seed g) cur).

(** [reset()] *)
Definition reset (g : RNG) : RNG := mkRNG (rng_seed g) (rng_seed g).

(** The first [n] draws of a generator, in order. *)
Fixpoint draws (n : nat) (g : RNG) : list Q :=
  match n with
  | O => []
  | S k => let (u, g') := next g in u :: draws k g'
  end.

(** The generator after [n] calls of [next]. *)
Fixpoint after (n : nat) (g : RNG) : RNG :=
  match n with
  | O => g
  | S k => after k (snd (next g))
  end.

End Rng.

(** ** Policy matrix *)

Record PolicyMatrix : Type := mkPolicy {
  matrix : list (list Z);
  policy_I : Z;
  policy_T : Z
}.

Module Policy.

(** [new PolicyMatrix(matrix)]: [I = matrix.length], [T = matrix[0].length];
    reading [length] of the missing first row of an empty matrix throws. *)
Definition new (matrix : list (list Z)) : result PolicyMatrix :=
  match matrix with
  | [] => Throw "Cannot read properties of undefined (reading 'length')"
  | row0 :: _ =>
      Ok (mkPolicy matrix (Z.of_nat (length matrix)) (Z.of_nat (length row0)))
  end.

(** [getPrice(capacityIndex, period)].  The result is [None] when the cell
    read is [undefined], which happens for a row shorter than the first one.
    The row itself always exists, because [capacityIndex < I = matrix.length]
    on every object the constructor returns. *)
Definition getPrice (p : PolicyMatrix) (capacityIndex period : Z) : option Z :=
  if (capacityIndex <? 0) || (capacityIndex >=? policy_I p)
     || (period <? 0) || (period >=? policy_T p)
  then Some 0
  else
    match JS.index (matrix p) capacityIndex with
    | Some row => JS.index row period
    | None => None
    end.

(** The three canonical monetary values. *)
Definition canonical (v : Z) : Prop :=
  v = CONFIG.LOW \/ v = CONFIG.MED \/ v = CONFIG.HIGH.

(** Every row has exactly [policy_T] cells. *)
Definition rectangular (p : PolicyMatrix) : Prop :=
  Forall (fun row => Z.of_nat (length row) = policy_T p) (matrix p).

Definition all_canonical (p : PolicyMatrix) : Prop :=
  Forall (Forall canonical) (matrix p).

End Policy.

(** ** State of one trial *)

Record SimulationState : Type := mkState {
  capacity : Z;
  revenue : option Z;              (* [None] is NaN *)
  salesCount : Z;
  priceHistory : list (option Z);  (* [None] is an [undefined] price *)
  salesHistory : list bool;
  revenueHistory : list (option Z)
}.

(** [new SimulationState(initialCapacity)] *)
Definition new_state (initialCapacity : Z) : SimulationState :=
  mkState initialCapacity (Some 0) 0 [] [] [].

(** [revenue += price]: adding [undefined] or to NaN gives NaN. *)
Definition add_price (r price : option Z) : option Z :=
  match r, price with
  | Some x, Some y => Some (x + y)
  | _, _ => None
  end.

(** ** Engine configuration *)

Record Config : Type := mkConfig {
  cfg_I : Z;
  cfg_T : Z;
  cfg_trials : Q;
  cfg_seed : Z;
  cfg_lastMinuteK : Z
}.

(** The object passed to [new SimulationEngine(config)]; an absent key is
    [None]. *)
Record ConfigInput : Type := mkInput {
  in_trials : option Q;
  in_seed : option Z;
  in_lastMinuteK : option Z
}.

Record SimulationEngine : Type := mkEngine {
  config : Config;
  rng : RNG
}.

Module Engine.

(** [_validateConfig()] *)
Definition _validateConfig (cfg : Config) : result unit :=
  if (cfg_I cfg <=? 0) || (cfg_T cfg <=? 0)
  then Throw "Capacity and periods must be positive"
  else if Qle_bool (cfg_trials cfg) 0
  then Throw "Number of trials must be positive"
  else if cfg_lastMinuteK cfg >? cfg_T cfg
  then Throw "lastMinuteK cannot exceed total periods"
  else Ok tt.

(** [new SimulationEngine(config)] *)
Definition new (input : ConfigInput) : result SimulationEngine :=
  let cfg :=
    mkConfig CONFIG.I CONFIG.T
      (JS.or_default_Q (in_trials input) CONFIG.DEFAULT_TRIALS)
      (JS.or_default_Z (in_seed input) CONFIG.DEFAULT_SEED)
      (JS.or_default_Z (in_lastMinuteK input) 3) in
  let rng := Rng.new (cfg_seed cfg) in
  match _validateConfig cfg with
  | Throw msg => Throw msg
  | Ok _ => Ok (mkEngine cfg rng)
  end.

(** The body of the loop over [t] in [_runSingleTrial]. *)
Definition trial_period (policy : PolicyMatrix) (t : Z)
    (sg : SimulationState * RNG) : SimulationState * RNG :=
  let (state, g) := sg in
  if capacity state <=? 0 then
    (mkState (capacity state) (revenue state) (salesCount state)
       (priceHistory state ++ [Some 0])
       (salesHistory state ++ [false])
       (revenueHistory state ++ [Some 0]), g)
  else
    let capacityIndex := capacity state - 1 in
    let price := Policy.getPrice policy capacityIndex t in
    let saleProbability := CONFIG.SALE_PROBABILITIES price in
    let (randomValue, g') := Rng.next g in
    let sold := JS.Qltb randomValue saleProbability in
    if sold then
      (mkState (capacity state - 1) (add_price (revenue state) price)
         (salesCount state + 1)
         (priceHistory state ++ [price])
         (salesHistory state ++ [true])
         (revenueHistory state ++ [price]), g')
    else
      (mkState (capacity state) (revenue state) (salesCount state)
         (priceHistory state ++ [price])
         (salesHistory state ++ [false])
         (revenueHistory state ++ [Some 0]), g').

(** [_runSingleTrial(policy, trialId)]; [trialId] is not read by the source.
    The generator is [this.rng], passed in and returned. *)
Definition _runSingleTrial (cfg : Config) (policy : PolicyMatrix) (trialId : Z)
    (g : RNG) : SimulationState * RNG :=
  fold_left (fun sg t => trial_period policy t sg)
    (JS.range 0 (cfg_T cfg)) (new_state (cfg_I cfg), g).

(** The number of iterations of
    [for (let trialId = 0; trialId < trials; trialId++)]. *)
Definition trial_count (cfg : Config) : Z := Qceiling (cfg_trials cfg).

(** The loop over [trialId] in [runSimulation], for the trial indices [ids]:
    each trial state is pushed to [trialResults], and the one generator goes
    from each trial to the next. *)
Definition trials_loop (cfg : Config) (policy : PolicyMatrix) (ids : list Z)
    (acc : list SimulationState * RNG) : list SimulationState * RNG :=
  fold_left
    (fun (acc : list SimulationState * RNG) trialId =>
       let (trialResults, g) := acc in
       let (trialResult, g') := _runSingleTrial cfg policy trialId g in
       (trialResults ++ [trialResult], g'))
    ids acc.

Definition run_trials (cfg : Config) (policy : PolicyMatrix) (g : RNG)
    : list SimulationState * RNG :=
  trials_loop cfg policy (JS.range 0 (trial_count cfg)) ([], g).

(** The generator with which trial [i] starts, in a run whose trial 0 starts
    with [g]: what the loop has made of [this.rng] after the trials before
    [i]. *)
Definition generator_at (cfg : Config) (policy : PolicyMatrix) (g : RNG) (i : Z)
    : RNG :=
  snd (trials_loop cfg policy (JS.range 0 i) ([], g)).

End Engine.

(** ** Non-integer arithmetic

    Averages and deviations are doubles in the source.  They are rationals
    here, and every arithmetic operation rounds its exact result with [rnd];
    [Math.pow] and [Math.sqrt], whose precision the language leaves to the
    implementation, are the last two operations of the interface. *)

Definition number : Type := option Q.

Class Float64 : Type := {
  rnd : Q -> Q;
  Math_pow : Q -> Z -> Q;
  Math_sqrt : Q -> Q
}.

(** What the results below use of rounding to the nearest double: it is
    monotone and leaves the integers up to 2^53 as they are. *)
Class Float64Laws (F : Float64) : Prop := {
  rnd_mono : forall x y : Q, (x <= y)%Q -> (rnd x <= rnd y)%Q;
  rnd_int : forall z : Z, Z.abs z <= 2 ^ 53 -> (rnd (inject_Z z) == inject_Z z)%Q
}.

(** An integer (or NaN, or [undefined]) as an operand of number arithmetic. *)
Definition to_number (x : option Z) : number := option_map inject_Z x.

Module PriceMix.
Record t : Type := mk { LOW : Z; MED : Z; HIGH : Z }.
End PriceMix.

Module Step.
Record t : Type := mk {
  period : Z;
  remainingCapacity : Z;
  price : option Z;
  sold : bool;
  revenue : Z
}.
End Step.

Module Sample.
Record t : Type := mk {
  trialId : Z;
  steps : list Step.t;
  totalRevenue : option Z
}.
End Sample.

Record Aggregates : Type := mkAggregates {
  avgRevenue : number;
  stdRevenue : number;
  fillRate : number;
  avgPrice : number;
  lastMinuteShare : number;
  priceMix : PriceMix.t
}.

Record SimulationResults : Type := mkResults {
  res_config : Config;
  res_policy : PolicyMatrix;
  aggregates : Aggregates;
  sampleTrial : Sample.t;
  priceHistogram : PriceMix.t;
  salesByPeriod : list Z
}.

(** [arr[i]] where the elements themselves may be [undefined]. *)
Definition index_opt {A : Type} (arr : list (option A)) (i : Z) : option A :=
  match JS.index arr i with
  | Some x => x
  | None => None
  end.

(** Truthiness of [salesHistory[i]]. *)
Definition sold_at (salesHistory : list bool) (i : Z) : bool :=
  match JS.index salesHistory i with
  | Some b => b
  | None => false
  end.

(** [arr[n] += 1] on an array that has the index. *)
Fixpoint incr_at (arr : list Z) (n : nat) : list Z :=
  match arr, n with
  | [], _ => []
  | x :: rest, O => (x + 1) :: rest
  | x :: rest, S k => x :: incr_at rest k
  end.

Module Stats.
Section WithFloat64.
Context {F : Float64}.

Definition fadd (x y : number) : number :=
  match x, y with
  | Some a, Some b => Some (rnd (a + b)%Q)
  | _, _ => None
  end.

Definition fsub (x y : number) : number :=
  match x, y with
  | Some a, Some b => Some (rnd (a - b)%Q)
  | _, _ => None
  end.

(** The only division by zero the source performs is [0 / 0] in [_mean] of an
    empty array, which is NaN. *)
Definition fdiv (x y : number) : number :=
  match x, y with
  | Some a, Some b => if Qeq_bool b 0 then None else Some (rnd (a / b)%Q)
  | _, _ => None
  end.

Definition fpow (x : number) (y : Z) : number := option_map (fun a => Math_pow a y) x.
Definition fsqrt (x : number) : number := option_map Math_sqrt x.

Definition of_Z (z : Z) : number := Some (inject_Z z).

(** [_mean(arr)] *)
Definition _mean (arr : list number) : number :=
  fdiv (fold_left (fun sum val => fadd sum val) arr (of_Z 0))
       (of_Z (Z.of_nat (length arr))).

(** [_std(arr)] *)
Definition _std (arr : list number) : number :=
  let mean := _mean arr in
  let variance := _mean (map (fun val => fpow (fsub val mean) 2) arr) in
  fsqrt variance.

(** [_sum(arr)] on an array of booleans: [true] counts 1. *)
Definition _sum (arr : list bool) : Z :=
  fold_left (fun sum val => sum + Z.b2z val) arr 0.

(** The prices of the periods of one trial in which a sale occurred, in
    period order. *)
Definition sold_prices (result : SimulationState) : list (option Z) :=
  flat_map
    (fun i => if sold_at (salesHistory result) i
              then [index_opt (priceHistory result) i] else [])
    (JS.range 0 (Z.of_nat (length (salesHistory result)))).

(** [if (mix.hasOwnProperty(price)) mix[price] += 1] *)
Definition tally (mix : PriceMix.t) (price : option Z) : PriceMix.t :=
  match price with
  | Some p =>
      if p =? 30000 then PriceMix.mk (PriceMix.LOW mix + 1) (PriceMix.MED mix) (PriceMix.HIGH mix)
      else if p =? 40000 then PriceMix.mk (PriceMix.LOW mix) (PriceMix.MED mix + 1) (PriceMix.HIGH mix)
      else if p =? 50000 then PriceMix.mk (PriceMix.LOW mix) (PriceMix.MED mix) (PriceMix.HIGH mix + 1)
      else mix
  | None => mix
  end.

(** The counting loop shared, as the same text, by the price mix of
    [_calculateAggregates] and by [_createPriceHistogram]. *)
Definition count_prices (trialResults : list SimulationState) : PriceMix.t :=
  fold_left
    (fun mix result =>
       fold_left
         (fun mix i =>
            if sold_at (salesHistory result) i
               && (i <? Z.of_nat (length (priceHistory result)))
            then tally mix (index_opt (priceHistory result) i)
            else mix)
         (JS.range 0 (Z.of_nat (length (salesHistory result)))) mix)
    trialResults (PriceMix.mk 0 0 0).

(** The two counters of the last-minute loop. *)
Definition last_minute_counts (cfg : Config) (trialResults : list SimulationState)
    : Z * Z :=
  fold_left
    (fun counts result =>
       fold_left
         (fun (counts : Z * Z) t =>
            let (lastMinuteSales, totalSales) := counts in
            let len := Z.of_nat (length (salesHistory result)) in
            let lastMinuteSales' :=
              if (t <? len) && sold_at (salesHistory result) t
              then lastMinuteSales + 1 else lastMinuteSales in
            let totalSales' := if t <? len then totalSales + 1 else totalSales in
            (lastMinuteSales', totalSales'))
         (JS.range (cfg_T cfg - cfg_lastMinuteK cfg) (cfg_T cfg)) counts)
    trialResults (0, 0).

(** [_calculateAggregates(trialResults)] *)
Definition _calculateAggregates (cfg : Config) (trialResults : list SimulationState)
    : Aggregates :=
  let revenues := map (fun result => to_number (revenue result)) trialResults in
  let salesCounts := map (fun result => of_Z (salesCount result)) trialResults in
  let avgRevenue := _mean revenues in
  let stdRevenue := _std revenues in
  let fillRate := fdiv (_mean salesCounts) (of_Z (cfg_I cfg)) in
  let allPrices := flat_map sold_prices trialResults in
  let avgPrice :=
    if (0 <? Z.of_nat (length allPrices)) then _mean (map to_number allPrices)
    else of_Z 0 in
  let (lastMinuteSales, totalSales) := last_minute_counts cfg trialResults in
  let lastMinuteShare :=
    if 0 <? totalSales then fdiv (of_Z lastMinuteSales) (of_Z totalSales)
    else of_Z 0 in
  mkAggregates avgRevenue stdRevenue fillRate avgPrice lastMinuteShare
    (count_prices trialResults).

(** [_createSampleTrial(trialState)] *)
Definition _createSampleTrial (cfg : Config) (trialState : SimulationState)
    : Sample.t :=
  let steps :=
    flat_map
      (fun t =>
         if t <? Z.of_nat (length (priceHistory trialState)) then
           [Step.mk (t + 1)
              (Z.max 0 (cfg_I cfg
                        - _sum (firstn (Z.to_nat (t + 1)) (salesHistory trialState))))
              (index_opt (priceHistory trialState) t)
              (sold_at (salesHistory trialState) t)
              (match index_opt (revenueHistory trialState) t with
               | Some v => v
               | None => 0
               end)]
         else [])
      (JS.range 0 (cfg_T cfg)) in
  Sample.mk 0 steps (revenue trialState).

(** [_createPriceHistogram(trialResults)] *)
Definition _createPriceHistogram (trialResults : list SimulationState) : PriceMix.t :=
  count_prices trialResults.

(** [_createSalesByPeriodHistogram(trialResults)] *)
Definition _createSalesByPeriodHistogram (cfg : Config)
    (trialResults : list SimulationState) : list Z :=
  fold_left
    (fun salesByPeriod result =>
       fold_left
         (fun salesByPeriod t =>
            if sold_at (salesHistory result) t
            then incr_at salesByPeriod (Z.to_nat t) else salesByPeriod)
         (JS.range 0 (Z.min (Z.of_nat (length (salesHistory result))) (cfg_T cfg)))
         salesByPeriod)
    trialResults (repeat 0 (Z.to_nat (cfg_T cfg))).

(** [runSimulation(policy)]: the returned results, or the thrown error, and
    the engine afterwards. *)
Definition runSimulation (e : SimulationEngine) (policy : PolicyMatrix)
    : result SimulationResults * SimulationEngine :=
  let cfg := config e in
  if negb (policy_I policy =? cfg_I cfg) || negb (policy_T policy =? cfg_T cfg)
  then
    (Throw ("Policy dimensions (" ++ JS.show (policy_I policy) ++ "x"
            ++ JS.show (policy_T policy) ++ ") don't match config ("
            ++ JS.show (cfg_I cfg) ++ "x" ++ JS.show (cfg_T cfg) ++ ")")%string,
     e)
  else
    let g0 := Rng.reset (rng e) in
    let (trialResults, g1) := Engine.run_trials cfg policy g0 in
    let e' := mkEngine cfg g1 in
    let aggregates := _calculateAggregates cfg trialResults in
    match trialResults with
    | [] => (Throw "Cannot read properties of undefined (reading 'priceHistory')", e')
    | first :: _ =>
        (Ok (mkResults cfg policy aggregates
               (_createSampleTrial cfg first)
               (_createPriceHistogram trialResults)
               (_createSalesByPeriodHistogram cfg trialResults)), e')
    end.

End WithFloat64.
End Stats.

(** ** The trial state machine, as the specification words it

    States are the capacity remaining; one transition per period.  This is the
    reference the loop of [_runSingleTrial] is compared with. *)

Module TrialSpec.

Record PeriodRecord : Type := mkRecord {
  price : option Z;
  sold : bool;
  revenue : option Z;
  remaining : Z
}.

(** [PolicyMatrix[c - 1][t]], read from the grid itself. *)
Definition cell (P : PolicyMatrix) (row col : Z) : option Z :=
  match JS.index (matrix P) row with
  | Some r => JS.index r col
  | None => None
  end.

Definition step (P : PolicyMatrix) (t c : Z) (g : RNG) : PeriodRecord * RNG :=
  if c =? 0 then (mkRecord (Some 0) false (Some 0) c, g)
  else
    let p := cell P (c - 1) t in
    let (u, g') := Rng.next g in
    if JS.Qltb u (CONFIG.SALE_PROBABILITIES p)
    then (mkRecord p true p (c - 1), g')
    else (mkRecord p false (Some 0) c, g').

(** The records of the periods [ts], the capacity left and the generator
    after them. *)
Fixpoint run (P : PolicyMatrix) (ts : list Z) (c : Z) (g : RNG)
    : list PeriodRecord * Z * RNG :=
  match ts with
  | [] => ([], c, g)
  | t :: rest =>
      let (r, g') := step P t c g in
      let '(rs, c', g'') := run P rest (remaining r) g' in
      (r :: rs, c', g'')
  end.

(** Whether the period entered with capacity [c] consumes a draw. *)
Definition draws_in (c : Z) : nat := if c =? 0 then 0%nat else 1%nat.

(** The number of draws the records of a trace from capacity [c] consume. *)
Fixpoint consumed (c : Z) (rs : list PeriodRecord) : nat :=
  match rs with
  | [] => 0%nat
  | r :: rest => (draws_in c + consumed (remaining r) rest)%nat
  end.

(** A trace that starts from capacity [c]: what each record may be, given the
    capacity with which its period is entered.  [good] is what is known of the
    prices offered while there is capacity. *)
Inductive chain (good : option Z -> Prop) : Z -> list PeriodRecord -> Prop :=
| chain_nil (c : Z) : chain good c []
| chain_cons (c : Z) (r : PeriodRecord) (rs : list PeriodRecord) :
    (sold r = true -> 0 < c /\ remaining r = c - 1 /\ revenue r = price r) ->
    (sold r = false -> remaining r = c /\ revenue r = Some 0) ->
    (c = 0 -> price r = Some 0 /\ sold r = false) ->
    (c <> 0 -> good (price r)) ->
    chain good (remaining r) rs ->
    chain good c (r :: rs).

End TrialSpec.

(** The state the loop body leaves, from the record of the period. *)
Definition push_record (st : SimulationState) (r : TrialSpec.PeriodRecord)
    : SimulationState :=
  mkState (TrialSpec.remaining r)
    (add_price (revenue st) (TrialSpec.revenue r))
    (salesCount st + Z.b2z (TrialSpec.sold r))
    (priceHistory st ++ [TrialSpec.price r])
    (salesHistory st ++ [TrialSpec.sold r])
    (revenueHistory st ++ [TrialSpec.revenue r]).

(** The state after a list of periods, from their records. *)
Definition push_records (st : SimulationState) (rs : list TrialSpec.PeriodRecord)
    (c' : Z) : SimulationState :=
  mkState c'
    (fold_left add_price (map TrialSpec.revenue rs) (revenue st))
    (salesCount st + Stats._sum (map TrialSpec.sold rs))
    (priceHistory st ++ map TrialSpec.price rs)
    (salesHistory st ++ map TrialSpec.sold rs)
    (revenueHistory st ++ map TrialSpec.revenue rs).

(** ** Traces

    The per-period trace of a trial is what [_createSampleTrial] makes of a
    trial state.  [Trace.valid I c steps] says that [steps] is a possible
    trace from capacity [c] under initial capacity [I]. *)

Module Trace.

Definition price_ok (c : Z) (price : option Z) : Prop :=
  (exists v, price = Some v /\ Policy.canonical v) \/ (price = Some 0 /\ c = 0).

Inductive valid (I : Z) : Z -> list Step.t -> Prop :=
| valid_nil (c : Z) : valid I c []
| valid_cons (c : Z) (s : Step.t) (rest : list Step.t) :
    0 <= Step.remainingCapacity s <= c ->
    c <= I ->
    (Step.sold s = true -> 0 < c /\ Step.remainingCapacity s = c - 1) ->
    (Step.sold s = false -> Step.remainingCapacity s = c) ->
    price_ok c (Step.price s) ->
    valid I (Step.remainingCapacity s) rest ->
    valid I c (s :: rest).

End Trace.

(** The step [_createSampleTrial] shows for period [t] with record [r]. *)
Definition step_of (t : Z) (r : TrialSpec.PeriodRecord) : Step.t :=
  Step.mk (t + 1) (TrialSpec.remaining r) (TrialSpec.price r) (TrialSpec.sold r)
    (match TrialSpec.revenue r with Some v => v | None => 0 end).

(** ** CSV parser and validator

    CSV text is 7-bit ASCII here: [trim] removes the ASCII white space and
    [toUpperCase] maps [a-z] to [A-Z]. *)

Module Str.

Definition is_space (ch : ascii) : bool :=
  let n := nat_of_ascii ch in
  ((9 <=? n) && (n <=? 13))%nat || (n =? 32)%nat.

Fixpoint trimStart (s : string) : string :=
  match s with
  | EmptyString => EmptyString
  | String ch rest => if is_space ch then trimStart rest else s
  end.

Fixpoint rev_append (s acc : string) : string :=
  match s with
  | EmptyString => acc
  | String ch rest => rev_append rest (String ch acc)
  end.

Definition rev (s : string) : string := rev_append s EmptyString.

(** [s.trim()] *)
Definition trim (s : string) : string := rev (trimStart (rev (trimStart s))).

Definition upper (ch : ascii) : ascii :=
  let n := nat_of_ascii ch in
  if ((97 <=? n) && (n <=? 122))%nat then ascii_of_nat (n - 32) else ch.

(** [s.toUpperCase()] *)
Fixpoint toUpperCase (s : string) : string :=
  match s with
  | EmptyString => EmptyString
  | String ch rest => String (upper ch) (toUpperCase rest)
  end.

(** A character of 7-bit ASCII, and a text of such characters: the texts on
    which [trim] and [toUpperCase] above are those of the source. *)
Definition is_ascii (ch : ascii) : bool := (nat_of_ascii ch <? 128)%nat.



(** [s.split(sep)] for a one-character separator: never empty, and an empty
    string gives one empty piece. *)
Fixpoint split (sep : ascii) (s : string) : list string :=
  match s with
  | EmptyString => [EmptyString]
  | String ch rest =>
      if Ascii.eqb ch sep then EmptyString :: split sep rest
      else
        match split sep rest with
        | [] => [String ch EmptyString]
        | piece :: pieces => String ch piece :: pieces
        end
  end.

End Str.

Module CSVProcessor.

Record ValidationError : Type := mkError {
  row : Z;
  col : Z;
  value : string;
  message : string
}.

Record ValidationResult : Type := mkValidation {
  valid : bool;
  errors : list ValidationError;
  dimensions : Z * Z;
  matrixPreview : list (list string)
}.

(** [parseCSV(csvContent)] *)
Definition parseCSV (csvContent : string) : list (list string) :=
  let lines := Str.split "010"%char (Str.trim csvContent) in
  map (fun line =>
         map (fun cell => Str.toUpperCase (Str.trim cell)) (Str.split ","%char line))
      lines.

Definition validValues : list string :=
  ["LOW"; "MED"; "HIGH"; "30"; "40"; "50"; "$30"; "$40"; "$50"]%string.

(** [_isValidPriceLevel(value)] *)
Definition _isValidPriceLevel (value : string) : bool :=
  existsb (String.eqb value) validValues.

(** The elements of an array with their indices, as a loop
    [for (let j = 0; j < arr.length; j++)] meets them. *)
Definition enumerate {A : Type} (arr : list A) : list (Z * A) :=
  combine (JS.range 0 (Z.of_nat (length arr))) arr.

Definition row_count_error (rows : Z) : ValidationError :=
  mkError (-1) (-1) ""
    ("Expected " ++ JS.show CONFIG.I ++ " rows, got " ++ JS.show rows)%string.

Definition column_count_error (i : Z) (columns : Z) : ValidationError :=
  mkError (i + 1) (-1) ""
    ("Row " ++ JS.show (i + 1) ++ ": Expected " ++ JS.show CONFIG.T
     ++ " columns, got " ++ JS.show columns)%string.

Definition cell_error (i j : Z) (cell : string) : ValidationError :=
  mkError (i + 1) (j + 1) cell
    ("Invalid price level: " ++ cell
     ++ ". Use LOW, MED, HIGH, 30, 40, 50, $30, $40, or $50")%string.

(** The errors pushed by the inner loop over the cells of row [i]. *)
Definition cell_errors (i : Z) (row : list string) : list ValidationError :=
  flat_map
    (fun jc : Z * string =>
       let (j, cell) := jc in
       if _isValidPriceLevel cell then [] else [cell_error i j cell])
    (enumerate row).

(** The errors pushed by one turn of the loop over the rows. *)
Definition row_errors (i : Z) (row : list string) : list ValidationError :=
  (if Z.of_nat (length row) =? CONFIG.T then []
   else [column_count_error i (Z.of_nat (length row))])
  ++ cell_errors i row.

(** [validateMatrix(matrix)] *)
Definition validateMatrix (matrix : list (list string)) : ValidationResult :=
  let errors :=
    (if Z.of_nat (length matrix) =? CONFIG.I then []
     else [row_count_error (Z.of_nat (length matrix))])
    ++ flat_map (fun ir : Z * list string => let (i, row) := ir in row_errors i row)
         (enumerate matrix) in
  mkValidation
    (Nat.eqb (length errors) 0)
    errors
    (Z.of_nat (length matrix),
     match matrix with
     | row0 :: _ => Z.of_nat (length row0)
     | [] => 0
     end)
    matrix.

(** The price a cell stands for in [convertToPriceMatrix]. *)
Definition cell_price (cell : string) : Z :=
  if (String.eqb cell "LOW" || String.eqb cell "30" || String.eqb cell "$30")%string
  then CONFIG.LOW
  else if (String.eqb cell "MED" || String.eqb cell "40" || String.eqb cell "$40")%string
  then CONFIG.MED
  else if (String.eqb cell "HIGH" || String.eqb cell "50" || String.eqb cell "$50")%string
  then CONFIG.HIGH
  else 0.

(** [convertToPriceMatrix(matrix)] *)
Definition convertToPriceMatrix (matrix : list (list string)) : result PolicyMatrix :=
  Policy.new (map (map cell_price) matrix).

End CSVProcessor.

(** ** Exact arithmetic

    The instance of the number interface that rounds nothing; the square root
    is taken to 32 binary places. *)

#[local] Instance Exact : Float64 := {|
  rnd := fun q => q;
  Math_pow := fun x y => Qpower x y;
  Math_sqrt := fun x =>
    (inject_Z (Z.sqrt (Qfloor (x * (18446744073709551616 # 1)))) / (4294967296 # 1))%Q
|}.

(** ** Optimal benchmark and regret *)

Module Benchmark.

(** Modelled from the spec: the optimal benchmark of section 4.5 and the
    regret of section 4.4.  The benchmark of the repository
    (backend/sim/dp_benchmark.py) and the place where regret is attached to
    the aggregates are not among the sources.  Price levels are pairs of a
    price and a probability of sale. *)
Definition levels : list (Q * Q) :=
  [(30000 # 1, 9 # 10); (40000 # 1, 8 # 10); (50000 # 1, 4 # 10)].

(** [prob(p) * (price(p) + value(c-1, r-1)) + (1 - prob(p)) * value(c, r-1)] *)
Definition expected (v_sold v_kept : Q) (level : Q * Q) : Q :=
  let (price, prob) := level in
  (prob * (price + v_sold) + (1 - prob) * v_kept)%Q.

(** The maximum over the price levels. *)
Definition best (v_sold v_kept : Q) : Q :=
  match map (expected v_sold v_kept) levels with
  | [] => 0%Q
  | x :: xs => fold_left Qmax xs x
  end.

(** The recurrence of the specification. *)
Fixpoint value (c r : nat) : Q :=
  match r with
  | O => 0%Q
  | S r' =>
      match c with
      | O => 0%Q
      | S c' => best (value c' r') (value c r')
      end
  end.

(** Backward induction: the values for [r] periods remaining, for the
    capacities 0, 1, ..., from the values for [r - 1]. *)
Fixpoint next_row_from (below : Q) (prev : list Q) : list Q :=
  match prev with
  | [] => []
  | v :: rest => best below v :: next_row_from v rest
  end.

Definition next_row (prev : list Q) : list Q :=
  match prev with
  | [] => []
  | v0 :: rest => 0%Q :: next_row_from v0 rest
  end.

Fixpoint table (I r : nat) : list Q :=
  match r with
  | O => repeat 0%Q (S I)
  | S r' => next_row (table I r')
  end.

(** The optimal expected revenue from capacity [I] over [T] periods. *)
Definition optimal (I T : nat) : Q := nth I (table I T) 0%Q.

(** Regret, when requested: optimal expected revenue minus the simulated
    average revenue, as it is. *)
Definition regret (compute_regret : bool) (I T : nat) (averages : Aggregates)
    : option number :=
  if compute_regret
  then Some (option_map (fun avg => (optimal I T - avg)%Q) (avgRevenue averages))
  else None.

End Benchmark.

(** ** Export to CSV *)

Module CsvText.

(** [CSVProcessor.matrixToCSV(matrix)]: the cells of a row joined by commas,
    the rows joined by line feeds. *)
Definition matrixToCSV (matrix : list (list string)) : string :=
  String.concat (String "010"%char EmptyString) (map (String.concat ",") matrix).

(** A character that [parseCSV] leaves alone inside a cell: a character of
    7-bit ASCII that is no white space, no comma and no lower-case letter. *)
Definition plain_char (ch : ascii) : bool :=
  negb (Str.is_space ch) && negb (Ascii.eqb ch ","%char)
  && Ascii.eqb (Str.upper ch) ch && Str.is_ascii ch.

Fixpoint all_plain (s : string) : bool :=
  match s with
  | EmptyString => true
  | String ch rest => plain_char ch && all_plain rest
  end.

(** A non-empty cell of plain characters. *)
Definition plain_cell (s : string) : bool :=
  match s with
  | EmptyString => false
  | String _ _ => all_plain s
  end.

(** The string starts with a character that is not white space. *)
Definition head_ok (s : string) : bool :=
  match s with
  | EmptyString => false
  | String ch _ => negb (Str.is_space ch)
  end.

(** The string does not contain the character. *)
Fixpoint lacks (sep : ascii) (s : string) : bool :=
  match s with
  | EmptyString => true
  | String ch rest => negb (Ascii.eqb ch sep) && lacks sep rest
  end.

(** A grid of plain cells, with at least one row and no empty row. *)
Definition plain_grid (grid : list (list string)) : Prop :=
  grid <> []
  /\ Forall (fun row => row <> [] /\ Forall (fun cell => plain_cell cell = true) row)
       grid.

End CsvText.

(** ** The application around the engine ([app.js])

    The page is reduced to what these functions read and write of it: the
    stored policy and, for the strategy grid, the class list of the cell at
    each (capacity, period), which [generatePlaygroundGrid] creates for all of
    [0, I) x [0, T). *)

Module App.

Record CellClasses : Type := mkClasses {
  has_low : bool;
  has_med : bool;
  has_high : bool
}.

(** The value [getPlaygroundMatrix] reads off one cell; a cell of no price
    class counts as LOW. *)
Definition cell_value (cell : CellClasses) : string :=
  if has_low cell then "LOW"
  else if has_med cell then "MED"
  else if has_high cell then "HIGH"
  else "LOW".

(** [getPlaygroundMatrix()] *)
Definition getPlaygroundMatrix (grid : Z -> Z -> CellClasses) : list (list string) :=
  map (fun i => map (fun t => cell_value (grid i t)) (JS.range 0 CONFIG.T))
      (JS.range 0 CONFIG.I).

(** [proceedToSimulate()]: the policy stored in [this.policyMatrix]. *)
Definition proceedToSimulate (grid : Z -> Z -> CellClasses) : result PolicyMatrix :=
  CSVProcessor.convertToPriceMatrix (getPlaygroundMatrix grid).

(** [exportCSV()]: the content of the downloaded file. *)
Definition exportCSV (grid : Z -> Z -> CellClasses) : string :=
  CsvText.matrixToCSV (getPlaygroundMatrix grid).

(** The text [processCSVFile] shows for a list of validation errors. *)
Definition error_text (errors : list CSVProcessor.ValidationError) : string :=
  ("CSV Validation Error:" ++ String "010"%char
     (String.concat (String "010"%char EmptyString)
        (map (fun err =>
                "Row " ++ JS.show (CSVProcessor.row err) ++ ", Col "
                ++ JS.show (CSVProcessor.col err) ++ ": " ++ CSVProcessor.message err)
             errors)))%string.

(** The class list [populateGridFromMatrix] gives a cell for the value of the
    matrix at the cell: that of ['grid-cell low'], ['grid-cell med'],
    ['grid-cell high'] or ['grid-cell empty']. *)
Definition populated_classes (value : string) : CellClasses :=
  let value := Str.toUpperCase value in
  if (String.eqb value "LOW" || String.eqb value "30" || String.eqb value "$30")%string
  then mkClasses true false false
  else if (String.eqb value "MED" || String.eqb value "40" || String.eqb value "$40")%string
  then mkClasses false true false
  else if (String.eqb value "HIGH" || String.eqb value "50" || String.eqb value "$50")%string
  then mkClasses false false true
  else mkClasses false false false.

(** [matrix[i][t]] for a grid of strings, when both reads give a value. *)
Definition entry (matrix : list (list string)) (i t : Z) : option string :=
  match JS.index matrix i with
  | Some row => JS.index row t
  | None => None
  end.

(** [cell.className = cellClass] on the cell at (i, t). *)
Definition set_cell (grid : Z -> Z -> CellClasses) (i t : Z) (classes : CellClasses)
    : Z -> Z -> CellClasses :=
  fun i' t' => if (i' =? i) && (t' =? t) then classes else grid i' t'.

(** The two loops of [populateGridFromMatrix], over the cells still to visit:
    the grid afterwards and, when reading [matrix[i][t]] or calling its
    [toUpperCase] threw, the message of the error, the cells after the one
    that threw being left as they were. *)
Fixpoint populate_cells (matrix : list (list string)) (todo : list (Z * Z))
    (grid : Z -> Z -> CellClasses) : (Z -> Z -> CellClasses) * option string :=
  match todo with
  | [] => (grid, None)
  | (i, t) :: rest =>
      match JS.index matrix i with
      | None =>
          (grid, Some ("Cannot read properties of undefined (reading '"
                       ++ JS.show t ++ "')")%string)
      | Some row =>
          match JS.index row t with
          | None =>
              (grid,
               Some "Cannot read properties of undefined (reading 'toUpperCase')"%string)
          | Some value =>
              populate_cells matrix rest (set_cell grid i t (populated_classes value))
          end
      end
  end.

(** The cells in the order of
    [for (i = 0; i < I; i++) for (t = 0; t < T; t++)]. *)
Definition all_cells : list (Z * Z) :=
  flat_map (fun i => map (fun t => (i, t)) (JS.range 0 CONFIG.T)) (JS.range 0 CONFIG.I).

(** [populateGridFromMatrix(matrix)] *)
Definition populateGridFromMatrix (matrix : list (list string))
    (grid : Z -> Z -> CellClasses) : (Z -> Z -> CellClasses) * option string :=
  populate_cells matrix all_cells grid.

(** What the handlers below read and write of the application: the stored
    policy ([None] before any is stored) and the strategy grid. *)
Record Page : Type := mkPage {
  policyMatrix : option PolicyMatrix;
  cells : Z -> Z -> CellClasses
}.

(** The message a handler ends with: [showSuccess] or [showError]. *)
Inductive Shown : Type :=
| Success (msg : string)
| Error (msg : string).

(** The handler of [processCSVFile(file)] on the text of the file: the page
    afterwards and the message shown. *)
Definition processCSVFile (csvContent : string) (page : Page) : Page * Shown :=
  let matrix := CSVProcessor.parseCSV csvContent in
  let validation := CSVProcessor.validateMatrix matrix in
  if CSVProcessor.valid validation then
    match CSVProcessor.convertToPriceMatrix matrix with
    | Throw msg => (page, Error ("Error processing CSV: " ++ msg)%string)
    | Ok policy =>
        match populateGridFromMatrix matrix (cells page) with
        | (grid, Some msg) =>
            (mkPage (Some policy) grid, Error ("Error processing CSV: " ++ msg)%string)
        | (grid, None) =>
            (mkPage (Some policy) grid,
             Success "CSV loaded successfully! Grid updated."%string)
        end
    end
  else (page, Error (error_text (CSVProcessor.errors validation))).

(** The inner loop of [createMonteCarloChart]:
    [for (let t = 0; t < 15 && inventory > 0; t++)], over the periods [ts]
    still to come; the result is the trial's revenue. *)
Fixpoint chart_periods (policy : PolicyMatrix) (ts : list Z) (inventory : Z)
    (revenue : option Z) (g : RNG) : option Z :=
  match ts with
  | [] => revenue
  | t :: rest =>
      if inventory >? 0 then
        let capacityIdx := inventory - 1 in
        let price := Policy.getPrice policy capacityIdx t in
        let saleProb := CONFIG.SALE_PROBABILITIES price in
        let (randomValue, g') := Rng.next g in
        if JS.Qltb randomValue saleProb
        then chart_periods policy rest (inventory - 1) (add_price revenue price) g'
        else chart_periods policy rest inventory revenue g'
      else revenue
  end.

(** The revenue the chart computes for its trial [i], with [new RNG(42 + i)]. *)
Definition chart_trial (policy : PolicyMatrix) (i : Z) : option Z :=
  chart_periods policy (JS.range 0 15) 7 (Some 0) (Rng.new (42 + i)).

(** The array [revenues] of [createMonteCarloChart]. *)
Definition chart_revenues (policy : PolicyMatrix) : list (option Z) :=
  map (chart_trial policy) (JS.range 0 100).

(** [runSimulation()] of the page, on [this.policyMatrix] ([None] when no
    policy has been stored): [Ok] is what is stored in
    [this.simulationResults], [Throw] the text passed to [showError]. *)
Definition runSimulation {F : Float64} (policyMatrix : option PolicyMatrix)
    : result SimulationResults :=
  match policyMatrix with
  | None => Throw "No policy matrix available. Please design a strategy first."
  | Some policy =>
      match Engine.new (mkInput (Some (100 # 1)) (Some 42) None) with
      | Throw msg => Throw ("Simulation failed: " ++ msg)%string
      | Ok engine =>
          match fst (Stats.runSimulation engine policy) with
          | Ok results => Ok results
          | Throw msg => Throw ("Simulation failed: " ++ msg)%string
          end
      end
  end.

End App.

(** ** Summaries of trials and of runs *)

(** A record whose sale, if any, is at a canonical price. *)
Definition sold_canonical (r : TrialSpec.PeriodRecord) : Prop :=
  TrialSpec.sold r = true ->
  exists v, TrialSpec.price r = Some v /\ Policy.canonical v.

(** The sum of a list of integers. *)
Definition Zsum (l : list Z) : Z := fold_right Z.add 0 l.

(** The number of sales at price [v] among the prices of the periods sold. *)
Definition sales_at (v : Z) (prices : list (option Z)) : Z :=
  Z.of_nat (length (filter (fun p => match p with
                                     | Some x => x =? v
                                     | None => false
                                     end) prices)).

(** The number of trials that sold in period [t]. *)
Definition trials_selling_in (t : Z) (trialResults : list SimulationState) : Z :=
  Z.of_nat (length (filter (fun st => sold_at (salesHistory st) t) trialResults)).

Definition mix_total (mix : PriceMix.t) : Z :=
  PriceMix.LOW mix + PriceMix.MED mix + PriceMix.HIGH mix.

(** The number of the final [lastMinuteK] periods that lie below the length
    of the sales history of a trial. *)
Definition last_minute_slots (cfg : Config) (st : SimulationState) : Z :=
  Z.of_nat (length (filter (fun t => t <? Z.of_nat (length (salesHistory st)))
                      (JS.range (cfg_T cfg - cfg_lastMinuteK cfg) (cfg_T cfg)))).

(** The number of the final [lastMinuteK] periods in which a trial sold. *)
Definition last_minute_sold (cfg : Config) (st : SimulationState) : Z :=
  Z.of_nat (length (filter (sold_at (salesHistory st))
                      (JS.range (cfg_T cfg - cfg_lastMinuteK cfg) (cfg_T cfg)))).

(** What is known of a trial state of a run with draws that are not
    negative. *)
Definition summarized (cfg : Config) (st : SimulationState) : Prop :=
  exists vs : list Z,
    Stats.sold_prices st = map Some vs
    /\ Forall Policy.canonical vs
    /\ salesCount st = Z.of_nat (length vs)
    /\ revenue st = Some (Zsum vs)
    /\ 0 <= salesCount st <= cfg_I cfg
    /\ length (salesHistory st) = Z.to_nat (cfg_T cfg)
    /\ length (priceHistory st) = Z.to_nat (cfg_T cfg).

(** * Properties *)

(** ** Evaluation on concrete inputs *)

Example js_round_ties_to_even :
  map JS.js_round [2 ^ 53 - 1; 2 ^ 53 + 1; 2 ^ 53 + 3; - (2 ^ 60) - 129]
  = [9007199254740991; 9007199254740992; 9007199254740996; -1152921504606847232].
Proof. reflexivity. Qed.

Example draws_seed_42 :
  map rng_current (map (fun n => Rng.after n (Rng.new 42)) [1; 2; 3]%nat)
  = [1083814273; 378494188; 2479403867].
Proof. reflexivity. Qed.

Example trial_all_high_seed_42 :
  let P := mkPolicy (repeat (repeat 50000 15%nat) 7%nat) 7 15 in
  let st := fst (Engine._runSingleTrial (mkConfig 7 15 (3 # 1) 42 3) P 0 (Rng.new 42)) in
  salesHistory st
  = [true; true; false; true; true; true; false; true;
     false; false; false; false; false; false; false]
  /\ revenue st = Some 300000 /\ capacity st = 1.
Proof. vm_compute. repeat split. Qed.

Example aggregates_all_high_seed_42 :
  let P := mkPolicy (repeat (repeat 50000 15%nat) 7%nat) 7 15 in
  let e := mkEngine (mkConfig 7 15 (3 # 1) 42 3) (Rng.new 42) in
  match fst (@Stats.runSimulation Exact e P) with
  | Ok res =>
      (avgRevenue (aggregates res), fillRate (aggregates res),
       lastMinuteShare (aggregates res), priceHistogram res, salesByPeriod res)
      = (Some (800000 # 3), Some (16 # 21), Some (3 # 9), PriceMix.mk 0 0 16,
         [3; 2; 0; 1; 1; 2; 1; 1; 1; 0; 0; 1; 1; 1; 1])
  | Throw _ => False
  end.
Proof. vm_compute. reflexivity. Qed.

Example parse_and_validate :
  let text := ("  low, med ,HIGH" ++ String "013" (String "010" "$30,x,"))%string in
  CSVProcessor.parseCSV text = [["LOW"; "MED"; "HIGH"]; ["$30"; "X"; ""]]%string
  /\ map (fun e => (CSVProcessor.row e, CSVProcessor.col e))
       (CSVProcessor.errors (CSVProcessor.validateMatrix (CSVProcessor.parseCSV text)))
     = [(-1, -1); (1, -1); (2, -1); (2, 2); (2, 3)]
  /\ CSVProcessor.message (CSVProcessor.row_count_error 2) = "Expected 7 rows, got 2"%string.
Proof. vm_compute. repeat split. Qed.

Example optimal_small_shapes :
  (Benchmark.optimal 1 1 == 32000 # 1)%Q
  /\ (Benchmark.optimal 1 2 == 39200 # 1)%Q.
Proof. split; vm_compute; reflexivity. Qed.

(** ** The generator: basic facts *)

Lemma js_round_exact (z : Z) : Z.abs z < 2 ^ 53 -> JS.js_round z = z.
Proof.
  intros H. unfold JS.js_round.
  destruct (Z.ltb_spec (Z.abs z) (2 ^ 53)); [reflexivity | lia].
Qed.

Lemma js_round_nonneg (z : Z) : 0 <= z -> 0 <= JS.js_round z.
Proof.
  intros H. unfold JS.js_round.
  destruct (Z.ltb_spec (Z.abs z) (2 ^ 53)) as [|Hbig]; [exact H|].
  assert (Hlog : 53 <= Z.log2 (Z.abs z)).
  { apply Z.log2_le_pow2; lia. }
  apply Z.mul_nonneg_nonneg; [lia|].
  rewrite Z.shiftl_mul_pow2 by lia.
  apply Z.mul_nonneg_nonneg; [|apply Z.pow_nonneg; lia].
  assert (0 <= Z.shiftr (Z.abs z) (Z.log2 (Z.abs z) - 52)).
  { apply Z.shiftr_nonneg. lia. }
  match goal with |- context [if ?b then _ else _] => destruct b end; lia.
Qed.

Lemma advance_exact (cur : Z) :
  0 <= cur < 2 ^ 32 ->
  Rng.advance cur = (Rng.a * cur + Rng.c) mod 2 ^ 32.
Proof.
  intros H. unfold Rng.advance, JS.rem, JS.add, JS.mul, Rng.a, Rng.c, Rng.m in *.
  rewrite (js_round_exact (1664525 * cur)) by lia.
  rewrite js_round_exact by lia.
  apply Z.rem_mod_nonneg; lia.
Qed.

Lemma advance_abs (cur : Z) : - 2 ^ 32 < Rng.advance cur < 2 ^ 32.
Proof.
  unfold Rng.advance, JS.rem, Rng.m.
  set (x := JS.add _ _).
  destruct (Z.le_gt_cases 0 x).
  - pose proof (Z.rem_bound_pos x (2 ^ 32)). lia.
  - pose proof (Z.rem_bound_pos_neg x (2 ^ 32)). lia.
Qed.

Lemma advance_nonneg (cur : Z) : 0 <= cur -> 0 <= Rng.advance cur < 2 ^ 32.
Proof.
  intros H. unfold Rng.advance, JS.rem, JS.add, JS.mul, Rng.m.
  apply Z.rem_bound_pos; [|lia].
  apply js_round_nonneg.
  pose proof (js_round_nonneg (Rng.a * cur)).
  unfold Rng.a, Rng.c in *. lia.
Qed.

Lemma advance_after_first (g : RNG) (k : nat) :
  - 2 ^ 32 < rng_current (Rng.after (S k) g) < 2 ^ 32.
Proof.
  revert g. induction k as [|k IH]; intros g.
  - simpl. apply advance_abs.
  - change (Rng.after (S (S k)) g) with (Rng.after (S k) (snd (Rng.next g))).
    apply IH.
Qed.

Lemma after_seed (n : nat) (g : RNG) : rng_seed (Rng.after n g) = rng_seed g.
Proof.
  revert g. induction n as [|n IH]; intros g; [reflexivity|].
  simpl. rewrite IH. reflexivity.
Qed.

Lemma after_nonneg (n : nat) (g : RNG) :
  0 <= rng_current g < 2 ^ 32 -> 0 <= rng_current (Rng.after n g) < 2 ^ 32.
Proof.
  revert g. induction n as [|n IH]; intros g H; [exact H|].
  simpl. apply IH. simpl. apply advance_nonneg. lia.
Qed.

Lemma after_S (n : nat) (g : RNG) :
  Rng.after (S n) g = snd (Rng.next (Rng.after n g)).
Proof.
  revert g. induction n as [|n IH]; intros g; [reflexivity|].
  change (Rng.after (S (S n)) g) with (Rng.after (S n) (snd (Rng.next g))).
  rewrite IH. reflexivity.
Qed.

Lemma draw_range (g : RNG) :
  0 <= rng_current g -> (0 <= fst (Rng.next g) < 1)%Q.
Proof.
  intros H. pose proof (advance_nonneg (rng_current g) H) as Hb.
  unfold Rng.next. simpl. unfold Qle, Qlt. simpl. lia.
Qed.

Lemma draws_range (n : nat) (g : RNG) :
  0 <= rng_current g -> Forall (fun u => (0 <= u < 1)%Q) (Rng.draws n g).
Proof.
  revert g. induction n as [|n IH]; intros g H; simpl; constructor.
  - apply (draw_range g H).
  - apply IH. simpl. apply advance_nonneg. exact H.
Qed.

(** The draws of a generator depend on its [current] value only. *)
Lemma draws_current (n : nat) (g h : RNG) :
  rng_current g = rng_current h -> Rng.draws n g = Rng.draws n h.
Proof.
  revert g h. induction n as [|n IH]; intros g h H; [reflexivity|].
  simpl. rewrite H. f_equal. apply IH. reflexivity.
Qed.

(** The contract of the generator on the seeds that are generator states,
    [0 <= seed < 2^32]: draws lie in [0,1); a generator that is reset, however
    far it has run, repeats the draws of a new generator of its seed; each
    step is the exact recurrence modulo 2^32; [reset] restores the seed. *)
Theorem RNG_contract (seed : Z) (n : nat) :
  0 <= seed < 2 ^ 32 ->
  Forall (fun u => (0 <= u < 1)%Q) (Rng.draws n (Rng.new seed))
  /\ (forall k, Rng.draws n (Rng.reset (Rng.after k (Rng.new seed)))
                = Rng.draws n (Rng.new seed))
  /\ (forall k, rng_current (Rng.after (S k) (Rng.new seed))
                = (1664525 * rng_current (Rng.after k (Rng.new seed)) + 1013904223)
                  mod 2 ^ 32)
  /\ (forall k, fst (Rng.next (Rng.after k (Rng.new seed)))
                = rng_current (Rng.after (S k) (Rng.new seed)) # 4294967296)
  /\ (forall k, Rng.reset (Rng.after k (Rng.new seed)) = Rng.new seed).
Proof.
  intros Hseed. repeat split.
  - apply draws_range. simpl. lia.
  - intros k. apply draws_current. simpl. apply after_seed.
  - intros k. rewrite after_S. simpl.
    apply advance_exact. apply after_nonneg. exact Hseed.
  - intros k. rewrite after_S. reflexivity.
  - intros k. unfold Rng.reset, Rng.new. rewrite after_seed. reflexivity.
Qed.

(** C4, at a negative seed.  [new RNG(-1000).next()] is
    [-650620777 / 2^32], about -0.1515: the remainder [%] keeps the sign of the
    dividend, so the draw is below 0 and outside [0,1). *)
Theorem RNG_negative_seed_draw :
  fst (Rng.next (Rng.new (-1000))) = (-650620777 # 4294967296)
  /\ (fst (Rng.next (Rng.new (-1000))) < 0)%Q
  /\ rng_current (snd (Rng.next (Rng.new (-1000)))) = -650620777.
Proof.
  repeat split.
Qed.

(** A draw outside the exact range of doubles: for the seed 2^40 + 1 the
    product [a * current] is rounded before the remainder is taken, and the
    state differs from the exact recurrence. *)
Lemma RNG_large_seed_inexact :
  rng_current (snd (Rng.next (Rng.new (2 ^ 40 + 1))))
  <> (1664525 * (2 ^ 40 + 1) + 1013904223) mod 2 ^ 32.
Proof.
  vm_compute. discriminate.
Qed.

(** ** Arrays and loops *)

Lemma index_in_range {A : Type} (arr : list A) (i : Z) :
  0 <= i < Z.of_nat (length arr) -> exists x, JS.index arr i = Some x /\ In x arr.
Proof.
  intros H. unfold JS.index.
  destruct (Z.ltb_spec i 0); [lia|].
  destruct (nth_error arr (Z.to_nat i)) as [x|] eqn:E.
  - exists x. split; [reflexivity|]. eapply nth_error_In; eassumption.
  - apply nth_error_None in E. lia.
Qed.

Lemma index_of_nat {A : Type} (arr : list A) (n : nat) :
  JS.index arr (Z.of_nat n) = nth_error arr n.
Proof.
  unfold JS.index. destruct (Z.ltb_spec (Z.of_nat n) 0); [lia|].
  rewrite Nat2Z.id. reflexivity.
Qed.

Lemma range_nil (lo hi : Z) : hi <= lo -> JS.range lo hi = [].
Proof.
  intros H. unfold JS.range.
  replace (Z.to_nat (hi - lo)) with 0%nat by lia. reflexivity.
Qed.

Lemma range_cons (lo hi : Z) : lo < hi -> JS.range lo hi = lo :: JS.range (lo + 1) hi.
Proof.
  intros H. unfold JS.range.
  replace (Z.to_nat (hi - lo)) with (S (Z.to_nat (hi - (lo + 1)))) by lia.
  simpl. f_equal; [lia|].
  rewrite <- seq_shift, map_map. apply map_ext. intros k. lia.
Qed.

Lemma range_length (lo hi : Z) : length (JS.range lo hi) = Z.to_nat (hi - lo).
Proof. unfold JS.range. rewrite length_map, length_seq. reflexivity. Qed.

Lemma range_In (lo hi t : Z) : In t (JS.range lo hi) <-> lo <= t < hi.
Proof.
  unfold JS.range. rewrite in_map_iff. split.
  - intros (k & <- & Hk). apply in_seq in Hk. lia.
  - intros H. exists (Z.to_nat (t - lo)). split; [lia|]. apply in_seq. lia.
Qed.

Lemma range_snoc (lo hi : Z) : lo <= hi -> JS.range lo (hi + 1) = JS.range lo hi ++ [hi].
Proof.
  intros H. unfold JS.range.
  replace (Z.to_nat (hi + 1 - lo)) with (Z.to_nat (hi - lo) + 1)%nat by lia.
  rewrite seq_app, map_app. simpl. do 2 f_equal. lia.
Qed.

Lemma range_split (lo mid hi : Z) :
  lo <= mid <= hi -> JS.range lo hi = JS.range lo mid ++ JS.range mid hi.
Proof.
  intros H. remember (Z.to_nat (mid - lo)) as n eqn:Hn.
  revert lo H Hn. induction n as [|n IH]; intros lo H Hn.
  - replace mid with lo by lia. rewrite (range_nil lo lo) by lia. reflexivity.
  - rewrite (range_cons lo hi), (range_cons lo mid) by lia.
    simpl. f_equal. apply IH; lia.
Qed.

Lemma sum_from (arr : list bool) (s : Z) :
  fold_left (fun sum val => sum + Z.b2z val) arr s = s + Stats._sum arr.
Proof.
  unfold Stats._sum. revert s. induction arr as [|x arr IH]; intros s; simpl; [lia|].
  rewrite (IH (s + Z.b2z x)), (IH (Z.b2z x)). lia.
Qed.

Lemma sum_cons (b : bool) (arr : list bool) :
  Stats._sum (b :: arr) = Z.b2z b + Stats._sum arr.
Proof. unfold Stats._sum at 1. simpl. apply sum_from. Qed.

Lemma sum_nonneg (arr : list bool) : 0 <= Stats._sum arr.
Proof.
  induction arr as [|b arr IH]; [unfold Stats._sum; simpl; lia|].
  rewrite sum_cons. destruct b; unfold Z.b2z; lia.
Qed.

(** ** Policy lookups *)

Lemma getPrice_out_of_range (P : PolicyMatrix) (capacityIndex period : Z) :
  ~ (0 <= capacityIndex < policy_I P /\ 0 <= period < policy_T P) ->
  Policy.getPrice P capacityIndex period = Some 0.
Proof.
  intros H. unfold Policy.getPrice.
  destruct (Z.ltb_spec capacityIndex 0); [reflexivity|].
  destruct (Z.geb_spec capacityIndex (policy_I P)); [reflexivity|].
  destruct (Z.ltb_spec period 0); [reflexivity|].
  destruct (Z.geb_spec period (policy_T P)); [reflexivity|].
  lia.
Qed.

Lemma getPrice_in_range (P : PolicyMatrix) (capacityIndex period : Z) :
  0 <= capacityIndex < policy_I P -> 0 <= period < policy_T P ->
  Policy.getPrice P capacityIndex period = TrialSpec.cell P capacityIndex period.
Proof.
  intros H1 H2. unfold Policy.getPrice, TrialSpec.cell.
  destruct (Z.ltb_spec capacityIndex 0); [lia|].
  destruct (Z.geb_spec capacityIndex (policy_I P)); [lia|].
  destruct (Z.ltb_spec period 0); [lia|].
  destruct (Z.geb_spec period (policy_T P)); [lia|].
  reflexivity.
Qed.

Lemma new_policy_fields (m : list (list Z)) (P : PolicyMatrix) :
  Policy.new m = Ok P ->
  matrix P = m /\ policy_I P = Z.of_nat (length m)
  /\ exists row0 rest, m = row0 :: rest /\ policy_T P = Z.of_nat (length row0).
Proof.
  destruct m as [|row0 rest]; simpl; intros H; [discriminate|].
  injection H as <-. simpl. repeat split. eauto.
Qed.

(** A cell of a rectangular matrix, read in range, is a number of the grid. *)
Lemma cell_defined (P : PolicyMatrix) (row col : Z) :
  Policy.rectangular P ->
  0 <= row < Z.of_nat (length (matrix P)) -> 0 <= col < policy_T P ->
  exists r v, In r (matrix P) /\ In v r /\ TrialSpec.cell P row col = Some v.
Proof.
  intros Hrect Hrow Hcol. unfold TrialSpec.cell.
  destruct (index_in_range (matrix P) row Hrow) as (r & -> & Hr).
  unfold Policy.rectangular in Hrect. rewrite Forall_forall in Hrect.
  specialize (Hrect r Hr).
  destruct (index_in_range r col) as (v & Hv & Hin); [lia|].
  exists r, v. auto.
Qed.

(** C10, as amended.  On every policy object the constructor returns:
    outside [0, I) x [0, T) the lookup is 0; inside, it is the cell of the
    grid; and when the rows all have the length of the first one, every
    lookup, at any pair of integers, is a defined number. *)
Theorem getPrice_total_on_rectangular (m : list (list Z)) (P : PolicyMatrix)
    (capacityIndex period : Z) :
  Policy.new m = Ok P ->
  (~ (0 <= capacityIndex < policy_I P /\ 0 <= period < policy_T P) ->
   Policy.getPrice P capacityIndex period = Some 0)
  /\ (0 <= capacityIndex < policy_I P -> 0 <= period < policy_T P ->
      Policy.getPrice P capacityIndex period = TrialSpec.cell P capacityIndex period)
  /\ (Policy.rectangular P ->
      exists v, Policy.getPrice P capacityIndex period = Some v).
Proof.
  intros Hnew. split; [apply getPrice_out_of_range|].
  split; [apply getPrice_in_range|].
  intros Hrect.
  destruct (new_policy_fields m P Hnew) as (Hm & HI & _).
  destruct (Z.ltb_spec capacityIndex 0);
    [exists 0; apply getPrice_out_of_range; lia|].
  destruct (Z.ltb_spec capacityIndex (policy_I P));
    [|exists 0; apply getPrice_out_of_range; lia].
  destruct (Z.ltb_spec period 0);
    [exists 0; apply getPrice_out_of_range; lia|].
  destruct (Z.ltb_spec period (policy_T P));
    [|exists 0; apply getPrice_out_of_range; lia].
  rewrite getPrice_in_range by lia.
  destruct (cell_defined P capacityIndex period Hrect) as (r & v & _ & _ & Hv).
  - rewrite Hm. lia.
  - lia.
  - exists v. exact Hv.
Qed.

Lemma getPrice_total_on_rectangular_witness :
  exists P, Policy.new [[30000; 40000]; [50000; 30000]] = Ok P
  /\ Policy.getPrice P 5 0 = Some 0
  /\ Policy.getPrice P 1 0 = TrialSpec.cell P 1 0
  /\ exists v, Policy.getPrice P 1 1 = Some v.
Proof.
  eexists. split; [reflexivity|].
  destruct (getPrice_total_on_rectangular [[30000; 40000]; [50000; 30000]] _ 5 0
              eq_refl) as (Hout & _ & _).
  destruct (getPrice_total_on_rectangular [[30000; 40000]; [50000; 30000]] _ 1 0
              eq_refl) as (_ & Hin & _).
  destruct (getPrice_total_on_rectangular [[30000; 40000]; [50000; 30000]] _ 1 1
              eq_refl) as (_ & _ & Hdef).
  split; [apply Hout; simpl; lia|].
  split; [apply Hin; simpl; lia|].
  apply Hdef. repeat constructor.
Defined.

(** C10, as stated, fails on a matrix whose second row is shorter than the
    first: the lookup (1, 1) is within [0, I) x [0, T) = [0, 2) x [0, 2) and
    reads past the end of the row, which is [undefined]. *)
Lemma getPrice_undefined_on_ragged :
  exists P, Policy.new [[30000; 30000]; [30000]] = Ok P
  /\ policy_I P = 2 /\ policy_T P = 2
  /\ Policy.getPrice P 1 1 = None.
Proof.
  eexists. repeat split.
Qed.

(** ** One trial against the state machine of the specification *)

Lemma add_price_zero (r : option Z) : add_price r (Some 0) = r.
Proof. destruct r as [x|]; simpl; [rewrite Z.add_0_r|]; reflexivity. Qed.

Lemma trial_period_step (P : PolicyMatrix) (t : Z) (st : SimulationState) (g : RNG) :
  0 <= capacity st <= policy_I P -> 0 <= t < policy_T P ->
  Engine.trial_period P t (st, g)
  = (push_record st (fst (TrialSpec.step P t (capacity st) g)),
     snd (TrialSpec.step P t (capacity st) g)).
Proof.
  intros Hc Ht. unfold Engine.trial_period, TrialSpec.step, push_record.
  destruct (Z.leb_spec (capacity st) 0) as [Hle|Hgt].
  - replace (capacity st) with 0 by lia. simpl.
    rewrite add_price_zero, Z.add_0_r. reflexivity.
  - destruct (Z.eqb_spec (capacity st) 0) as [|_]; [lia|].
    rewrite getPrice_in_range by lia.
    destruct (Rng.next g) as [u g'].
    match goal with |- context [JS.Qltb ?x ?y] => destruct (JS.Qltb x y) end; simpl.
    + reflexivity.
    + rewrite add_price_zero, Z.add_0_r. reflexivity.
Qed.

Lemma step_chain (P : PolicyMatrix) (t c : Z) (g : RNG) :
  let r := fst (TrialSpec.step P t c g) in
  (TrialSpec.sold r = true ->
   c <> 0 /\ TrialSpec.remaining r = c - 1 /\ TrialSpec.revenue r = TrialSpec.price r)
  /\ (TrialSpec.sold r = false ->
      TrialSpec.remaining r = c /\ TrialSpec.revenue r = Some 0)
  /\ (c = 0 -> TrialSpec.price r = Some 0 /\ TrialSpec.sold r = false)
  /\ (c <> 0 -> TrialSpec.price r = TrialSpec.cell P (c - 1) t).
Proof.
  unfold TrialSpec.step.
  destruct (Z.eqb_spec c 0) as [->|Hc]; simpl.
  - repeat split; try discriminate; try reflexivity. intros H; contradiction.
  - destruct (Rng.next g) as [u g']. match goal with |- context [JS.Qltb ?x ?y] => destruct (JS.Qltb x y) end; simpl;
      repeat split; try discriminate; try reflexivity; try assumption;
      intros; contradiction.
Qed.

Lemma step_remaining (P : PolicyMatrix) (t c : Z) (g : RNG) :
  0 <= c -> 0 <= TrialSpec.remaining (fst (TrialSpec.step P t c g)) <= c.
Proof.
  intros Hc. destruct (step_chain P t c g) as (Hs & Hn & _).
  destruct (TrialSpec.sold (fst (TrialSpec.step P t c g))).
  - destruct (Hs eq_refl) as (? & -> & _). lia.
  - destruct (Hn eq_refl) as (-> & _). lia.
Qed.

(** Draws are consumed exactly in the periods entered with capacity. *)
Lemma step_generator (P : PolicyMatrix) (t c : Z) (g : RNG) :
  snd (TrialSpec.step P t c g) = Rng.after (TrialSpec.draws_in c) g.
Proof.
  unfold TrialSpec.step, TrialSpec.draws_in.
  destruct (Z.eqb_spec c 0); [reflexivity|].
  simpl. destruct (Rng.next g) as [u g'] eqn:E.
  replace g' with (snd (Rng.next g)) by (rewrite E; reflexivity).
  match goal with |- context [JS.Qltb ?x ?y] => destruct (JS.Qltb x y) end; reflexivity.
Qed.

Lemma run_cons (P : PolicyMatrix) (t : Z) (ts : list Z) (c : Z) (g : RNG) :
  TrialSpec.run P (t :: ts) c g
  = let r := fst (TrialSpec.step P t c g) in
    let tail := TrialSpec.run P ts (TrialSpec.remaining r) (snd (TrialSpec.step P t c g)) in
    (r :: fst (fst tail), snd (fst tail), snd tail).
Proof.
  simpl. destruct (TrialSpec.step P t c g) as [r g']. simpl.
  destruct (TrialSpec.run P ts (TrialSpec.remaining r) g') as [[rs c'] g''].
  reflexivity.
Qed.

Lemma run_length (P : PolicyMatrix) (ts : list Z) (c : Z) (g : RNG) :
  length (fst (fst (TrialSpec.run P ts c g))) = length ts.
Proof.
  revert c g. induction ts as [|t ts IH]; intros c g; [reflexivity|].
  rewrite run_cons. simpl. f_equal. apply IH.
Qed.

Lemma run_chain (good : option Z -> Prop) (P : PolicyMatrix) (ts : list Z) (c : Z)
    (g : RNG) :
  0 <= c ->
  (forall c' t, 0 < c' <= c -> In t ts -> good (TrialSpec.cell P (c' - 1) t)) ->
  TrialSpec.chain good c (fst (fst (TrialSpec.run P ts c g)))
  /\ 0 <= snd (fst (TrialSpec.run P ts c g)) <= c
  /\ snd (fst (TrialSpec.run P ts c g))
     = c - Stats._sum (map TrialSpec.sold (fst (fst (TrialSpec.run P ts c g)))).
Proof.
  revert c g. induction ts as [|t ts IH]; intros c g Hc Hgood.
  - simpl. split; [constructor|]. unfold Stats._sum. simpl. lia.
  - rewrite run_cons. cbn [fst snd].
    pose proof (step_chain P t c g) as (Hs & Hn & Hz & Hp).
    pose proof (step_remaining P t c g Hc) as Hr.
    set (r := fst (TrialSpec.step P t c g)) in *.
    destruct (IH (TrialSpec.remaining r) (snd (TrialSpec.step P t c g)))
      as (Hch & Hb & Heq); [lia| |].
    { intros c' t' Hc' Ht'. apply Hgood; [lia|right; exact Ht']. }
    split; [|split].
    + constructor; auto.
      * intros Hsold. destruct (Hs Hsold) as (? & ? & ?). repeat split; auto; lia.
      * intros Hne. rewrite (Hp Hne). apply Hgood; [lia|left; reflexivity].
    + lia.
    + rewrite Heq. cbn [map]. rewrite sum_cons.
      destruct (TrialSpec.sold r) eqn:E.
      * destruct (Hs eq_refl) as (_ & -> & _). unfold Z.b2z. lia.
      * destruct (Hn eq_refl) as (-> & _). unfold Z.b2z. lia.
Qed.

Lemma trial_fold_run (P : PolicyMatrix) (ts : list Z) (st : SimulationState) (g : RNG) :
  (forall t, In t ts -> 0 <= t < policy_T P) ->
  0 <= capacity st <= policy_I P ->
  fold_left (fun sg t => Engine.trial_period P t sg) ts (st, g)
  = (push_records st (fst (fst (TrialSpec.run P ts (capacity st) g)))
       (snd (fst (TrialSpec.run P ts (capacity st) g))),
     snd (TrialSpec.run P ts (capacity st) g)).
Proof.
  revert st g. induction ts as [|t ts IH]; intros st g Hts Hc.
  - simpl. unfold push_records. simpl. rewrite !app_nil_r.
    unfold Stats._sum. simpl. rewrite Z.add_0_r. destruct st; reflexivity.
  - cbn [fold_left]. rewrite trial_period_step by (auto using in_eq).
    pose proof (step_remaining P t (capacity st) g (proj1 Hc)) as Hr.
    rewrite IH; [|intros; apply Hts; right; assumption|simpl; lia].
    rewrite run_cons. cbn [fst snd push_record capacity].
    unfold push_records. cbn [map fold_left revenue salesCount priceHistory
                               salesHistory revenueHistory push_record].
    rewrite sum_cons, <- !app_assoc. cbn [app].
    f_equal. f_equal. lia.
Qed.

Lemma Qltb_spec (a b : Q) : JS.Qltb a b = true <-> (a < b)%Q.
Proof. unfold JS.Qltb, Qlt. apply Z.ltb_lt. Qed.

(** Against a draw [k / 2^32], the doubles [0.90], [0.80] and [0.40] decide as
    the decimals 9/10, 8/10 and 4/10 do. *)
Lemma sale_probability_decimal (k : Z) :
  JS.Qltb (k # 4294967296) CONFIG.P_LOW = JS.Qltb (k # 4294967296) (9 # 10)
  /\ JS.Qltb (k # 4294967296) CONFIG.P_MED = JS.Qltb (k # 4294967296) (8 # 10)
  /\ JS.Qltb (k # 4294967296) CONFIG.P_HIGH = JS.Qltb (k # 4294967296) (4 # 10).
Proof.
  unfold JS.Qltb, CONFIG.P_LOW, CONFIG.P_MED, CONFIG.P_HIGH. simpl.
  repeat split;
    match goal with |- (?a <? ?b) = (?c <? ?d) =>
      destruct (Z.ltb_spec a b); destruct (Z.ltb_spec c d); try reflexivity; lia
    end.
Qed.

Lemma single_trial_run (cfg : Config) (P : PolicyMatrix) (trialId : Z) (g : RNG) :
  0 <= cfg_I cfg -> policy_I P = cfg_I cfg -> policy_T P = cfg_T cfg ->
  Engine._runSingleTrial cfg P trialId g
  = (push_records (new_state (cfg_I cfg))
       (fst (fst (TrialSpec.run P (JS.range 0 (cfg_T cfg)) (cfg_I cfg) g)))
       (snd (fst (TrialSpec.run P (JS.range 0 (cfg_T cfg)) (cfg_I cfg) g))),
     snd (TrialSpec.run P (JS.range 0 (cfg_T cfg)) (cfg_I cfg) g)).
Proof.
  intros HI HPI HPT. unfold Engine._runSingleTrial.
  rewrite trial_fold_run; [reflexivity| |simpl; lia].
  intros t Ht. apply range_In in Ht. lia.
Qed.

(** C2.  Under the dimension guard of [runSimulation], the loop of
    [_runSingleTrial] is the state machine of the specification: its three
    histories are the prices, sale flags and revenues of the records
    [TrialSpec.run] produces from capacity [I] over the periods 0..T-1, in
    order; it ends with the same capacity and the same generator (so it draws
    exactly when [TrialSpec.step] does: never at capacity 0, once otherwise);
    its revenue and sales count are the sums over the records; and there are
    exactly [T] records. *)
Theorem single_trial_follows_spec (cfg : Config) (P : PolicyMatrix) (trialId : Z)
    (g : RNG) :
  0 <= cfg_I cfg -> 0 <= cfg_T cfg ->
  policy_I P = cfg_I cfg -> policy_T P = cfg_T cfg ->
  let spec := TrialSpec.run P (JS.range 0 (cfg_T cfg)) (cfg_I cfg) g in
  let records := fst (fst spec) in
  let state := fst (Engine._runSingleTrial cfg P trialId g) in
  priceHistory state = map TrialSpec.price records
  /\ salesHistory state = map TrialSpec.sold records
  /\ revenueHistory state = map TrialSpec.revenue records
  /\ capacity state = snd (fst spec)
  /\ snd (Engine._runSingleTrial cfg P trialId g) = snd spec
  /\ revenue state = fold_left add_price (map TrialSpec.revenue records) (Some 0)
  /\ salesCount state = Stats._sum (map TrialSpec.sold records)
  /\ Z.of_nat (length records) = cfg_T cfg
  /\ TrialSpec.chain (fun _ => True) (cfg_I cfg) records.
Proof.
  intros HI HT HPI HPT spec records state.
  unfold state. rewrite single_trial_run by assumption.
  cbn [fst snd push_records new_state capacity revenue salesCount
       priceHistory salesHistory revenueHistory app].
  repeat split.
  - unfold records, spec. rewrite run_length, range_length. lia.
  - apply run_chain; auto.
Qed.

Lemma single_trial_follows_spec_witness :
  let cfg := mkConfig 7 15 (100 # 1) 42 3 in
  let P := mkPolicy (repeat (repeat 30000 15%nat) 7%nat) 7 15 in
  let records :=
    fst (fst (TrialSpec.run P (JS.range 0 15) 7 (Rng.new 42))) in
  let state := fst (Engine._runSingleTrial cfg P 0 (Rng.new 42)) in
  priceHistory state = map TrialSpec.price records
  /\ salesHistory state = map TrialSpec.sold records
  /\ Z.of_nat (length records) = 15.
Proof.
  intros cfg P records state.
  destruct (single_trial_follows_spec cfg P 0 (Rng.new 42))
    as (Hp & Hs & _ & _ & _ & _ & _ & Hl & _);
    [simpl; lia | simpl; lia | reflexivity | reflexivity |].
  repeat split; assumption.
Defined.

(** ** The loop over the trials *)

Lemma after_add (a b : nat) (g : RNG) :
  Rng.after (a + b) g = Rng.after b (Rng.after a g).
Proof.
  revert g. induction a as [|a IH]; intros g; [reflexivity|].
  simpl. apply IH.
Qed.

Lemma run_generator (P : PolicyMatrix) (ts : list Z) (c : Z) (g : RNG) :
  snd (TrialSpec.run P ts c g)
  = Rng.after (TrialSpec.consumed c (fst (fst (TrialSpec.run P ts c g)))) g.
Proof.
  revert c g. induction ts as [|t ts IH]; intros c g; [reflexivity|].
  rewrite run_cons. cbn [fst snd TrialSpec.consumed].
  rewrite IH, step_generator, after_add. reflexivity.
Qed.

Lemma consumed_le (c : Z) (rs : list TrialSpec.PeriodRecord) :
  (TrialSpec.consumed c rs <= length rs)%nat.
Proof.
  revert c. induction rs as [|r rs IH]; intros c; simpl; [lia|].
  specialize (IH (TrialSpec.remaining r)).
  unfold TrialSpec.draws_in. destruct (c =? 0); lia.
Qed.

Lemma trials_loop_app (cfg : Config) (P : PolicyMatrix) (ids1 ids2 : list Z)
    (acc : list SimulationState * RNG) :
  Engine.trials_loop cfg P (ids1 ++ ids2) acc
  = Engine.trials_loop cfg P ids2 (Engine.trials_loop cfg P ids1 acc).
Proof. unfold Engine.trials_loop. apply fold_left_app. Qed.

Lemma trials_loop_cons (cfg : Config) (P : PolicyMatrix) (i : Z) (ids : list Z)
    (done : list SimulationState) (g : RNG) :
  Engine.trials_loop cfg P (i :: ids) (done, g)
  = Engine.trials_loop cfg P ids
      (done ++ [fst (Engine._runSingleTrial cfg P i g)],
       snd (Engine._runSingleTrial cfg P i g)).
Proof.
  unfold Engine.trials_loop. simpl.
  destruct (Engine._runSingleTrial cfg P i g). reflexivity.
Qed.

(** The states already pushed stay in front; the rest does not depend on
    them. *)
Lemma trials_loop_acc (cfg : Config) (P : PolicyMatrix) (ids : list Z)
    (done : list SimulationState) (g : RNG) :
  Engine.trials_loop cfg P ids (done, g)
  = (done ++ fst (Engine.trials_loop cfg P ids ([], g)),
     snd (Engine.trials_loop cfg P ids ([], g))).
Proof.
  revert done g. induction ids as [|i ids IH]; intros done g.
  - simpl. rewrite app_nil_r. reflexivity.
  - rewrite !trials_loop_cons. rewrite IH. rewrite (IH ([] ++ _)).
    cbn [fst snd app]. rewrite <- app_assoc. reflexivity.
Qed.

Lemma trials_loop_length (cfg : Config) (P : PolicyMatrix) (ids : list Z) (g : RNG) :
  length (fst (Engine.trials_loop cfg P ids ([], g))) = length ids.
Proof.
  revert g. induction ids as [|i ids IH]; intros g; [reflexivity|].
  rewrite trials_loop_cons, trials_loop_acc. cbn [fst app length].
  rewrite IH. reflexivity.
Qed.

(** Every pushed state is the state of one call of [_runSingleTrial]. *)
Lemma trials_loop_In (cfg : Config) (P : PolicyMatrix) (ids : list Z) (g : RNG)
    (st : SimulationState) :
  In st (fst (Engine.trials_loop cfg P ids ([], g))) ->
  exists i h, st = fst (Engine._runSingleTrial cfg P i h).
Proof.
  revert g. induction ids as [|i ids IH]; intros g; [simpl; tauto|].
  rewrite trials_loop_cons, trials_loop_acc. cbn [fst app].
  intros [<-|H]; [eauto|]. eapply IH. exact H.
Qed.

Lemma trial_period_seed (P : PolicyMatrix) (t : Z) (sg : SimulationState * RNG) :
  rng_seed (snd (Engine.trial_period P t sg)) = rng_seed (snd sg).
Proof.
  destruct sg as [st g]. unfold Engine.trial_period.
  destruct (capacity st <=? 0); [reflexivity|].
  simpl. match goal with |- context [JS.Qltb ?x ?y] => destruct (JS.Qltb x y) end;
    reflexivity.
Qed.

Lemma single_trial_seed (cfg : Config) (P : PolicyMatrix) (i : Z) (g : RNG) :
  rng_seed (snd (Engine._runSingleTrial cfg P i g)) = rng_seed g.
Proof.
  unfold Engine._runSingleTrial.
  generalize (new_state (cfg_I cfg)). generalize (JS.range 0 (cfg_T cfg)).
  intros ts. revert g. induction ts as [|t ts IH]; intros g st; [reflexivity|].
  cbn [fold_left].
  destruct (Engine.trial_period P t (st, g)) as [st' g'] eqn:E.
  rewrite IH. change g' with (snd (st', g')). rewrite <- E.
  apply trial_period_seed.
Qed.

Lemma trials_loop_seed (cfg : Config) (P : PolicyMatrix) (ids : list Z) (g : RNG) :
  rng_seed (snd (Engine.trials_loop cfg P ids ([], g))) = rng_seed g.
Proof.
  revert g. induction ids as [|i ids IH]; intros g; [reflexivity|].
  rewrite trials_loop_cons, trials_loop_acc. cbn [snd].
  rewrite IH. apply single_trial_seed.
Qed.

(** ** Determinism of a run *)

Section Determinism.
Context {F : Float64}.

(** What [runSimulation] returns depends on the engine through its
    configuration and the seed of its generator only. *)
Lemma runSimulation_depends (e1 e2 : SimulationEngine) (P : PolicyMatrix) :
  config e1 = config e2 -> rng_seed (rng e1) = rng_seed (rng e2) ->
  fst (Stats.runSimulation e1 P) = fst (Stats.runSimulation e2 P).
Proof.
  intros Hc Hs. unfold Stats.runSimulation. rewrite Hc.
  assert (Hr : Rng.reset (rng e1) = Rng.reset (rng e2)).
  { unfold Rng.reset. rewrite Hs. reflexivity. }
  rewrite Hr.
  destruct (negb _ || negb _); [reflexivity|].
  destruct (Engine.run_trials (config e2) P (Rng.reset (rng e2))) as [rs g1].
  destruct rs; reflexivity.
Qed.

Lemma runSimulation_engine (e : SimulationEngine) (P : PolicyMatrix) :
  config (snd (Stats.runSimulation e P)) = config e
  /\ rng_seed (rng (snd (Stats.runSimulation e P))) = rng_seed (rng e).
Proof.
  unfold Stats.runSimulation.
  destruct (negb _ || negb _); [split; reflexivity|].
  destruct (Engine.run_trials (config e) P (Rng.reset (rng e))) as [rs g1] eqn:E.
  assert (Hs : rng_seed g1 = rng_seed (rng e)).
  { change g1 with (snd (rs, g1)). rewrite <- E. unfold Engine.run_trials.
    rewrite trials_loop_seed. reflexivity. }
  destruct rs; split; simpl; auto.
Qed.

(** C1.  The results of [runSimulation] (aggregates, sample trial and
    histograms, or the thrown error) are the same
    (1) wherever the engine's generator stands when the call is made, and
    (2) on a second call on the same engine, after the first call has advanced
        the generator;
    and (3) the trial-by-trial states behind them are the same as well.
    Two engines built from one configuration object are equal, so (2) covers
    calls on separate engines too. *)
Theorem runSimulation_deterministic (e : SimulationEngine) (P : PolicyMatrix) :
  (forall current,
     fst (Stats.runSimulation
            (mkEngine (config e) (mkRNG (rng_seed (rng e)) current)) P)
     = fst (Stats.runSimulation e P))
  /\ fst (Stats.runSimulation (snd (Stats.runSimulation e P)) P)
     = fst (Stats.runSimulation e P)
  /\ (forall current,
        fst (Engine.run_trials (config e) P
               (Rng.reset (mkRNG (rng_seed (rng e)) current)))
        = fst (Engine.run_trials (config e) P (Rng.reset (rng e)))).
Proof.
  split; [|split].
  - intros current. apply runSimulation_depends; reflexivity.
  - destruct (runSimulation_engine e P) as (Hc & Hs).
    apply runSimulation_depends; assumption.
  - intros current. reflexivity.
Qed.

End Determinism.

(** ** Where each trial's draws come from *)

Lemma generator_at_0 (cfg : Config) (P : PolicyMatrix) (g : RNG) :
  Engine.generator_at cfg P g 0 = g.
Proof. reflexivity. Qed.

Lemma generator_at_succ (cfg : Config) (P : PolicyMatrix) (g : RNG) (i : Z) :
  0 <= i ->
  Engine.generator_at cfg P g (i + 1)
  = snd (Engine._runSingleTrial cfg P i (Engine.generator_at cfg P g i)).
Proof.
  intros Hi. unfold Engine.generator_at.
  rewrite range_snoc by lia. rewrite trials_loop_app.
  destruct (Engine.trials_loop cfg P (JS.range 0 i) ([], g)) as [done h].
  rewrite trials_loop_cons. reflexivity.
Qed.

Lemma run_trials_nth (cfg : Config) (P : PolicyMatrix) (g : RNG) (i : Z) :
  0 <= i < Engine.trial_count cfg ->
  nth_error (fst (Engine.run_trials cfg P g)) (Z.to_nat i)
  = Some (fst (Engine._runSingleTrial cfg P i (Engine.generator_at cfg P g i))).
Proof.
  intros Hi. unfold Engine.run_trials, Engine.generator_at.
  rewrite (range_split 0 i (Engine.trial_count cfg)) by lia.
  rewrite trials_loop_app.
  pose proof (trials_loop_length cfg P (JS.range 0 i) g) as Hlen.
  destruct (Engine.trials_loop cfg P (JS.range 0 i) ([], g)) as [done h].
  cbn [fst snd] in *.
  rewrite (range_cons i) by lia. rewrite trials_loop_cons, trials_loop_acc.
  cbn [fst]. rewrite <- app_assoc. rewrite nth_error_app2; rewrite Hlen, range_length.
  - replace (Z.to_nat i - Z.to_nat (i - 0))%nat with 0%nat by lia. reflexivity.
  - lia.
Qed.

Lemma generator_at_position (cfg : Config) (P : PolicyMatrix) (g : RNG) (n : nat) :
  0 <= cfg_I cfg -> policy_I P = cfg_I cfg -> policy_T P = cfg_T cfg ->
  exists k, Engine.generator_at cfg P g (Z.of_nat n) = Rng.after k g
            /\ (k <= n * Z.to_nat (cfg_T cfg))%nat.
Proof.
  intros HI HPI HPT. induction n as [|n (k & Hk & Hle)].
  - exists 0%nat. split; [reflexivity|lia].
  - replace (Z.of_nat (S n)) with (Z.of_nat n + 1) by lia.
    rewrite generator_at_succ by lia. rewrite Hk.
    rewrite single_trial_run by assumption. cbn [snd].
    rewrite run_generator. rewrite <- after_add.
    eexists. split; [reflexivity|].
    match goal with |- (k + TrialSpec.consumed ?c ?rs <= _)%nat =>
      pose proof (consumed_le c rs) as Hc end.
    rewrite run_length, range_length in Hc. lia.
Qed.

(** C3, as amended.  In a run whose generator was reset to [g], trial 0 starts
    from [g]; trial [i+1] starts from the generator trial [i] leaves behind;
    the state recorded for trial [i] is the one [_runSingleTrial] computes
    from that generator; and that generator is [g] advanced by the draws of
    the trials before [i], at most [T] each.  A single trial advances the
    generator by one draw per period entered with capacity left. *)
Theorem trials_share_one_stream (cfg : Config) (P : PolicyMatrix) (g : RNG) :
  0 <= cfg_I cfg -> policy_I P = cfg_I cfg -> policy_T P = cfg_T cfg ->
  Engine.generator_at cfg P g 0 = g
  /\ (forall i, 0 <= i ->
        Engine.generator_at cfg P g (i + 1)
        = snd (Engine._runSingleTrial cfg P i (Engine.generator_at cfg P g i)))
  /\ (forall i, 0 <= i < Engine.trial_count cfg ->
        nth_error (fst (Engine.run_trials cfg P g)) (Z.to_nat i)
        = Some (fst (Engine._runSingleTrial cfg P i (Engine.generator_at cfg P g i))))
  /\ (forall n : nat,
        exists k, Engine.generator_at cfg P g (Z.of_nat n) = Rng.after k g
                  /\ (k <= n * Z.to_nat (cfg_T cfg))%nat)
  /\ (forall i h,
        snd (Engine._runSingleTrial cfg P i h)
        = Rng.after
            (TrialSpec.consumed (cfg_I cfg)
               (fst (fst (TrialSpec.run P (JS.range 0 (cfg_T cfg)) (cfg_I cfg) h))))
            h).
Proof.
  intros HI HPI HPT. repeat split.
  - intros i Hi. apply generator_at_succ. exact Hi.
  - intros i Hi. apply run_trials_nth. exact Hi.
  - intros n. apply generator_at_position; assumption.
  - intros i h. rewrite single_trial_run by assumption. cbn [snd].
    apply run_generator.
Qed.

Lemma trials_share_one_stream_witness :
  let cfg := mkConfig 7 15 (100 # 1) 42 3 in
  let P := mkPolicy (repeat (repeat 30000 15%nat) 7%nat) 7 15 in
  Engine.generator_at cfg P (Rng.new 42) 0 = Rng.new 42
  /\ Engine.generator_at cfg P (Rng.new 42) (0 + 1)
     = snd (Engine._runSingleTrial cfg P 0 (Engine.generator_at cfg P (Rng.new 42) 0)).
Proof.
  intros cfg P.
  destruct (trials_share_one_stream cfg P (Rng.new 42)) as (H0 & Hs & _);
    [simpl; lia | reflexivity | reflexivity |].
  split; [exact H0|]. apply Hs. lia.
Defined.

(** C3, as stated, fails.  With seed 42, the generator with which trial 1
    starts is not a function of the seed and the index: when every cell is LOW
    trial 0 sells out in 7 periods and leaves the generator 7 draws on, at
    [current = 1921058495]; when every cell is HIGH trial 0 draws in all 15
    periods and leaves it at [current = 2561818183].  In neither case is it a
    generator seeded with [42 + 1]. *)
Lemma trial_stream_depends_on_earlier_trials :
  let cfg := mkConfig 7 15 (100 # 1) 42 3 in
  let P_low := mkPolicy (repeat (repeat 30000 15%nat) 7%nat) 7 15 in
  let P_high := mkPolicy (repeat (repeat 50000 15%nat) 7%nat) 7 15 in
  Engine.generator_at cfg P_low (Rng.new 42) 1 = Rng.after 7 (Rng.new 42)
  /\ Engine.generator_at cfg P_high (Rng.new 42) 1 = Rng.after 15 (Rng.new 42)
  /\ rng_current (Engine.generator_at cfg P_low (Rng.new 42) 1) = 1921058495
  /\ rng_current (Engine.generator_at cfg P_high (Rng.new 42) 1) = 2561818183
  /\ Engine.generator_at cfg P_low (Rng.new 42) 1
     <> Engine.generator_at cfg P_high (Rng.new 42) 1
  /\ Engine.generator_at cfg P_low (Rng.new 42) 1 <> Rng.new (42 + 1)
  /\ Engine.generator_at cfg P_high (Rng.new 42) 1 <> Rng.new (42 + 1).
Proof.
  vm_compute. repeat split; discriminate.
Qed.

(** ** Traces of trials *)

Lemma flat_map_range (A B : Type) (arr : list A) (f : Z -> list B) (h : Z -> A -> B)
    (k : Z) :
  (forall n x, nth_error arr n = Some x -> f (k + Z.of_nat n) = [h (k + Z.of_nat n) x]) ->
  flat_map f (JS.range k (k + Z.of_nat (length arr)))
  = map (fun tx : Z * A => h (fst tx) (snd tx))
      (combine (JS.range k (k + Z.of_nat (length arr))) arr).
Proof.
  revert k. induction arr as [|x arr IH]; intros k H.
  - simpl. rewrite range_nil by lia. reflexivity.
  - rewrite range_cons by (simpl length; lia).
    cbn [flat_map combine map fst snd].
    pose proof (H 0%nat x eq_refl) as H0. rewrite Z.add_0_r in H0. rewrite H0.
    cbn [app]. f_equal.
    replace (k + Z.of_nat (length (x :: arr))) with (k + 1 + Z.of_nat (length arr))
      by (simpl length; lia).
    apply IH. intros n y Hn.
    replace (k + 1 + Z.of_nat n) with (k + Z.of_nat (S n)) by lia.
    apply H. exact Hn.
Qed.

Lemma chain_nth (good : option Z -> Prop) (rs : list TrialSpec.PeriodRecord) :
  forall (c : Z) (n : nat) (r : TrialSpec.PeriodRecord),
  TrialSpec.chain good c rs -> 0 <= c -> nth_error rs n = Some r ->
  TrialSpec.remaining r = c - Stats._sum (firstn (S n) (map TrialSpec.sold rs))
  /\ 0 <= TrialSpec.remaining r <= c.
Proof.
  induction rs as [|r0 rs IH]; intros c n r Hch Hc Hn.
  - destruct n; discriminate.
  - inversion Hch as [|c0 r1 rs1 Hs Hns Hz Hg Hrest]; subst.
    assert (Hr0 : TrialSpec.remaining r0 = c - Z.b2z (TrialSpec.sold r0)
                  /\ 0 <= TrialSpec.remaining r0 <= c).
    { destruct (TrialSpec.sold r0).
      - destruct (Hs eq_refl) as (? & -> & _). unfold Z.b2z. lia.
      - destruct (Hns eq_refl) as (-> & _). unfold Z.b2z. lia. }
    destruct Hr0 as (Heq & Hb).
    destruct n as [|n].
    + injection Hn as <-. cbn [map firstn]. rewrite sum_cons.
      unfold Stats._sum at 1. simpl fold_left. lia.
    + simpl in Hn. destruct (IH _ n r Hrest (proj1 Hb) Hn) as (Heq' & Hb').
      cbn [map]. rewrite firstn_cons, sum_cons. lia.
Qed.

Lemma chain_valid (I : Z) (rs : list TrialSpec.PeriodRecord) :
  forall (c : Z) (ts : list Z),
  TrialSpec.chain (fun p => exists v, p = Some v /\ Policy.canonical v) c rs ->
  0 <= c <= I ->
  Trace.valid I c
    (map (fun tr : Z * TrialSpec.PeriodRecord => step_of (fst tr) (snd tr))
       (combine ts rs)).
Proof.
  induction rs as [|r rs IH]; intros c ts Hch Hc.
  - destruct ts; constructor.
  - destruct ts as [|t ts]; [constructor|].
    inversion Hch as [|c0 r1 rs1 Hs Hns Hz Hg Hrest]; subst.
    assert (Hb : 0 <= TrialSpec.remaining r <= c).
    { destruct (TrialSpec.sold r).
      - destruct (Hs eq_refl) as (? & -> & _). lia.
      - destruct (Hns eq_refl) as (-> & _). lia. }
    cbn [combine map fst snd]. constructor; cbn [step_of Step.remainingCapacity
      Step.sold Step.price].
    + exact Hb.
    + lia.
    + intros Hsold. destruct (Hs Hsold) as (? & ? & _). auto.
    + intros Hsold. destruct (Hns Hsold) as (? & _). auto.
    + destruct (Z.eq_dec c 0) as [Hc0|Hc0].
      * right. destruct (Hz Hc0). auto.
      * left. apply Hg. exact Hc0.
    + apply IH; [exact Hrest|lia].
Qed.

(** The trace [_createSampleTrial] shows of a trial state is the list of its
    records, period by period. *)
Lemma sample_steps (good : option Z -> Prop) (cfg : Config)
    (rs : list TrialSpec.PeriodRecord) (c' : Z) :
  TrialSpec.chain good (cfg_I cfg) rs -> 0 <= cfg_I cfg ->
  Z.of_nat (length rs) = cfg_T cfg ->
  Sample.steps (Stats._createSampleTrial cfg (push_records (new_state (cfg_I cfg)) rs c'))
  = map (fun tr : Z * TrialSpec.PeriodRecord => step_of (fst tr) (snd tr))
      (combine (JS.range 0 (cfg_T cfg)) rs).
Proof.
  intros Hch HI Hlen. unfold Stats._createSampleTrial.
  cbn [Sample.steps push_records new_state priceHistory salesHistory
       revenueHistory app].
  rewrite <- Hlen. change (Z.of_nat (length rs)) with (0 + Z.of_nat (length rs)).
  apply flat_map_range. intros n r Hn. rewrite Z.add_0_l.
  assert (Hlt : (n < length rs)%nat) by (apply nth_error_Some; congruence).
  rewrite length_map.
  destruct (Z.ltb_spec (Z.of_nat n) (Z.of_nat (length rs))); [|lia].
  unfold step_of, index_opt, sold_at. rewrite !index_of_nat.
  rewrite !nth_error_map, Hn. cbn [option_map].
  destruct (chain_nth good rs _ n r Hch HI Hn) as (Heq & Hb).
  replace (Z.to_nat (Z.of_nat n + 1)) with (S n) by lia.
  rewrite <- Heq. rewrite Z.max_r by lia. reflexivity.
Qed.

(** ** The engine's configuration *)

Lemma engine_new_config (input : ConfigInput) (e : SimulationEngine) :
  Engine.new input = Ok e ->
  cfg_I (config e) = CONFIG.I /\ cfg_T (config e) = CONFIG.T
  /\ (0 < cfg_trials (config e))%Q
  /\ cfg_lastMinuteK (config e) <= CONFIG.T
  /\ rng e = Rng.new (cfg_seed (config e))
  /\ 1 <= Engine.trial_count (config e).
Proof.
  unfold Engine.new, Engine._validateConfig. cbn [cfg_I cfg_T cfg_trials cfg_lastMinuteK].
  change ((CONFIG.I <=? 0) || (CONFIG.T <=? 0)) with false. cbv iota.
  destruct (Qle_bool _ 0) eqn:Etrials; [discriminate|].
  destruct (Z.gtb_spec (JS.or_default_Z (in_lastMinuteK input) 3) CONFIG.T) as [|Hk];
    [discriminate|].
  intros H. injection H as <-. cbn [config rng cfg_I cfg_T cfg_trials cfg_seed
                                     cfg_lastMinuteK].
  assert (Hpos : (0 < JS.or_default_Q (in_trials input) CONFIG.DEFAULT_TRIALS)%Q).
  { apply Qnot_le_lt. intros Hle. apply Qle_bool_iff in Hle. congruence. }
  repeat split; auto.
  unfold Engine.trial_count. cbn [cfg_trials].
  pose proof (Qle_ceiling (JS.or_default_Q (in_trials input) CONFIG.DEFAULT_TRIALS)) as Hc.
  pose proof (Qlt_le_trans _ _ _ Hpos Hc) as Hlt.
  change 0%Q with (inject_Z 0) in Hlt. rewrite <- Zlt_Qlt in Hlt. lia.
Qed.

(** ** Averages of counters *)

Section Averages.
Context {F : Float64} {L : Float64Laws F}.

Lemma rnd_proper (x y : Q) : (x == y)%Q -> (rnd x == rnd y)%Q.
Proof.
  intros H. apply Qle_antisym; apply rnd_mono; rewrite H; apply Qle_refl.
Qed.

Lemma fold_fadd_counts (B : Z) (arr : list Z) :
  forall (s : Z) (qs : Q),
  (qs == inject_Z s)%Q -> 0 <= s ->
  (forall x, In x arr -> 0 <= x <= B) ->
  s + B * Z.of_nat (length arr) <= 2 ^ 53 ->
  exists (q : Q) (total : Z),
    fold_left (fun sum val => Stats.fadd sum val) (map Stats.of_Z arr) (Some qs) = Some q
    /\ (q == inject_Z total)%Q
    /\ s <= total <= s + B * Z.of_nat (length arr).
Proof.
  induction arr as [|x arr IH]; intros s qs Hqs Hs Hall Hbound.
  - exists qs, s. simpl. repeat split; auto; lia.
  - assert (Hx : 0 <= x <= B) by (apply Hall; left; reflexivity).
    cbn [map fold_left Stats.fadd Stats.of_Z].
    change (length (x :: arr)) with (S (length arr)) in *.
    rewrite Nat2Z.inj_succ, Z.mul_succ_r in *.
    assert (0 <= B * Z.of_nat (length arr)) by nia.
    destruct (IH (s + x) (rnd (qs + inject_Z x)%Q)) as (q & total & Hq & Heq & Ht).
    + apply Qeq_trans with (rnd (inject_Z (s + x))); [|apply rnd_int; lia].
      apply rnd_proper. rewrite Hqs, inject_Z_plus. reflexivity.
    + lia.
    + intros y Hy. apply Hall. right. exact Hy.
    + lia.
    + exists q, total. repeat split; auto; lia.
Qed.

Lemma mean_of_counts (B : Z) (arr : list Z) :
  arr <> [] -> 0 <= B ->
  (forall x, In x arr -> 0 <= x <= B) ->
  B * Z.of_nat (length arr) <= 2 ^ 53 ->
  exists q, Stats._mean (map Stats.of_Z arr) = Some q /\ (0 <= q <= inject_Z B)%Q.
Proof.
  intros Hne HB Hall Hbound. unfold Stats._mean.
  destruct (fold_fadd_counts B arr 0 0%Q) as (q & total & Hq & Heq & Ht);
    [reflexivity|lia|exact Hall|lia|].
  unfold Stats.of_Z at 2. change (inject_Z 0) with 0%Q. rewrite Hq.
  rewrite length_map. unfold Stats.fdiv, Stats.of_Z.
  assert (Hlen : 0 < Z.of_nat (length arr)) by (destruct arr; [congruence|simpl; lia]).
  assert (Hlenq : (0 < inject_Z (Z.of_nat (length arr)))%Q).
  { change 0%Q with (inject_Z 0). rewrite <- Zlt_Qlt. exact Hlen. }
  destruct (Qeq_bool (inject_Z (Z.of_nat (length arr))) 0) eqn:E.
  { apply Qeq_bool_eq in E. rewrite E in Hlenq. discriminate. }
  eexists. split; [reflexivity|].
  assert (H0 : (0 <= q / inject_Z (Z.of_nat (length arr)))%Q).
  { apply Qle_shift_div_l; [exact Hlenq|]. rewrite Qmult_0_l, Heq.
    change 0%Q with (inject_Z 0). rewrite <- Zle_Qle. lia. }
  assert (H1 : (q / inject_Z (Z.of_nat (length arr)) <= inject_Z B)%Q).
  { apply Qle_shift_div_r; [exact Hlenq|].
    rewrite Heq, <- inject_Z_mult, <- Zle_Qle. lia. }
  split.
  - apply Qle_trans with (rnd (inject_Z 0)); [|apply rnd_mono; exact H0].
    apply Qle_lteq. right. apply Qeq_sym, rnd_int. lia.
  - apply Qle_trans with (rnd (inject_Z B)); [apply rnd_mono; exact H1|].
    apply Qle_lteq. right. apply rnd_int. nia.
Qed.

End Averages.

(** ** Invariants of the traces and the fill rate *)

Lemma canonical_cells (P : PolicyMatrix) (m : list (list Z)) (c t : Z) :
  Policy.new m = Ok P -> Policy.rectangular P -> Policy.all_canonical P ->
  0 < c <= policy_I P -> 0 <= t < policy_T P ->
  exists v, TrialSpec.cell P (c - 1) t = Some v /\ Policy.canonical v.
Proof.
  intros Hnew Hrect Hcan Hc Ht.
  destruct (new_policy_fields m P Hnew) as (Hm & HI & _).
  destruct (cell_defined P (c - 1) t Hrect) as (r & v & Hr & Hv & Hcell);
    [rewrite Hm; lia|lia|].
  exists v. split; [exact Hcell|].
  unfold Policy.all_canonical in Hcan. rewrite Forall_forall in Hcan.
  specialize (Hcan r Hr). rewrite Forall_forall in Hcan. auto.
Qed.

Lemma trial_state_facts (cfg : Config) (P : PolicyMatrix) (m : list (list Z))
    (i : Z) (g : RNG) :
  Policy.new m = Ok P -> Policy.rectangular P -> Policy.all_canonical P ->
  0 <= cfg_I cfg -> 0 <= cfg_T cfg ->
  policy_I P = cfg_I cfg -> policy_T P = cfg_T cfg ->
  let st := fst (Engine._runSingleTrial cfg P i g) in
  let steps := Sample.steps (Stats._createSampleTrial cfg st) in
  Z.of_nat (length steps) = cfg_T cfg
  /\ Trace.valid (cfg_I cfg) (cfg_I cfg) steps
  /\ Z.of_nat (length (priceHistory st)) = cfg_T cfg
  /\ Z.of_nat (length (salesHistory st)) = cfg_T cfg
  /\ Z.of_nat (length (revenueHistory st)) = cfg_T cfg
  /\ 0 <= capacity st <= cfg_I cfg
  /\ capacity st = cfg_I cfg - salesCount st
  /\ 0 <= salesCount st <= cfg_I cfg.
Proof.
  intros Hnew Hrect Hcan HI HT HPI HPT st steps.
  unfold steps, st. rewrite single_trial_run by assumption. cbn [fst].
  set (good := fun p : option Z => exists v, p = Some v /\ Policy.canonical v).
  destruct (run_chain good P (JS.range 0 (cfg_T cfg)) (cfg_I cfg) g HI)
    as (Hch & Hb & Heq).
  { intros c t Hc Ht. apply range_In in Ht.
    destruct (canonical_cells P m c t Hnew Hrect Hcan) as (v & Hv & Hcv); [lia|lia|].
    exists v. auto. }
  pose proof (run_length P (JS.range 0 (cfg_T cfg)) (cfg_I cfg) g) as Hlen.
  rewrite range_length in Hlen.
  set (rs := fst (fst (TrialSpec.run P (JS.range 0 (cfg_T cfg)) (cfg_I cfg) g))) in *.
  set (c' := snd (fst (TrialSpec.run P (JS.range 0 (cfg_T cfg)) (cfg_I cfg) g))) in *.
  assert (Hlen' : Z.of_nat (length rs) = cfg_T cfg) by lia.
  rewrite (sample_steps good cfg rs c' Hch HI Hlen').
  cbn [push_records new_state capacity salesCount priceHistory salesHistory
       revenueHistory app].
  rewrite length_map, length_combine, range_length, !length_map.
  pose proof (sum_nonneg (map TrialSpec.sold rs)).
  repeat split; try lia.
  apply chain_valid; [exact Hch|lia].
Qed.

Section TraceInvariants.
Context {F : Float64} {L : Float64Laws F}.

(** C7.  For an engine the constructor accepted and a policy of the engine's
    dimensions whose rows are full and whose cells are canonical prices, with
    at most 2^32 trials (the length an array can have):
    - every trial of the run has a valid trace of exactly [T] steps from
      capacity [I]: the remaining capacity never increases, stays in [0, I],
      drops by one exactly at a sale, a sale happens only in a period entered
      with capacity, and each price is canonical, or 0 with no capacity;
    - the state of every trial ends with a capacity in [0, I] that is [I]
      minus its sales count;
    - the run returns results, their sample trial is such a trace, and their
      fill rate is a number in [0, 1]. *)
Theorem traces_valid_fill_rate_bounded (input : ConfigInput) (e : SimulationEngine)
    (m : list (list Z)) (P : PolicyMatrix) :
  Engine.new input = Ok e ->
  Policy.new m = Ok P ->
  policy_I P = CONFIG.I -> policy_T P = CONFIG.T ->
  Policy.rectangular P -> Policy.all_canonical P ->
  Engine.trial_count (config e) <= 2 ^ 32 ->
  (forall st,
     In st (fst (Engine.run_trials (config e) P (Rng.reset (rng e)))) ->
     let steps := Sample.steps (Stats._createSampleTrial (config e) st) in
     Z.of_nat (length steps) = CONFIG.T
     /\ Trace.valid CONFIG.I CONFIG.I steps
     /\ Z.of_nat (length (priceHistory st)) = CONFIG.T
     /\ 0 <= capacity st <= CONFIG.I
     /\ capacity st = CONFIG.I - salesCount st)
  /\ exists res q,
       fst (Stats.runSimulation e P) = Ok res
       /\ Z.of_nat (length (Sample.steps (sampleTrial res))) = CONFIG.T
       /\ Trace.valid CONFIG.I CONFIG.I (Sample.steps (sampleTrial res))
       /\ fillRate (aggregates res) = Some q
       /\ (0 <= q <= 1)%Q.
Proof.
  intros Hnew HP HPI HPT Hrect Hcan Hmax.
  destruct (engine_new_config input e Hnew) as (HI & HT & _ & _ & _ & Hcount).
  assert (Hfacts : forall st,
    In st (fst (Engine.run_trials (config e) P (Rng.reset (rng e)))) ->
    let steps := Sample.steps (Stats._createSampleTrial (config e) st) in
    Z.of_nat (length steps) = CONFIG.T
    /\ Trace.valid CONFIG.I CONFIG.I steps
    /\ Z.of_nat (length (priceHistory st)) = CONFIG.T
    /\ 0 <= capacity st <= CONFIG.I
    /\ capacity st = CONFIG.I - salesCount st
    /\ 0 <= salesCount st <= CONFIG.I).
  { intros st Hin. apply trials_loop_In in Hin. destruct Hin as (i & h & ->).
    pose proof (trial_state_facts (config e) P m i h HP Hrect Hcan) as Hf.
    rewrite HI, HT in Hf.
    destruct Hf as (H1 & H2 & H3 & _ & _ & H6 & H7 & H8);
      try assumption; try (unfold CONFIG.I, CONFIG.T; lia).
    repeat split; auto; lia. }
  split.
  { intros st Hin. destruct (Hfacts st Hin) as (H1 & H2 & H3 & H4 & H5 & _).
    repeat split; auto; lia. }
  unfold Stats.runSimulation.
  rewrite HPI, HPT, HI, HT, !Z.eqb_refl. cbn [negb orb].
  pose proof (trials_loop_length (config e) P (JS.range 0 (Engine.trial_count (config e)))
                (Rng.reset (rng e))) as Hlen.
  rewrite range_length in Hlen. fold (Engine.run_trials (config e) P (Rng.reset (rng e))) in Hlen.
  destruct (Engine.run_trials (config e) P (Rng.reset (rng e))) as [rs g1] eqn:E.
  cbn [fst] in *.
  destruct rs as [|first rest]; [simpl in Hlen; lia|].
  destruct (mean_of_counts CONFIG.I (map salesCount (first :: rest)))
    as (qm & Hqm & Hqb).
  { discriminate. }
  { unfold CONFIG.I; lia. }
  { intros x Hx. apply in_map_iff in Hx. destruct Hx as (st & <- & Hst).
    apply Hfacts. exact Hst. }
  { rewrite length_map, Hlen. unfold CONFIG.I. change (2 ^ 53) with (2 ^ 21 * 2 ^ 32).
    lia. }
  rewrite map_map in Hqm.
  eexists. exists (rnd (qm / inject_Z CONFIG.I)). split; [reflexivity|].
  cbn [sampleTrial aggregates].
  destruct (Hfacts first (or_introl eq_refl)) as (H1 & H2 & _).
  split; [exact H1|]. split; [exact H2|].
  split.
  { unfold Stats._calculateAggregates.
    destruct (Stats.last_minute_counts (config e) (first :: rest)) as [lm tot].
    cbn [fillRate]. rewrite HI, Hqm. reflexivity. }
  assert (H7 : (0 < inject_Z CONFIG.I)%Q) by reflexivity.
  split.
  - apply Qle_trans with (rnd (inject_Z 0)).
    + apply Qle_lteq. right. apply Qeq_sym, rnd_int. lia.
    + apply rnd_mono. apply Qle_shift_div_l; [exact H7|].
      rewrite Qmult_0_l. apply Hqb.
  - apply Qle_trans with (rnd (inject_Z 1)).
    + apply rnd_mono. apply Qle_shift_div_r; [exact H7|].
      rewrite Qmult_1_l. apply Hqb.
    + apply Qle_lteq. right. apply rnd_int. lia.
Qed.

End TraceInvariants.

(** ** Validation of a raw grid *)

Lemma enumerate_from_nth {A : Type} (arr : list A) :
  forall (k : Z) (i : nat) (x : A),
  nth_error arr i = Some x ->
  In (k + Z.of_nat i, x) (combine (JS.range k (k + Z.of_nat (length arr))) arr).
Proof.
  induction arr as [|y arr IH]; intros k i x Hi.
  - destruct i; discriminate.
  - rewrite range_cons by (simpl length; lia). cbn [combine].
    destruct i as [|i].
    + injection Hi as ->. left. f_equal. lia.
    + right. simpl in Hi.
      replace (k + Z.of_nat (length (y :: arr))) with (k + 1 + Z.of_nat (length arr))
        by (simpl length; lia).
      replace (k + Z.of_nat (S i)) with (k + 1 + Z.of_nat i) by lia.
      apply IH. exact Hi.
Qed.

Lemma enumerate_from_In {A : Type} (arr : list A) :
  forall (k j : Z) (x : A),
  In (j, x) (combine (JS.range k (k + Z.of_nat (length arr))) arr) ->
  exists i : nat, j = k + Z.of_nat i /\ nth_error arr i = Some x.
Proof.
  induction arr as [|y arr IH]; intros k j x Hin.
  - rewrite range_nil in Hin by (simpl; lia). contradiction.
  - rewrite range_cons in Hin by (simpl length; lia). cbn [combine] in Hin.
    destruct Hin as [Heq|Hin].
    + injection Heq as <- <-. exists 0%nat. split; [lia|reflexivity].
    + replace (k + Z.of_nat (length (y :: arr))) with (k + 1 + Z.of_nat (length arr))
        in Hin by (simpl length; lia).
      destruct (IH _ _ _ Hin) as (i & -> & Hi).
      exists (S i). split; [lia|exact Hi].
Qed.

Lemma enumerate_nth {A : Type} (arr : list A) (i : nat) (x : A) :
  nth_error arr i = Some x -> In (Z.of_nat i, x) (CSVProcessor.enumerate arr).
Proof. intros H. apply (enumerate_from_nth arr 0 i x H). Qed.

Lemma enumerate_In {A : Type} (arr : list A) (j : Z) (x : A) :
  In (j, x) (CSVProcessor.enumerate arr) ->
  exists i : nat, j = Z.of_nat i /\ nth_error arr i = Some x.
Proof. intros H. apply (enumerate_from_In arr 0 j x H). Qed.

(** What is in the list of errors: exactly the violations. *)
Lemma validate_errors_iff (matrix : list (list string)) (e : CSVProcessor.ValidationError) :
  In e (CSVProcessor.errors (CSVProcessor.validateMatrix matrix))
  <-> (Z.of_nat (length matrix) <> CONFIG.I
       /\ e = CSVProcessor.row_count_error (Z.of_nat (length matrix)))
      \/ (exists (i : nat) row,
            nth_error matrix i = Some row /\ Z.of_nat (length row) <> CONFIG.T
            /\ e = CSVProcessor.column_count_error (Z.of_nat i) (Z.of_nat (length row)))
      \/ (exists (i j : nat) row cell,
            nth_error matrix i = Some row /\ nth_error row j = Some cell
            /\ CSVProcessor._isValidPriceLevel cell = false
            /\ e = CSVProcessor.cell_error (Z.of_nat i) (Z.of_nat j) cell).
Proof.
  unfold CSVProcessor.validateMatrix. cbn [CSVProcessor.errors].
  rewrite in_app_iff, in_flat_map. split.
  - intros [H|((i & row) & Hin & He)].
    + destruct (Z.eqb_spec (Z.of_nat (length matrix)) CONFIG.I); [contradiction|].
      destruct H as [<-|[]]. left. auto.
    + apply enumerate_In in Hin. destruct Hin as (n & -> & Hn).
      unfold CSVProcessor.row_errors in He. apply in_app_iff in He.
      destruct He as [He|He].
      * destruct (Z.eqb_spec (Z.of_nat (length row)) CONFIG.T); [contradiction|].
        destruct He as [<-|[]]. right. left. eauto.
      * unfold CSVProcessor.cell_errors in He. apply in_flat_map in He.
        destruct He as ((j & cell) & Hjc & He).
        apply enumerate_In in Hjc. destruct Hjc as (k & -> & Hk).
        destruct (CSVProcessor._isValidPriceLevel cell) eqn:Ev; [contradiction|].
        destruct He as [<-|[]]. right. right. exists n, k, row, cell. auto.
  - intros [(Hne & ->)|[(i & row & Hi & Hne & ->)|(i & j & row & cell & Hi & Hj & Hv & ->)]].
    + left. destruct (Z.eqb_spec (Z.of_nat (length matrix)) CONFIG.I); [contradiction|].
      left. reflexivity.
    + right. exists (Z.of_nat i, row). split; [apply enumerate_nth; exact Hi|].
      unfold CSVProcessor.row_errors. apply in_app_iff. left.
      destruct (Z.eqb_spec (Z.of_nat (length row)) CONFIG.T); [contradiction|].
      left. reflexivity.
    + right. exists (Z.of_nat i, row). split; [apply enumerate_nth; exact Hi|].
      unfold CSVProcessor.row_errors. apply in_app_iff. right.
      unfold CSVProcessor.cell_errors. apply in_flat_map.
      exists (Z.of_nat j, cell). split; [apply enumerate_nth; exact Hj|].
      rewrite Hv. left. reflexivity.
Qed.

Lemma validate_valid_iff (matrix : list (list string)) :
  CSVProcessor.valid (CSVProcessor.validateMatrix matrix) = true
  <-> CSVProcessor.errors (CSVProcessor.validateMatrix matrix) = [].
Proof.
  unfold CSVProcessor.validateMatrix. cbn [CSVProcessor.valid CSVProcessor.errors].
  match goal with |- Nat.eqb (length ?l) 0 = true <-> _ => destruct l end;
    simpl; split; intros; try reflexivity; discriminate.
Qed.




(** ** The optimal benchmark *)

Lemma Qmax_cases (x y : Q) : (Qmax x y = x \/ Qmax x y = y).
Proof.
  unfold Qmax, GenericMinMax.gmax. destruct (x ?= y)%Q; auto.
Qed.

Lemma fold_Qmax_upper (xs : list Q) :
  forall x : Q,
  (x <= fold_left Qmax xs x)%Q
  /\ (forall y, In y xs -> (y <= fold_left Qmax xs x)%Q)
  /\ In (fold_left Qmax xs x) (x :: xs).
Proof.
  induction xs as [|z xs IH]; intros x.
  - simpl. split; [apply Qle_refl|]. split; [intros y []|left; reflexivity].
  - cbn [fold_left]. destruct (IH (Qmax x z)) as (H1 & H2 & H3).
    split; [|split].
    + eapply Qle_trans; [apply Q.le_max_l|exact H1].
    + intros y [<-|Hy]; [|apply H2; exact Hy].
      eapply Qle_trans; [apply Q.le_max_r|exact H1].
    + destruct H3 as [H3|H3]; [|right; right; exact H3].
      rewrite <- H3. destruct (Qmax_cases x z) as [->| ->];
        [left; reflexivity|right; left; reflexivity].
Qed.

Lemma best_is_max (v_sold v_kept : Q) :
  (forall level, In level Benchmark.levels ->
     (Benchmark.expected v_sold v_kept level <= Benchmark.best v_sold v_kept)%Q)
  /\ exists level, In level Benchmark.levels
       /\ Benchmark.best v_sold v_kept = Benchmark.expected v_sold v_kept level.
Proof.
  unfold Benchmark.best.
  destruct (map (Benchmark.expected v_sold v_kept) Benchmark.levels) as [|x xs] eqn:E;
    [discriminate|].
  destruct (fold_Qmax_upper xs x) as (H1 & H2 & H3).
  split.
  - intros level Hl.
    assert (Hin : In (Benchmark.expected v_sold v_kept level) (x :: xs)).
    { rewrite <- E. apply in_map. exact Hl. }
    destruct Hin as [<-|Hin]; [exact H1|apply H2; exact Hin].
  - rewrite <- E in H3. apply in_map_iff in H3.
    destruct H3 as (level & Heq & Hl). exists level. auto.
Qed.

Lemma next_row_from_nth (prev : list Q) :
  forall (below : Q) (c : nat),
  (c < length prev)%nat ->
  nth c (Benchmark.next_row_from below prev) 0%Q
  = Benchmark.best (nth c (below :: prev) 0%Q) (nth c prev 0%Q).
Proof.
  induction prev as [|v rest IH]; intros below c Hc; [simpl in Hc; lia|].
  destruct c as [|c]; [reflexivity|].
  cbn [Benchmark.next_row_from nth]. rewrite IH by (simpl in Hc; lia).
  reflexivity.
Qed.

Lemma next_row_from_length (prev : list Q) (below : Q) :
  length (Benchmark.next_row_from below prev) = length prev.
Proof.
  revert below. induction prev as [|v rest IH]; intros below; simpl; [|rewrite IH];
    reflexivity.
Qed.

Lemma table_value (I r : nat) :
  length (Benchmark.table I r) = S I
  /\ forall c, (c <= I)%nat -> nth c (Benchmark.table I r) 0%Q = Benchmark.value c r.
Proof.
  induction r as [|r (Hlen & IH)].
  - simpl. rewrite repeat_length. split; [reflexivity|].
    intros c Hc. destruct c; [reflexivity|]. apply nth_repeat.
  - cbn [Benchmark.table].
    destruct (Benchmark.table I r) as [|v0 rest] eqn:E; [discriminate|].
    cbn [Benchmark.next_row]. split.
    + simpl. rewrite next_row_from_length. exact Hlen.
    + intros c Hc. destruct c as [|c]; [reflexivity|].
      cbn [nth]. simpl in Hlen. rewrite next_row_from_nth by lia.
      rewrite (IH c) by lia.
      change (nth c rest 0%Q) with (nth (S c) (v0 :: rest) 0%Q).
      rewrite (IH (S c)) by lia. reflexivity.
Qed.

(** C5.  The benchmark, modelled from the specification: the value of no
    capacity and of no period left is 0; otherwise it is the maximum over the
    three price levels of the expected revenue; the table built by backward
    induction holds these values, so the optimum is [value I T], a function of
    the shape and the fixed model alone.  Regret, when requested, is the
    optimum minus the simulated average, and is negative when the average
    exceeds the optimum; when not requested it is absent.  With one unit and
    one period the optimum is the best single expected price, 32000. *)
Theorem benchmark_and_regret :
  (forall r, Benchmark.value 0 r = 0%Q)
  /\ (forall c, Benchmark.value c 0 = 0%Q)
  /\ (forall c r,
        Benchmark.value (S c) (S r)
        = Benchmark.best (Benchmark.value c r) (Benchmark.value (S c) r))
  /\ (forall v_sold v_kept,
        (forall level, In level Benchmark.levels ->
           (Benchmark.expected v_sold v_kept level <= Benchmark.best v_sold v_kept)%Q)
        /\ exists level, In level Benchmark.levels
             /\ Benchmark.best v_sold v_kept = Benchmark.expected v_sold v_kept level)
  /\ (forall I T, Benchmark.optimal I T = Benchmark.value I T)
  /\ (forall I T averages avg,
        avgRevenue averages = Some avg ->
        Benchmark.regret true I T averages = Some (Some (Benchmark.value I T - avg)%Q))
  /\ (forall I T averages, Benchmark.regret false I T averages = None)
  /\ (forall I T averages avg,
        avgRevenue averages = Some avg ->
        (Benchmark.value I T < avg)%Q ->
        exists q, Benchmark.regret true I T averages = Some (Some q) /\ (q < 0)%Q)
  /\ (Benchmark.value 1 1 == 32000 # 1)%Q.
Proof.
  split; [intros r; destruct r; reflexivity|].
  split; [intros c; reflexivity|].
  split; [intros c r; reflexivity|].
  split; [apply best_is_max|].
  assert (Hopt : forall I T, Benchmark.optimal I T = Benchmark.value I T).
  { intros I T. unfold Benchmark.optimal. apply table_value. lia. }
  split; [exact Hopt|].
  split.
  { intros I T averages avg Havg. unfold Benchmark.regret.
    rewrite Havg, Hopt. reflexivity. }
  split; [reflexivity|].
  split.
  { intros I T averages avg Havg Hlt. unfold Benchmark.regret.
    rewrite Havg, Hopt. cbn [option_map]. revert Hlt.
    generalize (Benchmark.value I T). intros v Hlt.
    exists (v - avg)%Q. split; [reflexivity|].
    apply (Qplus_lt_l _ _ avg). ring_simplify. exact Hlt. }
  vm_compute. reflexivity.
Qed.

(** ** Rejection of configurations *)

(** C9, as amended.  A configuration whose trials count is negative, or whose
    [lastMinuteK] exceeds [T], makes the constructor throw: no engine exists,
    so no trial runs and nothing is returned.  A positive trials count is
    accepted whether or not it is an integer, the loop then running
    [ceiling trials] trials; an absent one is replaced by the default. *)
Theorem invalid_config_rejected (input : ConfigInput) :
  ((exists q, in_trials input = Some q /\ (q < 0)%Q) ->
   Engine.new input = Throw "Number of trials must be positive")
  /\ ((exists k, in_lastMinuteK input = Some k /\ CONFIG.T < k) ->
      Engine.new input = Throw "Number of trials must be positive"
      \/ Engine.new input = Throw "lastMinuteK cannot exceed total periods")
  /\ (forall q,
        in_trials input = Some q -> (0 < q)%Q ->
        JS.or_default_Z (in_lastMinuteK input) 3 <= CONFIG.T ->
        exists e, Engine.new input = Ok e
                  /\ cfg_trials (config e) = q
                  /\ Engine.trial_count (config e) = Qceiling q)
  /\ (in_trials input = None ->
      JS.or_default_Z (in_lastMinuteK input) 3 <= CONFIG.T ->
      exists e, Engine.new input = Ok e
                /\ cfg_trials (config e) = CONFIG.DEFAULT_TRIALS).
Proof.
  unfold Engine.new, Engine._validateConfig.
  cbn [cfg_I cfg_T cfg_trials cfg_lastMinuteK].
  change ((CONFIG.I <=? 0) || (CONFIG.T <=? 0)) with false. cbv iota.
  split; [|split; [|split]].
  - intros (q & -> & Hq). unfold JS.or_default_Q.
    destruct (Qeq_bool q 0) eqn:E.
    { apply Qeq_bool_eq in E. rewrite E in Hq. discriminate. }
    destruct (Qle_bool q 0) eqn:E'; [reflexivity|].
    exfalso. assert (Hle : (q <= 0)%Q) by (apply Qlt_le_weak; exact Hq).
    apply Qle_bool_iff in Hle. congruence.
  - intros (k & -> & Hk). destruct (Qle_bool _ 0); [left; reflexivity|].
    right. unfold JS.or_default_Z.
    destruct (Z.eqb_spec k 0); [unfold CONFIG.T in Hk; lia|].
    destruct (Z.gtb_spec k CONFIG.T); [reflexivity|lia].
  - intros q -> Hq Hk. unfold JS.or_default_Q.
    destruct (Qeq_bool q 0) eqn:E.
    { apply Qeq_bool_eq in E. rewrite E in Hq. discriminate. }
    destruct (Qle_bool q 0) eqn:E'.
    { apply Qle_bool_iff in E'. exfalso. apply (Qlt_irrefl 0).
      eapply Qlt_le_trans; eassumption. }
    destruct (Z.gtb_spec (JS.or_default_Z (in_lastMinuteK input) 3) CONFIG.T); [lia|].
    eexists. repeat split.
  - intros -> Hk. cbn [JS.or_default_Q].
    change (Qle_bool CONFIG.DEFAULT_TRIALS 0) with false. cbv iota.
    destruct (Z.gtb_spec (JS.or_default_Z (in_lastMinuteK input) 3) CONFIG.T); [lia|].
    eexists. repeat split.
Qed.

Lemma invalid_config_rejected_witness :
  Engine.new (mkInput (Some (-5 # 1)) (Some 42) (Some 3))
  = Throw "Number of trials must be positive"
  /\ (Engine.new (mkInput (Some (100 # 1)) (Some 42) (Some 16))
      = Throw "Number of trials must be positive"
      \/ Engine.new (mkInput (Some (100 # 1)) (Some 42) (Some 16))
         = Throw "lastMinuteK cannot exceed total periods").
Proof.
  split.
  - apply (invalid_config_rejected (mkInput (Some (-5 # 1)) (Some 42) (Some 3))).
    exists (-5 # 1)%Q. split; reflexivity.
  - apply (invalid_config_rejected (mkInput (Some (100 # 1)) (Some 42) (Some 16))).
    exists 16. split; [reflexivity|unfold CONFIG.T; lia].
Defined.

(** C9, as stated, fails.  A trials count of 5/2 is not a positive integer
    and is accepted: the engine is built and its loop runs 3 trials.  (A
    trials count of 0 is accepted too: the constructor replaces it by the
    default 10000 before [_validateConfig] sees it.) *)
Lemma fractional_trials_accepted :
  Engine.new (mkInput (Some (5 # 2)) (Some 42) (Some 3))
  = Ok (mkEngine (mkConfig 7 15 (5 # 2) 42 3) (Rng.new 42))
  /\ Engine.trial_count (mkConfig 7 15 (5 # 2) 42 3) = 3
  /\ length (fst (Engine.run_trials (mkConfig 7 15 (5 # 2) 42 3)
                    (mkPolicy (repeat (repeat 30000 15%nat) 7%nat) 7 15)
                    (Rng.new 42))) = 3%nat
  /\ Engine.new (mkInput (Some (0 # 1)) (Some 42) (Some 3))
     = Ok (mkEngine (mkConfig 7 15 (10000 # 1) 42 3) (Rng.new 42)).
Proof.
  repeat split.
Qed.


(** ** The exact instance satisfies the laws *)

Lemma Exact_laws : Float64Laws Exact.
Proof.
  split.
  - intros x y H. exact H.
  - intros z _. apply Qeq_refl.
Qed.

Lemma traces_valid_fill_rate_bounded_witness :
  let input := mkInput (Some (100 # 1)) (Some 42) (Some 3) in
  let e := mkEngine (mkConfig 7 15 (100 # 1) 42 3) (Rng.new 42) in
  let m := repeat (repeat 30000 15%nat) 7%nat in
  let P := mkPolicy m 7 15 in
  Engine.new input = Ok e
  /\ Policy.new m = Ok P
  /\ exists res q,
       fst (@Stats.runSimulation Exact e P) = Ok res
       /\ Z.of_nat (length (Sample.steps (sampleTrial res))) = CONFIG.T
       /\ Trace.valid CONFIG.I CONFIG.I (Sample.steps (sampleTrial res))
       /\ fillRate (aggregates res) = Some q
       /\ (0 <= q <= 1)%Q.
Proof.
  intros input e m P.
  split; [reflexivity|]. split; [reflexivity|].
  refine (proj2 (@traces_valid_fill_rate_bounded Exact Exact_laws input e m P
                   eq_refl eq_refl eq_refl eq_refl _ _ _)).
  - repeat constructor.
  - repeat (constructor; try (left; reflexivity)).
  - vm_compute. discriminate.
Defined.

(** ** From a validated grid to a policy *)

Lemma valid_cell_price (cell : string) :
  CSVProcessor._isValidPriceLevel cell = true ->
  Policy.canonical (CSVProcessor.cell_price cell).
Proof.
  unfold CSVProcessor._isValidPriceLevel, CSVProcessor.validValues,
    CSVProcessor.cell_price, Policy.canonical.
  cbn [existsb].
  destruct (String.eqb cell "LOW"); [auto|].
  destruct (String.eqb cell "MED"); cbn [orb].
  { destruct (String.eqb cell "30"), (String.eqb cell "$30"); auto. }
  destruct (String.eqb cell "HIGH"); cbn [orb].
  { destruct (String.eqb cell "30"), (String.eqb cell "$30"),
      (String.eqb cell "40"), (String.eqb cell "$40"); auto. }
  destruct (String.eqb cell "30"); [auto|].
  destruct (String.eqb cell "40"); cbn [orb].
  { destruct (String.eqb cell "$30"); auto. }
  destruct (String.eqb cell "50"); cbn [orb].
  { destruct (String.eqb cell "$30"), (String.eqb cell "$40"); auto. }
  destruct (String.eqb cell "$30"); [auto|].
  destruct (String.eqb cell "$40"); [auto|].
  destruct (String.eqb cell "$50"); [auto|]. discriminate.
Qed.

(** A grid that [validateMatrix] accepts converts to a policy of the engine's
    dimensions, with full rows and canonical prices: the policies that reach
    [runSimulation] through the upload path satisfy what the trace invariants
    assume. *)
Lemma validated_grid_policy (grid : list (list string)) :
  CSVProcessor.valid (CSVProcessor.validateMatrix grid) = true ->
  exists P, CSVProcessor.convertToPriceMatrix grid = Ok P
            /\ policy_I P = CONFIG.I /\ policy_T P = CONFIG.T
            /\ Policy.rectangular P /\ Policy.all_canonical P.
Proof.
  intros Hvalid. apply validate_valid_iff in Hvalid.
  assert (Hnone : forall e,
            ~ In e (CSVProcessor.errors (CSVProcessor.validateMatrix grid))).
  { intros e He. rewrite Hvalid in He. contradiction. }
  assert (Hrows : Z.of_nat (length grid) = CONFIG.I).
  { destruct (Z.eq_dec (Z.of_nat (length grid)) CONFIG.I) as [|Hne]; [assumption|].
    exfalso. eapply Hnone. apply validate_errors_iff. left. eauto. }
  assert (Hcols : forall row, In row grid -> Z.of_nat (length row) = CONFIG.T).
  { intros row Hin. apply In_nth_error in Hin. destruct Hin as (i & Hi).
    destruct (Z.eq_dec (Z.of_nat (length row)) CONFIG.T) as [|Hne]; [assumption|].
    exfalso. eapply Hnone. apply validate_errors_iff. right. left. eauto. }
  assert (Hcells : forall row cell, In row grid -> In cell row ->
                     CSVProcessor._isValidPriceLevel cell = true).
  { intros row cell Hrow Hcell.
    apply In_nth_error in Hrow. destruct Hrow as (i & Hi).
    apply In_nth_error in Hcell. destruct Hcell as (j & Hj).
    destruct (CSVProcessor._isValidPriceLevel cell) eqn:E; [reflexivity|].
    exfalso. eapply Hnone. apply validate_errors_iff. right. right.
    exists i, j, row, cell. eauto. }
  unfold CSVProcessor.convertToPriceMatrix.
  destruct grid as [|row0 rest]; [unfold CONFIG.I in Hrows; simpl in Hrows; lia|].
  cbn [map Policy.new]. eexists. split; [reflexivity|].
  cbn [policy_I policy_T].
  split; [cbn [length]; rewrite length_map; simpl length in Hrows; lia|].
  split; [rewrite length_map; apply Hcols; left; reflexivity|].
  split.
  - unfold Policy.rectangular. cbn [matrix policy_T].
    change (map CSVProcessor.cell_price row0 :: map (map CSVProcessor.cell_price) rest)
      with (map (map CSVProcessor.cell_price) (row0 :: rest)).
    apply Forall_forall. intros r Hr. apply in_map_iff in Hr.
    destruct Hr as (row & <- & Hrow). rewrite !length_map.
    rewrite (Hcols row Hrow). symmetry. apply Hcols. left. reflexivity.
  - unfold Policy.all_canonical. cbn [matrix].
    change (map CSVProcessor.cell_price row0 :: map (map CSVProcessor.cell_price) rest)
      with (map (map CSVProcessor.cell_price) (row0 :: rest)).
    apply Forall_forall. intros r Hr. apply in_map_iff in Hr.
    destruct Hr as (row & <- & Hrow).
    apply Forall_forall. intros v Hv. apply in_map_iff in Hv.
    destruct Hv as (cell & <- & Hcell).
    apply valid_cell_price. eapply Hcells; eassumption.
Qed.

(** * Further properties of the engine and its callers *)

(** ** The generator, for every seed *)

Lemma advance_exact_rem (cur : Z) :
  - 2 ^ 32 < cur < 2 ^ 32 ->
  Rng.advance cur = Z.rem (1664525 * cur + 1013904223) (2 ^ 32).
Proof.
  intros H. unfold Rng.advance, JS.rem, JS.add, JS.mul, Rng.a, Rng.c, Rng.m.
  rewrite (js_round_exact (1664525 * cur)) by lia.
  rewrite js_round_exact by lia. reflexivity.
Qed.

Lemma draws_abs (n : nat) (g : RNG) :
  Forall (fun u => (- (1) < u < 1)%Q) (Rng.draws n g).
Proof.
  revert g. induction n as [|n IH]; intros g; simpl; constructor.
  - pose proof (advance_abs (rng_current g)) as Hb.
    unfold Qlt. simpl. lia.
  - apply IH.
Qed.

Lemma draws_range_nonneg (n : nat) (g : RNG) :
  0 <= rng_current g -> Forall (fun u => (0 <= u < 1)%Q) (Rng.draws n g).
Proof. apply draws_range. Qed.

(** For every seed of magnitude up to 2^1000, so that the first product stays
    finite: every draw lies strictly between -1 and 1, and from the second
    call of [next] on each step is the exact recurrence with the signed
    remainder; a seed that is not negative gives draws in [0,1) only.  (For a
    seed of magnitude above 2^1003 the product is [Infinity] in the source
    and every draw is [NaN].) *)
Theorem RNG_draws_bounded (seed : Z) (n : nat) :
  Z.abs seed <= 2 ^ 1000 ->
  Forall (fun u => (- (1) < u < 1)%Q) (Rng.draws n (Rng.new seed))
  /\ (forall k,
        rng_current (Rng.after (S (S k)) (Rng.new seed))
        = Z.rem (1664525 * rng_current (Rng.after (S k) (Rng.new seed)) + 1013904223)
            (2 ^ 32))
  /\ (0 <= seed -> Forall (fun u => (0 <= u < 1)%Q) (Rng.draws n (Rng.new seed))).
Proof.
  intros _. split; [apply draws_abs|]. split.
  - intros k. pose proof (advance_after_first (Rng.new seed) k) as Hb.
    rewrite (after_S (S k)).
    set (g1 := Rng.after (S k) (Rng.new seed)) in *.
    unfold Rng.next. cbn [snd rng_current].
    apply advance_exact_rem. exact Hb.
  - intros Hseed. apply draws_range. exact Hseed.
Qed.

Lemma RNG_draws_bounded_witness :
  Forall (fun u => (0 <= u < 1)%Q) (Rng.draws 3 (Rng.new 9007199254740991)).
Proof.
  apply (RNG_draws_bounded 9007199254740991 3); [vm_compute; discriminate|lia].
Defined.

Lemma RNG_contract_witness :
  Forall (fun u => (0 <= u < 1)%Q) (Rng.draws 4 (Rng.new 42))
  /\ Rng.draws 4 (Rng.reset (Rng.after 9 (Rng.new 42))) = Rng.draws 4 (Rng.new 42).
Proof.
  destruct (RNG_contract 42 4) as (Hrange & Hreset & _); [lia|].
  split; [exact Hrange|apply Hreset].
Defined.

(** ** Strings: trimming, splitting and joining *)

Lemma str_append_assoc (s t u : string) :
  ((s ++ t) ++ u)%string = (s ++ (t ++ u))%string.
Proof. induction s as [|ch s IH]; simpl; [|rewrite IH]; reflexivity. Qed.

Lemma str_rev_append (s acc : string) :
  Str.rev_append s acc = (Str.rev s ++ acc)%string.
Proof.
  unfold Str.rev. revert acc. induction s as [|ch s IH]; intros acc; simpl.
  - reflexivity.
  - rewrite (IH (String ch acc)), (IH (String ch EmptyString)).
    rewrite str_append_assoc. reflexivity.
Qed.

Lemma str_rev_cons (ch : ascii) (s : string) :
  Str.rev (String ch s) = (Str.rev s ++ String ch EmptyString)%string.
Proof. unfold Str.rev at 1. simpl. apply str_rev_append. Qed.

Lemma str_append_nil_r (s : string) : (s ++ EmptyString)%string = s.
Proof. induction s as [|ch s IH]; simpl; [|rewrite IH]; reflexivity. Qed.

Lemma str_rev_app (s t : string) :
  Str.rev (s ++ t) = (Str.rev t ++ Str.rev s)%string.
Proof.
  induction s as [|ch s IH]; simpl.
  - rewrite str_append_nil_r. reflexivity.
  - rewrite !str_rev_cons, IH, str_append_assoc. reflexivity.
Qed.

Lemma str_rev_involutive (s : string) : Str.rev (Str.rev s) = s.
Proof.
  induction s as [|ch s IH]; [reflexivity|].
  rewrite str_rev_cons, str_rev_app, IH. reflexivity.
Qed.

Lemma head_ok_app (s t : string) : CsvText.head_ok s = true -> CsvText.head_ok (s ++ t) = true.
Proof. destruct s; simpl; [discriminate|auto]. Qed.

Lemma head_ok_trimStart (s : string) : CsvText.head_ok s = true -> Str.trimStart s = s.
Proof.
  destruct s as [|ch s]; simpl; [discriminate|].
  destruct (Str.is_space ch); [discriminate|reflexivity].
Qed.

Lemma trim_edges (s : string) :
  CsvText.head_ok s = true -> CsvText.head_ok (Str.rev s) = true -> Str.trim s = s.
Proof.
  intros H1 H2. unfold Str.trim.
  rewrite (head_ok_trimStart s H1), (head_ok_trimStart _ H2).
  apply str_rev_involutive.
Qed.

Lemma all_plain_app (s t : string) :
  CsvText.all_plain (s ++ t) = CsvText.all_plain s && CsvText.all_plain t.
Proof.
  induction s as [|ch s IH]; simpl; [reflexivity|].
  rewrite IH, andb_assoc. reflexivity.
Qed.

Lemma all_plain_rev (s : string) : CsvText.all_plain (Str.rev s) = CsvText.all_plain s.
Proof.
  induction s as [|ch s IH]; [reflexivity|].
  rewrite str_rev_cons, all_plain_app, IH. simpl.
  rewrite andb_true_r. apply andb_comm.
Qed.

Lemma plain_cell_facts (s : string) :
  CsvText.plain_cell s = true ->
  CsvText.all_plain s = true /\ CsvText.head_ok s = true /\ CsvText.head_ok (Str.rev s) = true.
Proof.
  intros H. assert (Hall : CsvText.all_plain s = true).
  { destruct s; [discriminate|exact H]. }
  assert (Hhead : forall t, t <> EmptyString -> CsvText.all_plain t = true ->
                            CsvText.head_ok t = true).
  { intros [|ch t] Hne Ht; [congruence|]. simpl in *.
    unfold CsvText.plain_char in Ht.
    destruct (Str.is_space ch); [discriminate|reflexivity]. }
  repeat split; [exact Hall| |].
  - apply Hhead; [destruct s; [discriminate|discriminate]|exact Hall].
  - apply Hhead; [|rewrite all_plain_rev; exact Hall].
    destruct s as [|ch s]; [discriminate|]. rewrite str_rev_cons.
    destruct (Str.rev s); discriminate.
Qed.

Lemma plain_trim (s : string) : CsvText.plain_cell s = true -> Str.trim s = s.
Proof.
  intros H. destruct (plain_cell_facts s H) as (_ & H1 & H2).
  apply trim_edges; assumption.
Qed.

Lemma plain_upper (s : string) : CsvText.all_plain s = true -> Str.toUpperCase s = s.
Proof.
  induction s as [|ch s IH]; [reflexivity|]. simpl. intros H.
  apply andb_true_iff in H. destruct H as (Hch & Hs).
  unfold CsvText.plain_char in Hch. apply andb_true_iff in Hch.
  destruct Hch as (Hch & _). apply andb_true_iff in Hch.
  destruct Hch as (_ & Hup). apply Ascii.eqb_eq in Hup.
  rewrite Hup, (IH Hs). reflexivity.
Qed.

Lemma lacks_app (sep : ascii) (s t : string) :
  CsvText.lacks sep (s ++ t) = CsvText.lacks sep s && CsvText.lacks sep t.
Proof.
  induction s as [|ch s IH]; simpl; [reflexivity|].
  rewrite IH, andb_assoc. reflexivity.
Qed.

Lemma split_lacks (sep : ascii) (s : string) :
  CsvText.lacks sep s = true -> Str.split sep s = [s].
Proof.
  induction s as [|ch s IH]; [reflexivity|]. simpl. intros H.
  apply andb_true_iff in H. destruct H as (Hch & Hs).
  destruct (Ascii.eqb ch sep); [discriminate|].
  rewrite (IH Hs). reflexivity.
Qed.

Lemma split_app (sep : ascii) (s t : string) :
  CsvText.lacks sep s = true ->
  Str.split sep (s ++ String sep t) = s :: Str.split sep t.
Proof.
  induction s as [|ch s IH]; simpl; intros H.
  - rewrite Ascii.eqb_refl. reflexivity.
  - apply andb_true_iff in H. destruct H as (Hch & Hs).
    destruct (Ascii.eqb ch sep); [discriminate|].
    rewrite (IH Hs). reflexivity.
Qed.

Lemma split_concat (sep : ascii) (pieces : list string) :
  pieces <> [] -> Forall (fun p => CsvText.lacks sep p = true) pieces ->
  Str.split sep (String.concat (String sep EmptyString) pieces) = pieces.
Proof.
  induction pieces as [|p rest IH]; [congruence|]. intros _ Hall.
  inversion Hall as [|p' rest' Hp Hrest]; subst.
  destruct rest as [|q rest].
  - simpl. apply split_lacks. exact Hp.
  - change (String.concat (String sep EmptyString) (p :: q :: rest))
      with (p ++ String sep (String.concat (String sep EmptyString) (q :: rest)))%string.
    rewrite split_app by exact Hp. f_equal. apply IH; [discriminate|exact Hrest].
Qed.

Lemma plain_lacks (sep : ascii) (s : string) :
  (Str.is_space sep = true \/ sep = ","%char) ->
  CsvText.all_plain s = true -> CsvText.lacks sep s = true.
Proof.
  intros Hsep. induction s as [|ch s IH]; [reflexivity|]. simpl. intros H.
  apply andb_true_iff in H. destruct H as (Hch & Hs). rewrite (IH Hs), andb_true_r.
  unfold CsvText.plain_char in Hch.
  destruct (Ascii.eqb_spec ch sep) as [->|]; [|reflexivity].
  destruct Hsep as [Hsp| ->].
  - rewrite Hsp in Hch. discriminate.
  - rewrite Ascii.eqb_refl in Hch. cbn [negb] in Hch.
    rewrite andb_false_r in Hch. discriminate.
Qed.

Lemma concat_edges (sep : string) (pieces : list string) :
  pieces <> [] ->
  Forall (fun p => CsvText.head_ok p = true /\ CsvText.head_ok (Str.rev p) = true) pieces ->
  CsvText.head_ok (String.concat sep pieces) = true
  /\ CsvText.head_ok (Str.rev (String.concat sep pieces)) = true.
Proof.
  induction pieces as [|p rest IH]; [congruence|]. intros _ Hall.
  inversion Hall as [|p' rest' (Hp1 & Hp2) Hrest]; subst.
  destruct rest as [|q rest]; [simpl; auto|].
  change (String.concat sep (p :: q :: rest))
    with (p ++ (sep ++ String.concat sep (q :: rest)))%string.
  destruct (IH ltac:(discriminate) Hrest) as (_ & Hrev).
  split; [apply head_ok_app; exact Hp1|].
  rewrite !str_rev_app. apply head_ok_app, head_ok_app. exact Hrev.
Qed.

Lemma concat_lacks (ch : ascii) (sep : string) (pieces : list string) :
  CsvText.lacks ch sep = true ->
  Forall (fun p => CsvText.lacks ch p = true) pieces ->
  CsvText.lacks ch (String.concat sep pieces) = true.
Proof.
  intros Hsep. induction pieces as [|p rest IH]; [reflexivity|]. intros Hall.
  inversion Hall as [|p' rest' Hp Hrest]; subst.
  destruct rest as [|q rest]; [exact Hp|].
  change (String.concat sep (p :: q :: rest))
    with (p ++ (sep ++ String.concat sep (q :: rest)))%string.
  rewrite !lacks_app, Hp, Hsep, (IH Hrest). reflexivity.
Qed.

Lemma valid_cell_plain (cell : string) :
  CSVProcessor._isValidPriceLevel cell = true -> CsvText.plain_cell cell = true.
Proof.
  unfold CSVProcessor._isValidPriceLevel, CSVProcessor.validValues. cbn [existsb].
  repeat match goal with
         | |- (String.eqb cell ?v || _) = true -> _ =>
             destruct (String.eqb_spec cell v) as [->|_]; [reflexivity|cbn [orb]]
         end.
  discriminate.
Qed.

Lemma line_round_trip (row : list string) :
  row <> [] -> Forall (fun cell => CsvText.plain_cell cell = true) row ->
  let line := String.concat "," row in
  map (fun cell => Str.toUpperCase (Str.trim cell)) (Str.split ","%char line) = row
  /\ CsvText.head_ok line = true /\ CsvText.head_ok (Str.rev line) = true
  /\ CsvText.lacks "010"%char line = true.
Proof.
  intros Hne Hall line.
  assert (Hfacts : Forall (fun cell =>
            CsvText.all_plain cell = true /\ CsvText.head_ok cell = true
            /\ CsvText.head_ok (Str.rev cell) = true) row).
  { eapply Forall_impl; [|exact Hall]. intros cell. apply plain_cell_facts. }
  split; [|split; [|split]].
  - unfold line. change ","%string with (String ","%char EmptyString).
    rewrite split_concat; [|exact Hne|].
    + rewrite <- (map_id row) at 2. apply map_ext_in. intros cell Hin.
      rewrite Forall_forall in Hall, Hfacts.
      rewrite (plain_trim cell (Hall cell Hin)).
      apply plain_upper. apply (Hfacts cell Hin).
    + eapply Forall_impl; [|exact Hfacts]. intros cell (Hp & _).
      apply plain_lacks; [right; reflexivity|exact Hp].
  - apply concat_edges; [exact Hne|].
    eapply Forall_impl; [|exact Hfacts]. intros cell (_ & H1 & H2). auto.
  - apply concat_edges; [exact Hne|].
    eapply Forall_impl; [|exact Hfacts]. intros cell (_ & H1 & H2). auto.
  - apply concat_lacks; [reflexivity|].
    eapply Forall_impl; [|exact Hfacts]. intros cell (Hp & _).
    apply plain_lacks; [left; reflexivity|exact Hp].
Qed.

Lemma plain_grid_round_trip (grid : list (list string)) :
  CsvText.plain_grid grid ->
  CSVProcessor.parseCSV (CsvText.matrixToCSV grid) = grid.
Proof.
  intros (Hne & Hrows).
  assert (Hlines : Forall (fun row =>
            let line := String.concat "," row in
            map (fun cell => Str.toUpperCase (Str.trim cell)) (Str.split ","%char line)
            = row
            /\ CsvText.head_ok line = true /\ CsvText.head_ok (Str.rev line) = true
            /\ CsvText.lacks "010"%char line = true) grid).
  { eapply Forall_impl; [|exact Hrows]. intros row (Hr & Hcells).
    apply line_round_trip; assumption. }
  unfold CSVProcessor.parseCSV, CsvText.matrixToCSV.
  set (lines := map (String.concat ",") grid).
  assert (Hlne : lines <> []) by (unfold lines; destruct grid; [congruence|discriminate]).
  destruct (concat_edges (String "010"%char EmptyString) lines Hlne) as (He1 & He2).
  { unfold lines. apply Forall_map. eapply Forall_impl; [|exact Hlines].
    intros row (_ & H1 & H2 & _). auto. }
  rewrite (trim_edges _ He1 He2).
  rewrite split_concat; [|exact Hlne|].
  - unfold lines. rewrite map_map. rewrite <- (map_id grid) at 2.
    apply map_ext_in. intros row Hin. rewrite Forall_forall in Hlines.
    apply (Hlines row Hin).
  - unfold lines. apply Forall_map. eapply Forall_impl; [|exact Hlines].
    intros row (_ & _ & _ & H). exact H.
Qed.

(** What it means that [validateMatrix] reports nothing. *)
Lemma valid_grid_shape (grid : list (list string)) :
  CSVProcessor.valid (CSVProcessor.validateMatrix grid) = true ->
  Z.of_nat (length grid) = CONFIG.I
  /\ (forall row, In row grid -> Z.of_nat (length row) = CONFIG.T)
  /\ (forall row cell, In row grid -> In cell row ->
        CSVProcessor._isValidPriceLevel cell = true).
Proof.
  intros Hv. apply validate_valid_iff in Hv.
  assert (Hnone : forall e,
            ~ In e (CSVProcessor.errors (CSVProcessor.validateMatrix grid))).
  { intros e He. rewrite Hv in He. contradiction. }
  split; [|split].
  - destruct (Z.eq_dec (Z.of_nat (length grid)) CONFIG.I) as [|Hne]; [assumption|].
    exfalso. eapply Hnone. apply validate_errors_iff. left. eauto.
  - intros row Hin. apply In_nth_error in Hin. destruct Hin as (i & Hi).
    destruct (Z.eq_dec (Z.of_nat (length row)) CONFIG.T) as [|Hne]; [assumption|].
    exfalso. eapply Hnone. apply validate_errors_iff. right. left. eauto.
  - intros row cell Hrow Hcell.
    apply In_nth_error in Hrow. destruct Hrow as (i & Hi).
    apply In_nth_error in Hcell. destruct Hcell as (j & Hj).
    destruct (CSVProcessor._isValidPriceLevel cell) eqn:E; [reflexivity|].
    exfalso. eapply Hnone. apply validate_errors_iff. right. right.
    exists i, j, row, cell. eauto.
Qed.

Lemma valid_grid_plain (grid : list (list string)) :
  CSVProcessor.valid (CSVProcessor.validateMatrix grid) = true ->
  CsvText.plain_grid grid.
Proof.
  intros Hv. destruct (valid_grid_shape grid Hv) as (Hrows & Hcols & Hcells).
  split; [intros ->; discriminate|].
  apply Forall_forall. intros row Hin. split.
  - intros ->. specialize (Hcols [] Hin). discriminate.
  - apply Forall_forall. intros cell Hcell.
    apply valid_cell_plain. eapply Hcells; eassumption.
Qed.

(** Export and re-import.  For a grid with at least one row, no empty row and
    plain cells (non-empty, of 7-bit ASCII characters, without white space,
    commas or lower-case letters), [parseCSV] reads back from the text of
    [matrixToCSV] exactly the grid.  Every grid that [validateMatrix] accepts is such a grid, so its
    text validates again and converts to the same policy. *)
Theorem csv_round_trip (grid : list (list string)) :
  (CsvText.plain_grid grid ->
   CSVProcessor.parseCSV (CsvText.matrixToCSV grid) = grid)
  /\ (CSVProcessor.valid (CSVProcessor.validateMatrix grid) = true ->
      CSVProcessor.parseCSV (CsvText.matrixToCSV grid) = grid
      /\ CSVProcessor.valid
           (CSVProcessor.validateMatrix
              (CSVProcessor.parseCSV (CsvText.matrixToCSV grid))) = true
      /\ CSVProcessor.convertToPriceMatrix
           (CSVProcessor.parseCSV (CsvText.matrixToCSV grid))
         = CSVProcessor.convertToPriceMatrix grid).
Proof.
  split; [apply plain_grid_round_trip|].
  intros Hvalid.
  rewrite (plain_grid_round_trip grid (valid_grid_plain grid Hvalid)). auto.
Qed.

Lemma csv_round_trip_witness :
  let grid := [["LOW"; "$40"]; ["HIGH"; "30"]]%string in
  CSVProcessor.parseCSV (CsvText.matrixToCSV grid) = grid.
Proof.
  intros grid. apply (proj1 (csv_round_trip grid)).
  split; [discriminate|]. repeat constructor; discriminate.
Defined.

(** ** Sales and prices, when the draws are not negative *)

Lemma sale_probability_positive (p : option Z) :
  (0 < CONFIG.SALE_PROBABILITIES p)%Q -> exists v, p = Some v /\ Policy.canonical v.
Proof.
  unfold CONFIG.SALE_PROBABILITIES, Policy.canonical.
  destruct p as [v|]; [|intros H; discriminate].
  destruct (Z.eqb_spec v CONFIG.LOW); [eauto|].
  destruct (Z.eqb_spec v CONFIG.MED); [eauto|].
  destruct (Z.eqb_spec v CONFIG.HIGH); [eauto|].
  intros H. discriminate.
Qed.

Lemma after_nonneg_any (n : nat) (g : RNG) :
  0 <= rng_current g -> 0 <= rng_current (Rng.after n g).
Proof.
  revert g. induction n as [|n IH]; intros g H; [exact H|].
  simpl. apply IH. simpl. apply advance_nonneg. exact H.
Qed.

Lemma step_sold_canonical (P : PolicyMatrix) (t c : Z) (g : RNG) :
  0 <= rng_current g ->
  TrialSpec.sold (fst (TrialSpec.step P t c g)) = true ->
  exists v, TrialSpec.price (fst (TrialSpec.step P t c g)) = Some v
            /\ Policy.canonical v.
Proof.
  intros Hg. unfold TrialSpec.step.
  destruct (c =? 0); [simpl; discriminate|].
  pose proof (draw_range g Hg) as (Hu & _).
  destruct (Rng.next g) as [u g'] eqn:E. cbn [fst] in Hu.
  destruct (JS.Qltb u (CONFIG.SALE_PROBABILITIES (TrialSpec.cell P (c - 1) t))) eqn:Hlt;
    simpl; [|discriminate].
  intros _. apply sale_probability_positive.
  apply Qltb_spec in Hlt. eapply Qle_lt_trans; eassumption.
Qed.

Lemma run_sold_canonical (P : PolicyMatrix) (ts : list Z) :
  forall (c : Z) (g : RNG),
  0 <= rng_current g ->
  Forall sold_canonical (fst (fst (TrialSpec.run P ts c g))).
Proof.
  induction ts as [|t ts IH]; intros c g Hg; [constructor|].
  rewrite run_cons. cbn [fst snd]. constructor.
  - intros Hsold. apply step_sold_canonical; assumption.
  - apply IH. rewrite step_generator. apply after_nonneg_any. exact Hg.
Qed.

Lemma trial_period_nonneg (P : PolicyMatrix) (t : Z) (sg : SimulationState * RNG) :
  0 <= rng_current (snd sg) -> 0 <= rng_current (snd (Engine.trial_period P t sg)).
Proof.
  destruct sg as [st g]. unfold Engine.trial_period. cbn [snd]. intros Hg.
  destruct (capacity st <=? 0); [exact Hg|].
  pose proof (advance_nonneg (rng_current g) Hg) as Hb.
  simpl. match goal with |- context [JS.Qltb ?x ?y] => destruct (JS.Qltb x y) end;
    simpl; lia.
Qed.

Lemma single_trial_nonneg (cfg : Config) (P : PolicyMatrix) (i : Z) (g : RNG) :
  0 <= rng_current g -> 0 <= rng_current (snd (Engine._runSingleTrial cfg P i g)).
Proof.
  unfold Engine._runSingleTrial.
  generalize (new_state (cfg_I cfg)). generalize (JS.range 0 (cfg_T cfg)).
  intros ts. revert g. induction ts as [|t ts IH]; intros g st Hg; [exact Hg|].
  cbn [fold_left].
  pose proof (trial_period_nonneg P t (st, g) Hg) as Hs.
  destruct (Engine.trial_period P t (st, g)) as [st' g']. apply IH. exact Hs.
Qed.

(** Every pushed state comes from a trial that started with a generator that
    is not negative, if the first one did. *)
Lemma trials_loop_In_nonneg (cfg : Config) (P : PolicyMatrix) (ids : list Z) (g : RNG)
    (st : SimulationState) :
  0 <= rng_current g ->
  In st (fst (Engine.trials_loop cfg P ids ([], g))) ->
  exists i h, 0 <= rng_current h /\ st = fst (Engine._runSingleTrial cfg P i h).
Proof.
  revert g. induction ids as [|i ids IH]; intros g Hg; [simpl; tauto|].
  rewrite trials_loop_cons, trials_loop_acc. cbn [fst app].
  intros [<-|H]; [eauto|].
  eapply IH; [|exact H]. apply single_trial_nonneg. exact Hg.
Qed.

Lemma flat_map_range_gen (A B : Type) (arr : list A) (f : Z -> list B)
    (h : A -> list B) (k : Z) :
  (forall n x, nth_error arr n = Some x -> f (k + Z.of_nat n) = h x) ->
  flat_map f (JS.range k (k + Z.of_nat (length arr))) = flat_map h arr.
Proof.
  revert k. induction arr as [|x arr IH]; intros k H.
  - simpl. rewrite range_nil by lia. reflexivity.
  - rewrite range_cons by (simpl length; lia). cbn [flat_map].
    pose proof (H 0%nat x eq_refl) as H0. rewrite Z.add_0_r in H0. rewrite H0.
    f_equal.
    replace (k + Z.of_nat (length (x :: arr))) with (k + 1 + Z.of_nat (length arr))
      by (simpl length; lia).
    apply IH. intros n y Hn.
    replace (k + 1 + Z.of_nat n) with (k + Z.of_nat (S n)) by lia.
    apply H. exact Hn.
Qed.

Lemma sold_prices_records (c0 : Z) (rs : list TrialSpec.PeriodRecord) (c' : Z) :
  Stats.sold_prices (push_records (new_state c0) rs c')
  = map TrialSpec.price (filter TrialSpec.sold rs).
Proof.
  unfold Stats.sold_prices.
  cbn [push_records new_state priceHistory salesHistory app].
  rewrite length_map.
  change (Z.of_nat (length rs)) with (0 + Z.of_nat (length rs)).
  rewrite (flat_map_range_gen _ _ rs _
             (fun r => if TrialSpec.sold r then [TrialSpec.price r] else [])).
  - induction rs as [|r rs IH]; [reflexivity|]. simpl.
    destruct (TrialSpec.sold r); simpl; rewrite IH; reflexivity.
  - intros n r Hn. rewrite Z.add_0_l.
    unfold sold_at, index_opt. rewrite !index_of_nat, !nth_error_map, Hn.
    reflexivity.
Qed.

Lemma sum_sold_filter (rs : list TrialSpec.PeriodRecord) :
  Stats._sum (map TrialSpec.sold rs) = Z.of_nat (length (filter TrialSpec.sold rs)).
Proof.
  induction rs as [|r rs IH]; [reflexivity|].
  cbn [map filter]. rewrite sum_cons, IH.
  destruct (TrialSpec.sold r); simpl length; unfold Z.b2z; lia.
Qed.

Lemma records_summary (good : option Z -> Prop) (rs : list TrialSpec.PeriodRecord) :
  forall c : Z,
  TrialSpec.chain good c rs -> Forall sold_canonical rs ->
  exists vs : list Z,
    map TrialSpec.price (filter TrialSpec.sold rs) = map Some vs
    /\ Forall Policy.canonical vs
    /\ forall r0 : Z,
         fold_left add_price (map TrialSpec.revenue rs) (Some r0) = Some (r0 + Zsum vs).
Proof.
  induction rs as [|r rs IH]; intros c Hch Hall.
  - exists []. repeat split; [constructor|]. intros r0. simpl.
    unfold Zsum. simpl. rewrite Z.add_0_r. reflexivity.
  - inversion Hch as [|c0 r1 rs1 Hs Hns Hz Hg Hrest]; subst.
    inversion Hall as [|r2 rs2 Hr Hrs]; subst.
    destruct (IH _ Hrest Hrs) as (vs & Hp & Hc & Hrev).
    cbn [filter map fold_left].
    destruct (TrialSpec.sold r) eqn:E.
    + destruct (Hr E) as (v & Hv & Hcv). destruct (Hs eq_refl) as (_ & _ & Hrv).
      exists (v :: vs). cbn [map]. rewrite Hp, Hv. repeat split.
      * constructor; assumption.
      * intros r0. rewrite Hrv, Hv. cbn [add_price]. rewrite Hrev.
        unfold Zsum. simpl. f_equal. lia.
    + destruct (Hns eq_refl) as (_ & Hrv).
      exists vs. repeat split; [exact Hp|exact Hc|].
      intros r0. rewrite Hrv. cbn [add_price]. rewrite Z.add_0_r. apply Hrev.
Qed.

(** What one trial leaves, when its draws are not negative: the prices of its
    sold periods are canonical values, as many as its sales count, and its
    revenue is their sum. *)
Lemma trial_summary (cfg : Config) (P : PolicyMatrix) (i : Z) (g : RNG) :
  0 <= cfg_I cfg -> policy_I P = cfg_I cfg -> policy_T P = cfg_T cfg ->
  0 <= rng_current g ->
  let st := fst (Engine._runSingleTrial cfg P i g) in
  exists vs : list Z,
    Stats.sold_prices st = map Some vs
    /\ Forall Policy.canonical vs
    /\ salesCount st = Z.of_nat (length vs)
    /\ revenue st = Some (Zsum vs)
    /\ 0 <= salesCount st <= cfg_I cfg
    /\ length (salesHistory st) = Z.to_nat (cfg_T cfg)
    /\ length (priceHistory st) = Z.to_nat (cfg_T cfg).
Proof.
  intros HI HPI HPT Hg st. unfold st.
  rewrite single_trial_run by assumption. cbn [fst].
  destruct (run_chain (fun _ => True) P (JS.range 0 (cfg_T cfg)) (cfg_I cfg) g HI)
    as (Hch & Hb & Heq); [auto|].
  pose proof (run_sold_canonical P (JS.range 0 (cfg_T cfg)) (cfg_I cfg) g Hg) as Hall.
  pose proof (run_length P (JS.range 0 (cfg_T cfg)) (cfg_I cfg) g) as Hlen.
  rewrite range_length, Z.sub_0_r in Hlen.
  set (rs := fst (fst (TrialSpec.run P (JS.range 0 (cfg_T cfg)) (cfg_I cfg) g))) in *.
  set (c' := snd (fst (TrialSpec.run P (JS.range 0 (cfg_T cfg)) (cfg_I cfg) g))) in *.
  destruct (records_summary _ rs _ Hch Hall) as (vs & Hp & Hc & Hrev).
  exists vs. rewrite sold_prices_records.
  cbn [push_records new_state salesCount revenue salesHistory priceHistory app].
  assert (Hcount : Stats._sum (map TrialSpec.sold rs) = Z.of_nat (length vs)).
  { rewrite sum_sold_filter. rewrite <- (length_map TrialSpec.price), Hp, length_map.
    reflexivity. }
  rewrite !length_map, Hcount, (Hrev 0).
  repeat split; auto; lia.
Qed.

(** ** What the price histogram counts *)

Lemma tally_counts (mix : PriceMix.t) (p : option Z) :
  PriceMix.LOW (Stats.tally mix p) = PriceMix.LOW mix + sales_at 30000 [p]
  /\ PriceMix.MED (Stats.tally mix p) = PriceMix.MED mix + sales_at 40000 [p]
  /\ PriceMix.HIGH (Stats.tally mix p) = PriceMix.HIGH mix + sales_at 50000 [p].
Proof.
  unfold Stats.tally, sales_at. destruct p as [v|]; simpl; [|lia].
  destruct (Z.eqb_spec v 30000) as [->|]; [simpl; lia|].
  destruct (Z.eqb_spec v 40000) as [->|]; [simpl; lia|].
  destruct (Z.eqb_spec v 50000) as [->|]; simpl; lia.
Qed.

Lemma sales_at_cons (v : Z) (p : option Z) (ps : list (option Z)) :
  sales_at v (p :: ps) = sales_at v [p] + sales_at v ps.
Proof.
  unfold sales_at. simpl.
  destruct (match p with Some x => x =? v | None => false end); simpl length; lia.
Qed.

Lemma fold_tally_counts (ps : list (option Z)) :
  forall mix : PriceMix.t,
  fold_left Stats.tally ps mix
  = PriceMix.mk (PriceMix.LOW mix + sales_at 30000 ps)
      (PriceMix.MED mix + sales_at 40000 ps)
      (PriceMix.HIGH mix + sales_at 50000 ps).
Proof.
  induction ps as [|p ps IH]; intros mix.
  - unfold sales_at. simpl. rewrite !Z.add_0_r. destruct mix; reflexivity.
  - cbn [fold_left]. rewrite IH.
    destruct (tally_counts mix p) as (-> & -> & ->).
    rewrite (sales_at_cons 30000 p ps), (sales_at_cons 40000 p ps),
      (sales_at_cons 50000 p ps).
    f_equal; lia.
Qed.

Lemma count_inner_tally (sales : list bool) (prices : list (option Z)) (l : list Z) :
  forall mix : PriceMix.t,
  fold_left
    (fun mix i =>
       if sold_at sales i && (i <? Z.of_nat (length prices))
       then Stats.tally mix (index_opt prices i) else mix) l mix
  = fold_left Stats.tally
      (flat_map (fun i => if sold_at sales i then [index_opt prices i] else []) l) mix.
Proof.
  induction l as [|i l IH]; intros mix; [reflexivity|].
  cbn [fold_left flat_map]. rewrite fold_left_app, IH.
  destruct (sold_at sales i); cbn [andb fold_left]; [|reflexivity].
  destruct (Z.ltb_spec i (Z.of_nat (length prices))); [reflexivity|].
  assert (Hnone : index_opt prices i = None).
  { unfold index_opt, JS.index. destruct (i <? 0); [reflexivity|].
    destruct (nth_error prices (Z.to_nat i)) eqn:E; [|reflexivity].
    assert (nth_error prices (Z.to_nat i) <> None) by congruence.
    apply nth_error_Some in H0. lia. }
  rewrite Hnone. reflexivity.
Qed.

Lemma count_prices_tally (trialResults : list SimulationState) :
  Stats.count_prices trialResults
  = fold_left Stats.tally (flat_map Stats.sold_prices trialResults) (PriceMix.mk 0 0 0).
Proof.
  unfold Stats.count_prices. generalize (PriceMix.mk 0 0 0).
  induction trialResults as [|st trs IH]; intros mix; [reflexivity|].
  cbn [fold_left flat_map]. rewrite fold_left_app, IH.
  rewrite count_inner_tally. reflexivity.
Qed.

Lemma sales_at_canonical (vs : list Z) :
  Forall Policy.canonical vs ->
  sales_at 30000 (map Some vs) + sales_at 40000 (map Some vs)
  + sales_at 50000 (map Some vs) = Z.of_nat (length vs).
Proof.
  induction vs as [|v vs IH]; intros H; [reflexivity|].
  inversion H as [|v' vs' Hv Hvs]; subst. specialize (IH Hvs).
  cbn [map].
  rewrite (sales_at_cons 30000 (Some v) (map Some vs)),
    (sales_at_cons 40000 (Some v) (map Some vs)),
    (sales_at_cons 50000 (Some v) (map Some vs)).
  simpl length. rewrite Nat2Z.inj_succ.
  unfold Policy.canonical, CONFIG.LOW, CONFIG.MED, CONFIG.HIGH in Hv.
  destruct Hv as [->|[->| ->]];
    repeat match goal with
           | |- context [sales_at ?a [Some ?b]] =>
               let x := eval vm_compute in (sales_at a [Some b]) in
               change (sales_at a [Some b]) with x
           end; lia.
Qed.

Section Histograms.
Context {F : Float64}.

(** The price histogram and the price mix of the aggregates are the same
    three counts: for each of 30000, 40000 and 50000, the number of periods,
    over all trials, in which a sale is recorded at that price.  A sale
    recorded at any other price, or at no price, is counted nowhere. *)
Theorem price_histogram_counts (cfg : Config) (trialResults : list SimulationState) :
  let sold := flat_map Stats.sold_prices trialResults in
  Stats._createPriceHistogram trialResults
  = PriceMix.mk (sales_at 30000 sold) (sales_at 40000 sold) (sales_at 50000 sold)
  /\ priceMix (Stats._calculateAggregates cfg trialResults)
     = Stats._createPriceHistogram trialResults
  /\ mix_total (Stats._createPriceHistogram trialResults) <= Z.of_nat (length sold).
Proof.
  intros sold.
  assert (H : Stats._createPriceHistogram trialResults
              = PriceMix.mk (sales_at 30000 sold) (sales_at 40000 sold)
                  (sales_at 50000 sold)).
  { unfold Stats._createPriceHistogram. rewrite count_prices_tally.
    fold sold. rewrite fold_tally_counts. reflexivity. }
  split; [exact H|]. split.
  - unfold Stats._calculateAggregates.
    destruct (Stats.last_minute_counts cfg trialResults). reflexivity.
  - rewrite H. unfold mix_total. cbn [PriceMix.LOW PriceMix.MED PriceMix.HIGH].
    clear H. induction sold as [|p ps IH]; [unfold sales_at; simpl; lia|].
    rewrite (sales_at_cons 30000 p ps), (sales_at_cons 40000 p ps),
      (sales_at_cons 50000 p ps).
    simpl length. rewrite Nat2Z.inj_succ.
    assert (sales_at 30000 [p] + sales_at 40000 [p] + sales_at 50000 [p] <= 1).
    { unfold sales_at. destruct p as [v|]; simpl; [|lia].
      destruct (Z.eqb_spec v 30000) as [->|]; [simpl; lia|].
      destruct (Z.eqb_spec v 40000) as [->|]; [simpl; lia|].
      destruct (Z.eqb_spec v 50000) as [->|]; simpl; lia. }
    lia.
Qed.

End Histograms.

(** ** Runs of an accepted engine *)

Lemma canonical_sum_bounds (vs : list Z) :
  Forall Policy.canonical vs ->
  30000 * Z.of_nat (length vs) <= Zsum vs <= 50000 * Z.of_nat (length vs).
Proof.
  induction vs as [|v vs IH]; intros H; [unfold Zsum; simpl; lia|].
  inversion H as [|v' vs' Hv Hvs]; subst. specialize (IH Hvs).
  unfold Zsum in *. cbn [fold_right length]. rewrite Nat2Z.inj_succ.
  unfold Policy.canonical, CONFIG.LOW, CONFIG.MED, CONFIG.HIGH in Hv. lia.
Qed.

Lemma run_trials_summarized (cfg : Config) (P : PolicyMatrix) (g : RNG) :
  0 <= cfg_I cfg -> policy_I P = cfg_I cfg -> policy_T P = cfg_T cfg ->
  0 <= rng_current g ->
  Forall (summarized cfg) (fst (Engine.run_trials cfg P g)).
Proof.
  intros HI HPI HPT Hg. apply Forall_forall. intros st Hin.
  unfold Engine.run_trials in Hin.
  apply (trials_loop_In_nonneg _ _ _ _ _ Hg) in Hin.
  destruct Hin as (i & h & Hh & ->).
  apply trial_summary; assumption.
Qed.

Lemma summarized_all (cfg : Config) (trs : list SimulationState) :
  Forall (summarized cfg) trs ->
  exists every : list Z,
    flat_map Stats.sold_prices trs = map Some every
    /\ Forall Policy.canonical every
    /\ Z.of_nat (length every) = Zsum (map salesCount trs).
Proof.
  induction trs as [|st trs IH]; intros H.
  - exists []. repeat split. constructor.
  - inversion H as [|st' trs' (vs & Hp & Hc & Hn & _) Hrest]; subst.
    destruct (IH Hrest) as (every & He & Hce & Hlen).
    exists (vs ++ every). cbn [flat_map map]. rewrite Hp, He, map_app.
    repeat split; [apply Forall_app; auto|].
    rewrite length_app, Nat2Z.inj_add. unfold Zsum in *. cbn [fold_right]. lia.
Qed.

Section AcceptedRuns.
Context {F : Float64}.

(** The shape of what [runSimulation] returns for an engine the constructor
    accepted and a policy of its dimensions. *)
Lemma runSimulation_ok (input : ConfigInput) (e : SimulationEngine) (P : PolicyMatrix) :
  Engine.new input = Ok e ->
  policy_I P = CONFIG.I -> policy_T P = CONFIG.T ->
  exists first rest g1,
    Engine.run_trials (config e) P (Rng.reset (rng e)) = (first :: rest, g1)
    /\ Stats.runSimulation e P
       = (Ok (mkResults (config e) P
                (Stats._calculateAggregates (config e) (first :: rest))
                (Stats._createSampleTrial (config e) first)
                (Stats._createPriceHistogram (first :: rest))
                (Stats._createSalesByPeriodHistogram (config e) (first :: rest))),
          mkEngine (config e) g1)
    /\ Z.of_nat (length (first :: rest)) = Engine.trial_count (config e).
Proof.
  intros Hnew HPI HPT.
  destruct (engine_new_config input e Hnew) as (HI & HT & _ & _ & _ & Hcount).
  unfold Stats.runSimulation.
  rewrite HPI, HPT, HI, HT, !Z.eqb_refl. cbn [negb orb].
  pose proof (trials_loop_length (config e) P (JS.range 0 (Engine.trial_count (config e)))
                (Rng.reset (rng e))) as Hlen.
  rewrite range_length in Hlen.
  fold (Engine.run_trials (config e) P (Rng.reset (rng e))) in Hlen.
  destruct (Engine.run_trials (config e) P (Rng.reset (rng e))) as [rs g1].
  cbn [fst] in Hlen.
  destruct rs as [|first rest]; [simpl in Hlen; lia|].
  exists first, rest, g1. repeat split. rewrite Hlen. lia.
Qed.


End AcceptedRuns.


(** ** Averages of revenues and prices *)

Section AverageBounds.
Context {F : Float64} {L : Float64Laws F}.

Lemma fold_fadd_between (A B : Z) (arr : list Z) :
  forall (s : Z) (qs : Q),
  (qs == inject_Z s)%Q -> 0 <= s -> 0 <= A ->
  (forall x, In x arr -> A <= x <= B) ->
  s + B * Z.of_nat (length arr) <= 2 ^ 53 ->
  exists (q : Q) (total : Z),
    fold_left (fun sum val => Stats.fadd sum val) (map Stats.of_Z arr) (Some qs) = Some q
    /\ (q == inject_Z total)%Q
    /\ s + A * Z.of_nat (length arr) <= total <= s + B * Z.of_nat (length arr).
Proof.
  induction arr as [|x arr IH]; intros s qs Hqs Hs HA Hall Hbound.
  - exists qs, s. simpl. repeat split; auto; lia.
  - assert (Hx : A <= x <= B) by (apply Hall; left; reflexivity).
    cbn [map fold_left Stats.fadd Stats.of_Z].
    change (length (x :: arr)) with (S (length arr)) in *.
    rewrite Nat2Z.inj_succ, !Z.mul_succ_r in *.
    assert (0 <= B * Z.of_nat (length arr)) by nia.
    destruct (IH (s + x) (rnd (qs + inject_Z x)%Q)) as (q & total & Hq & Heq & Ht).
    + apply Qeq_trans with (rnd (inject_Z (s + x))); [|apply rnd_int; lia].
      apply rnd_proper. rewrite Hqs, inject_Z_plus. reflexivity.
    + lia.
    + exact HA.
    + intros y Hy. apply Hall. right. exact Hy.
    + lia.
    + exists q, total. repeat split; auto; lia.
Qed.

Lemma mean_between (A B : Z) (arr : list Z) :
  arr <> [] -> 0 <= A ->
  (forall x, In x arr -> A <= x <= B) ->
  B * Z.of_nat (length arr) <= 2 ^ 53 ->
  exists q, Stats._mean (map Stats.of_Z arr) = Some q
            /\ (inject_Z A <= q <= inject_Z B)%Q.
Proof.
  intros Hne HA Hall Hbound. unfold Stats._mean.
  assert (HAB : A <= B).
  { destruct arr as [|x arr]; [congruence|]. specialize (Hall x (or_introl eq_refl)). lia. }
  destruct (fold_fadd_between A B arr 0 0%Q) as (q & total & Hq & Heq & Ht);
    [reflexivity|lia|exact HA|exact Hall|lia|].
  unfold Stats.of_Z at 2. change (inject_Z 0) with 0%Q. rewrite Hq.
  rewrite length_map. unfold Stats.fdiv, Stats.of_Z.
  assert (Hlen : 0 < Z.of_nat (length arr)) by (destruct arr; [congruence|simpl; lia]).
  assert (Hlenq : (0 < inject_Z (Z.of_nat (length arr)))%Q).
  { change 0%Q with (inject_Z 0). rewrite <- Zlt_Qlt. exact Hlen. }
  destruct (Qeq_bool (inject_Z (Z.of_nat (length arr))) 0) eqn:E.
  { apply Qeq_bool_eq in E. rewrite E in Hlenq. discriminate. }
  eexists. split; [reflexivity|].
  assert (H0 : (inject_Z A <= q / inject_Z (Z.of_nat (length arr)))%Q).
  { apply Qle_shift_div_l; [exact Hlenq|].
    rewrite Heq, <- inject_Z_mult, <- Zle_Qle. lia. }
  assert (H1 : (q / inject_Z (Z.of_nat (length arr)) <= inject_Z B)%Q).
  { apply Qle_shift_div_r; [exact Hlenq|].
    rewrite Heq, <- inject_Z_mult, <- Zle_Qle. lia. }
  assert (HB53 : B <= 2 ^ 53) by nia.
  split.
  - apply Qle_trans with (rnd (inject_Z A)); [|apply rnd_mono; exact H0].
    apply Qle_lteq. right. apply Qeq_sym, rnd_int. lia.
  - apply Qle_trans with (rnd (inject_Z B)); [apply rnd_mono; exact H1|].
    apply Qle_lteq. right. apply rnd_int. lia.
Qed.

Lemma summarized_revenues (cfg : Config) (trs : list SimulationState) :
  Forall (summarized cfg) trs ->
  exists values : list Z,
    map (fun result => to_number (revenue result)) trs = map Stats.of_Z values
    /\ length values = length trs
    /\ forall x, In x values -> 0 <= x <= 50000 * cfg_I cfg.
Proof.
  induction trs as [|st trs IH]; intros H.
  - exists []. split; [reflexivity|]. split; [reflexivity|]. intros y Hy. destruct Hy.
  - inversion H as [|st' trs' (vs & _ & Hc & Hn & Hr & Hb & _) Hrest]; subst.
    destruct (IH Hrest) as (values & Hv & Hlen & Hall).
    exists (Zsum vs :: values). cbn [map]. rewrite Hv, Hr.
    split; [reflexivity|]. split; [simpl; congruence|].
    intros y [<-|Hy]; [|apply Hall; exact Hy].
    pose proof (canonical_sum_bounds vs Hc). nia.
Qed.

Lemma summarized_sales_bound (cfg : Config) (trs : list SimulationState) :
  Forall (summarized cfg) trs ->
  Zsum (map salesCount trs) <= cfg_I cfg * Z.of_nat (length trs).
Proof.
  induction trs as [|st trs IH]; intros H; [unfold Zsum; simpl; lia|].
  inversion H as [|st' trs' (vs & _ & _ & _ & _ & Hb & _) Hrest]; subst.
  specialize (IH Hrest). unfold Zsum in *. cbn [map fold_right length].
  rewrite Nat2Z.inj_succ, Z.mul_succ_r. lia.
Qed.

(** With a seed that is not negative and at most 2^32 trials, for any rounding
    that is monotone and exact on the integers up to 2^53: the average
    revenue is a number between 0 and 7 x 50000 = 350000, never NaN; and the
    average price is 0 when no trial sold anything, and otherwise a number
    between 30000 and 50000. *)
Theorem average_revenue_and_price_bounds (input : ConfigInput) (e : SimulationEngine)
    (P : PolicyMatrix) :
  Engine.new input = Ok e ->
  0 <= cfg_seed (config e) ->
  policy_I P = CONFIG.I -> policy_T P = CONFIG.T ->
  Engine.trial_count (config e) <= 2 ^ 32 ->
  exists res revenue_mean price_mean,
    fst (Stats.runSimulation e P) = Ok res
    /\ avgRevenue (aggregates res) = Some revenue_mean
    /\ (0 <= revenue_mean <= 350000 # 1)%Q
    /\ avgPrice (aggregates res) = Some price_mean
    /\ (mix_total (priceHistogram res) = 0 -> price_mean = 0%Q)
    /\ (0 < mix_total (priceHistogram res) ->
        (30000 # 1 <= price_mean <= 50000 # 1)%Q).
Proof.
  intros Hnew Hseed HPI HPT Hmax.
  destruct (engine_new_config input e Hnew) as (HI & HT & _ & _ & Hrng & _).
  assert (Hsum : Forall (summarized (config e))
                   (fst (Engine.run_trials (config e) P (Rng.reset (rng e))))).
  { apply run_trials_summarized; try congruence.
    - rewrite HI. unfold CONFIG.I. lia.
    - rewrite Hrng. simpl. exact Hseed. }
  destruct (runSimulation_ok input e P Hnew HPI HPT)
    as (first & rest & g1 & Hrun & Hres & Hcount).
  rewrite Hres, Hrun in *. cbn [fst] in *.
  set (trs := first :: rest) in *.
  destruct (summarized_revenues _ _ Hsum) as (values & Hvalues & Hvlen & Hvall).
  destruct (summarized_all _ _ Hsum) as (every & Hevery & Hcan & Helen).
  pose proof (summarized_sales_bound _ _ Hsum) as Hsales. rewrite HI in Hsales.
  destruct (mean_between 0 350000 values) as (qr & Hqr & Hqrb).
  { intros ->. simpl in Hvlen. discriminate. }
  { lia. }
  { intros x Hx. specialize (Hvall x Hx). rewrite HI in Hvall. unfold CONFIG.I in Hvall. lia. }
  { rewrite Hvlen. change (2 ^ 53) with (2 ^ 21 * 2 ^ 32). lia. }
  assert (Hprice : exists qp,
            (if 0 <? Z.of_nat (length (flat_map Stats.sold_prices trs))
             then Stats._mean (map to_number (flat_map Stats.sold_prices trs))
             else Stats.of_Z 0) = Some qp
            /\ (Z.of_nat (length every) = 0 -> qp = 0%Q)
            /\ (0 < Z.of_nat (length every) -> (30000 # 1 <= qp <= 50000 # 1)%Q)).
  { rewrite Hevery, length_map.
    destruct (Z.ltb_spec 0 (Z.of_nat (length every))) as [Hpos|Hzero].
    - rewrite map_map.
      change (map (fun x : Z => to_number (Some x)) every) with (map Stats.of_Z every).
      destruct (mean_between 30000 50000 every) as (qp & Hqp & Hqpb).
      + intros ->. simpl in Hpos. lia.
      + lia.
      + intros x Hx. rewrite Forall_forall in Hcan. specialize (Hcan x Hx).
        unfold Policy.canonical, CONFIG.LOW, CONFIG.MED, CONFIG.HIGH in Hcan. lia.
      + unfold CONFIG.I in Hsales. change (2 ^ 53) with (2 ^ 21 * 2 ^ 32). lia.
      + exists qp. split; [exact Hqp|]. split; [lia|]. intros _. exact Hqpb.
    - exists 0%Q. split; [reflexivity|]. split; [reflexivity|lia]. }
  destruct Hprice as (qp & Hqp & Hzero & Hpos).
  assert (Htotal : mix_total (Stats._createPriceHistogram trs) = Z.of_nat (length every)).
  { unfold Stats._createPriceHistogram. rewrite count_prices_tally, Hevery,
      fold_tally_counts. unfold mix_total. cbn [PriceMix.LOW PriceMix.MED PriceMix.HIGH].
    rewrite <- (sales_at_canonical every Hcan). lia. }
  eexists. exists qr, qp. split; [reflexivity|].
  cbn [aggregates priceHistogram]. rewrite Htotal.
  unfold Stats._calculateAggregates.
  destruct (Stats.last_minute_counts (config e) trs) as [lm tot].
  cbn [avgRevenue avgPrice]. rewrite Hvalues.
  split; [exact Hqr|]. split; [exact Hqrb|]. split; [exact Hqp|].
  split; [exact Hzero|exact Hpos].
Qed.

End AverageBounds.

Lemma average_revenue_and_price_bounds_witness :
  let input := mkInput (Some (20 # 1)) (Some 42) (Some 3) in
  let e := mkEngine (mkConfig 7 15 (20 # 1) 42 3) (Rng.new 42) in
  let P := mkPolicy (repeat (repeat 50000 15%nat) 7%nat) 7 15 in
  exists res revenue_mean,
    fst (@Stats.runSimulation Exact e P) = Ok res
    /\ avgRevenue (aggregates res) = Some revenue_mean
    /\ (0 <= revenue_mean <= 350000 # 1)%Q.
Proof.
  intros input e P.
  destruct (@average_revenue_and_price_bounds Exact Exact_laws input e P eq_refl)
    as (res & qr & qp & Hres & Hr & Hb & _);
    [simpl; lia|reflexivity|reflexivity|vm_compute; discriminate|].
  exists res, qr. repeat split; auto; apply Hb.
Defined.

(** ** The chart's re-run of the trials *)

Lemma chart_periods_sold_out (P : PolicyMatrix) (ts : list Z) (c : Z) (r : option Z)
    (g : RNG) :
  c <= 0 -> App.chart_periods P ts c r g = r.
Proof.
  intros Hc. destruct ts as [|t ts]; [reflexivity|].
  cbn [App.chart_periods]. destruct (Z.gtb_spec c 0); [lia|reflexivity].
Qed.

(** The loop of the chart stops at capacity 0 where the loop of the engine
    goes on without selling: the revenue is the same. *)
Lemma chart_periods_trial (P : PolicyMatrix) (ts : list Z) :
  forall (st : SimulationState) (g : RNG),
  App.chart_periods P ts (capacity st) (revenue st) g
  = revenue (fst (fold_left (fun sg t => Engine.trial_period P t sg) ts (st, g))).
Proof.
  induction ts as [|t ts IH]; intros st g; [reflexivity|].
  cbn [fold_left].
  destruct (Engine.trial_period P t (st, g)) as [st' g'] eqn:E.
  rewrite <- IH. unfold Engine.trial_period in E.
  destruct (Z.leb_spec (capacity st) 0) as [Hc|Hc].
  - injection E as <- <-. cbn [capacity revenue].
    rewrite !chart_periods_sold_out by exact Hc. reflexivity.
  - cbn [App.chart_periods]. destruct (Z.gtb_spec (capacity st) 0); [|lia].
    destruct (Rng.next g) as [u g1].
    match goal with
    | |- context [JS.Qltb ?x ?y] => destruct (JS.Qltb x y)
    end; injection E as <- <-; reflexivity.
Qed.

(** The revenue the chart computes for its trial [i] is the revenue of one
    trial of the engine run on a generator of its own, seeded [42 + i]; the
    trial identifier plays no part.  The chart's trial 0 is therefore the
    first trial of a run of an engine of seed 42. *)
Theorem chart_trial_is_fresh_engine_trial (cfg : Config) (P : PolicyMatrix)
    (i trialId : Z) :
  cfg_I cfg = CONFIG.I -> cfg_T cfg = CONFIG.T ->
  App.chart_trial P i
  = revenue (fst (Engine._runSingleTrial cfg P trialId (Rng.new (42 + i))))
  /\ (cfg_seed cfg = 42 -> 1 <= Engine.trial_count cfg ->
      nth_error (map revenue (fst (Engine.run_trials cfg P (Rng.new (cfg_seed cfg))))) 0
      = Some (App.chart_trial P 0)).
Proof.
  intros HI HT.
  assert (H : forall j k,
             App.chart_trial P j
             = revenue (fst (Engine._runSingleTrial cfg P k (Rng.new (42 + j))))).
  { intros j k. unfold App.chart_trial, Engine._runSingleTrial.
    rewrite HI, HT. apply (chart_periods_trial P (JS.range 0 15) (new_state 7)). }
  split; [apply H|].
  intros Hseed Hcount. rewrite nth_error_map.
  pose proof (run_trials_nth cfg P (Rng.new (cfg_seed cfg)) 0) as Hnth.
  change (Z.to_nat 0) with 0%nat in Hnth. rewrite Hnth by lia.
  rewrite generator_at_0, Hseed. cbn [option_map]. f_equal. symmetry. apply (H 0 0).
Qed.

Lemma chart_trial_is_fresh_engine_trial_witness :
  let cfg := mkConfig 7 15 (100 # 1) 42 3 in
  let P := mkPolicy (repeat (repeat 40000 15%nat) 7%nat) 7 15 in
  App.chart_trial P 5
  = revenue (fst (Engine._runSingleTrial cfg P 0 (Rng.new (42 + 5)))).
Proof.
  intros cfg P.
  apply (proj1 (chart_trial_is_fresh_engine_trial cfg P 5 0 eq_refl eq_refl)).
Defined.

(** ** Sales by period *)

Lemma sold_at_in_range (sales : list bool) (t : Z) :
  sold_at sales t = true -> 0 <= t < Z.of_nat (length sales).
Proof.
  unfold sold_at, JS.index. destruct (Z.ltb_spec t 0); [discriminate|].
  destruct (nth_error sales (Z.to_nat t)) eqn:E; [|discriminate].
  intros _. assert (Hlt : (Z.to_nat t < length sales)%nat)
    by (apply nth_error_Some; congruence).
  lia.
Qed.

Lemma incr_at_length (arr : list Z) : forall n, length (incr_at arr n) = length arr.
Proof.
  induction arr as [|x arr IH]; intros n; [reflexivity|].
  destruct n; simpl; [reflexivity|]. rewrite IH. reflexivity.
Qed.

Lemma incr_at_nth (arr : list Z) : forall n k,
  (k < length arr)%nat ->
  nth k (incr_at arr n) 0 = nth k arr 0 + (if (k =? n)%nat then 1 else 0).
Proof.
  induction arr as [|x arr IH]; intros n k Hk; [simpl in Hk; lia|].
  destruct n as [|n], k as [|k]; simpl; try lia.
  apply IH. simpl in Hk. lia.
Qed.

(** The loop over the periods of one trial adds one to the entries of the
    periods in which the trial sold. *)
Lemma period_loop_nth (sales : list bool) (k : nat) (n : nat) :
  forall (lo : Z) (hist : list Z),
  0 <= lo -> (k < length hist)%nat ->
  let out :=
    fold_left (fun salesByPeriod t =>
                 if sold_at sales t then incr_at salesByPeriod (Z.to_nat t)
                 else salesByPeriod)
      (JS.range lo (lo + Z.of_nat n)) hist in
  length out = length hist
  /\ nth k out 0
     = nth k hist 0
       + (if (lo <=? Z.of_nat k) && (Z.of_nat k <? lo + Z.of_nat n)
             && sold_at sales (Z.of_nat k)
          then 1 else 0).
Proof.
  induction n as [|n IH]; intros lo hist Hlo Hk out; subst out.
  - rewrite range_nil by lia. cbn [fold_left]. split; [reflexivity|].
    destruct (Z.leb_spec lo (Z.of_nat k)), (Z.ltb_spec (Z.of_nat k) (lo + Z.of_nat 0));
      cbn [andb]; lia.
  - rewrite range_cons by lia. cbn [fold_left].
    replace (lo + Z.of_nat (S n)) with (lo + 1 + Z.of_nat n) by lia.
    set (hist' := if sold_at sales lo then incr_at hist (Z.to_nat lo) else hist).
    assert (Hlen : length hist' = length hist).
    { subst hist'. destruct (sold_at sales lo); [apply incr_at_length|reflexivity]. }
    assert (Hnth : nth k hist' 0
                   = nth k hist 0
                     + (if (Z.of_nat k =? lo) && sold_at sales (Z.of_nat k)
                        then 1 else 0)).
    { subst hist'. destruct (Z.eqb_spec (Z.of_nat k) lo) as [<-|Hne]; cbn [andb].
      - destruct (sold_at sales (Z.of_nat k)); [|lia].
        rewrite incr_at_nth by exact Hk. rewrite Nat2Z.id, Nat.eqb_refl. reflexivity.
      - destruct (sold_at sales lo); [|lia].
        rewrite incr_at_nth by exact Hk.
        destruct (Nat.eqb_spec k (Z.to_nat lo)); lia. }
    destruct (IH (lo + 1) hist') as (Hl & Hn); [lia|rewrite Hlen; exact Hk|].
    split; [rewrite Hl; exact Hlen|]. rewrite Hn, Hnth.
    destruct (Z.eqb_spec (Z.of_nat k) lo), (Z.leb_spec lo (Z.of_nat k)),
      (Z.leb_spec (lo + 1) (Z.of_nat k)),
      (Z.ltb_spec (Z.of_nat k) (lo + 1 + Z.of_nat n));
      cbn [andb]; try lia; destruct (sold_at sales (Z.of_nat k)); lia.
Qed.

Lemma trials_selling_in_cons (t : Z) (st : SimulationState)
    (trs : list SimulationState) :
  trials_selling_in t (st :: trs)
  = (if sold_at (salesHistory st) t then 1 else 0) + trials_selling_in t trs.
Proof.
  unfold trials_selling_in. cbn [filter].
  destruct (sold_at (salesHistory st) t); [simpl length|]; lia.
Qed.

Lemma sales_by_period_loop (T : Z) (k : nat) (trs : list SimulationState) :
  forall hist : list Z,
  length hist = Z.to_nat T -> (k < length hist)%nat ->
  let out :=
    fold_left
      (fun salesByPeriod result =>
         fold_left
           (fun salesByPeriod t =>
              if sold_at (salesHistory result) t
              then incr_at salesByPeriod (Z.to_nat t) else salesByPeriod)
           (JS.range 0 (Z.min (Z.of_nat (length (salesHistory result))) T))
           salesByPeriod)
      trs hist in
  length out = length hist
  /\ nth k out 0 = nth k hist 0 + trials_selling_in (Z.of_nat k) trs.
Proof.
  induction trs as [|st trs IH]; intros hist Hlen Hk out; subst out.
  - cbn [fold_left]. unfold trials_selling_in. simpl. split; [reflexivity|lia].
  - cbn [fold_left].
    set (m := Z.min (Z.of_nat (length (salesHistory st))) T).
    assert (Hm : 0 <= m) by lia.
    destruct (period_loop_nth (salesHistory st) k (Z.to_nat m) 0 hist) as (Hl & Hn);
      [lia|exact Hk|].
    rewrite Z.add_0_l, Z2Nat.id in Hl, Hn by exact Hm.
    destruct (IH _ (eq_trans Hl Hlen)) as (Hl' & Hn'); [rewrite Hl; exact Hk|].
    split; [rewrite Hl'; exact Hl|].
    rewrite Hn', Hn, trials_selling_in_cons.
    assert (Hcond : (0 <=? Z.of_nat k) && (Z.of_nat k <? m)
                    && sold_at (salesHistory st) (Z.of_nat k)
                    = sold_at (salesHistory st) (Z.of_nat k)).
    { destruct (sold_at (salesHistory st) (Z.of_nat k)) eqn:E;
        [|rewrite andb_false_r; reflexivity].
      apply sold_at_in_range in E.
      destruct (Z.leb_spec 0 (Z.of_nat k)), (Z.ltb_spec (Z.of_nat k) m);
        cbn [andb]; try reflexivity; lia. }
    rewrite Hcond. lia.
Qed.

Lemma trials_selling_in_bounds (t : Z) (trs : list SimulationState) :
  0 <= trials_selling_in t trs <= Z.of_nat (length trs).
Proof.
  unfold trials_selling_in. pose proof (filter_length_le
    (fun st => sold_at (salesHistory st) t) trs). lia.
Qed.

(** The histogram of the sales by period has one entry per period, and the
    entry of period [t] is the number of trials whose sales history records a
    sale in [t], whatever the lengths of the histories are; so no entry
    exceeds the number of trials. *)
Theorem sales_by_period_counts (cfg : Config) (trialResults : list SimulationState) :
  let hist := Stats._createSalesByPeriodHistogram cfg trialResults in
  length hist = Z.to_nat (cfg_T cfg)
  /\ (forall t, 0 <= t < cfg_T cfg ->
        nth (Z.to_nat t) hist 0 = trials_selling_in t trialResults
        /\ 0 <= nth (Z.to_nat t) hist 0 <= Z.of_nat (length trialResults)).
Proof.
  intros hist. subst hist. unfold Stats._createSalesByPeriodHistogram.
  split.
  - destruct (Z.to_nat (cfg_T cfg)) as [|n] eqn:E.
    + cbn [repeat]. clear. induction trialResults as [|st trs IH]; [reflexivity|].
      cbn [fold_left].
      replace (fold_left _ (JS.range 0 _) []) with (@nil Z); [exact IH|].
      induction (JS.range 0 (Z.min (Z.of_nat (length (salesHistory st))) (cfg_T cfg)))
        as [|t ts IHt]; [reflexivity|].
      cbn [fold_left]. destruct (sold_at (salesHistory st) t); exact IHt.
    + rewrite <- E.
      destruct (sales_by_period_loop (cfg_T cfg) 0 trialResults
                  (repeat 0 (Z.to_nat (cfg_T cfg)))) as (Hl & _);
        [apply repeat_length|rewrite repeat_length; lia|].
      rewrite Hl. apply repeat_length.
  - intros t Ht.
    destruct (sales_by_period_loop (cfg_T cfg) (Z.to_nat t) trialResults
                (repeat 0 (Z.to_nat (cfg_T cfg)))) as (_ & Hn);
      [apply repeat_length|rewrite repeat_length; lia|].
    rewrite Z2Nat.id in Hn by lia. rewrite Hn, nth_repeat.
    pose proof (trials_selling_in_bounds t trialResults). lia.
Qed.

Lemma sales_by_period_counts_witness :
  let cfg := mkConfig 7 15 (3 # 1) 42 3 in
  let trs := fst (Engine.run_trials cfg
                   (mkPolicy (repeat (repeat 30000 15%nat) 7%nat) 7 15) (Rng.new 42)) in
  nth 2 (Stats._createSalesByPeriodHistogram cfg trs) 0 = trials_selling_in 2 trs.
Proof.
  intros cfg trs.
  apply (proj2 (sales_by_period_counts cfg trs) 2). simpl. lia.
Defined.

(** ** The last-minute share *)

Lemma last_minute_inner (sales : list bool) (ts : list Z) :
  forall lm tot : Z,
  fold_left
    (fun (counts : Z * Z) t =>
       let (lastMinuteSales, totalSales) := counts in
       let len := Z.of_nat (length sales) in
       let lastMinuteSales' :=
         if (t <? len) && sold_at sales t
         then lastMinuteSales + 1 else lastMinuteSales in
       let totalSales' := if t <? len then totalSales + 1 else totalSales in
       (lastMinuteSales', totalSales'))
    ts (lm, tot)
  = (lm + Z.of_nat (length (filter (sold_at sales) ts)),
     tot + Z.of_nat (length (filter (fun t => t <? Z.of_nat (length sales)) ts))).
Proof.
  induction ts as [|t ts IH]; intros lm tot.
  - simpl. f_equal; lia.
  - cbn [fold_left filter]. rewrite IH.
    destruct (sold_at sales t) eqn:Es.
    + apply sold_at_in_range in Es.
      destruct (Z.ltb_spec t (Z.of_nat (length sales))); [|lia].
      cbn [andb length]. f_equal; lia.
    + rewrite andb_false_r.
      destruct (Z.ltb_spec t (Z.of_nat (length sales))); cbn [length]; f_equal; lia.
Qed.

Lemma last_minute_outer (cfg : Config) (trs : list SimulationState) :
  forall lm tot : Z,
  fold_left
    (fun counts result =>
       fold_left
         (fun (counts : Z * Z) t =>
            let (lastMinuteSales, totalSales) := counts in
            let len := Z.of_nat (length (salesHistory result)) in
            let lastMinuteSales' :=
              if (t <? len) && sold_at (salesHistory result) t
              then lastMinuteSales + 1 else lastMinuteSales in
            let totalSales' := if t <? len then totalSales + 1 else totalSales in
            (lastMinuteSales', totalSales'))
         (JS.range (cfg_T cfg - cfg_lastMinuteK cfg) (cfg_T cfg)) counts)
    trs (lm, tot)
  = (lm + Zsum (map (last_minute_sold cfg) trs),
     tot + Zsum (map (last_minute_slots cfg) trs)).
Proof.
  induction trs as [|st trs IH]; intros lm tot.
  - unfold Zsum. simpl. f_equal; lia.
  - cbn [fold_left]. rewrite last_minute_inner, IH.
    unfold Zsum, last_minute_sold, last_minute_slots. cbn [map fold_right].
    f_equal; lia.
Qed.

Lemma last_minute_counts_sums (cfg : Config) (trs : list SimulationState) :
  Stats.last_minute_counts cfg trs
  = (Zsum (map (last_minute_sold cfg) trs), Zsum (map (last_minute_slots cfg) trs)).
Proof. unfold Stats.last_minute_counts. rewrite last_minute_outer. reflexivity. Qed.

Lemma last_minute_sold_le_slots (cfg : Config) (st : SimulationState) :
  0 <= last_minute_sold cfg st <= last_minute_slots cfg st.
Proof.
  unfold last_minute_sold, last_minute_slots.
  split; [lia|]. apply inj_le.
  induction (JS.range (cfg_T cfg - cfg_lastMinuteK cfg) (cfg_T cfg)) as [|t ts IH];
    [simpl; lia|].
  cbn [filter]. destruct (sold_at (salesHistory st) t) eqn:Es.
  - apply sold_at_in_range in Es.
    destruct (Z.ltb_spec t (Z.of_nat (length (salesHistory st)))); [|lia].
    simpl length. lia.
  - destruct (t <? Z.of_nat (length (salesHistory st))); simpl length; lia.
Qed.

Lemma last_minute_sums_ordered (cfg : Config) (trs : list SimulationState) :
  0 <= Zsum (map (last_minute_sold cfg) trs) <= Zsum (map (last_minute_slots cfg) trs).
Proof.
  induction trs as [|st trs IH]; [unfold Zsum; simpl; lia|].
  unfold Zsum in *. cbn [map fold_right].
  pose proof (last_minute_sold_le_slots cfg st). lia.
Qed.

Lemma last_minute_slots_full (cfg : Config) (st : SimulationState) :
  0 <= cfg_lastMinuteK cfg <= cfg_T cfg ->
  Z.of_nat (length (salesHistory st)) = cfg_T cfg ->
  last_minute_slots cfg st = cfg_lastMinuteK cfg.
Proof.
  intros HK Hlen. unfold last_minute_slots.
  rewrite forallb_filter_id.
  - rewrite range_length. lia.
  - apply forallb_forall. intros t Ht. apply range_In in Ht.
    apply Z.ltb_lt. lia.
Qed.

Section LastMinute.
Context {F : Float64} {L : Float64Laws F}.

Lemma fdiv_share (a b : Z) :
  0 <= a <= b -> 0 < b ->
  exists q, Stats.fdiv (Stats.of_Z a) (Stats.of_Z b) = Some q /\ (0 <= q <= 1)%Q.
Proof.
  intros Ha Hb. unfold Stats.fdiv, Stats.of_Z.
  assert (Hbq : (0 < inject_Z b)%Q).
  { change 0%Q with (inject_Z 0). rewrite <- Zlt_Qlt. exact Hb. }
  destruct (Qeq_bool (inject_Z b) 0) eqn:E.
  { apply Qeq_bool_eq in E. rewrite E in Hbq. discriminate. }
  eexists. split; [reflexivity|].
  assert (H0 : (inject_Z 0 <= inject_Z a / inject_Z b)%Q).
  { apply Qle_shift_div_l; [exact Hbq|].
    rewrite <- inject_Z_mult, <- Zle_Qle. lia. }
  assert (H1 : (inject_Z a / inject_Z b <= inject_Z 1)%Q).
  { apply Qle_shift_div_r; [exact Hbq|].
    rewrite <- inject_Z_mult, <- Zle_Qle. lia. }
  split.
  - apply Qle_trans with (rnd (inject_Z 0)); [|apply rnd_mono; exact H0].
    apply Qle_lteq. right. apply Qeq_sym, rnd_int. simpl. lia.
  - apply Qle_trans with (rnd (inject_Z 1)); [apply rnd_mono; exact H1|].
    apply Qle_lteq. right. apply rnd_int. simpl. lia.
Qed.

(** For any list of trial states, and any rounding that is monotone and exact
    on 0 and 1: the last-minute share is a number in [0, 1], never NaN.  Its
    numerator is the number of sales recorded in the final [lastMinuteK]
    periods; its denominator counts those periods themselves, trial by trial,
    not the sales: [lastMinuteK] times the number of trials when every history
    has [T] entries.  With a [lastMinuteK] that is not positive the share is
    0. *)
Theorem last_minute_share_bounded (cfg : Config) (trialResults : list SimulationState) :
  exists q,
    lastMinuteShare (Stats._calculateAggregates cfg trialResults) = Some q
    /\ (0 <= q <= 1)%Q
    /\ Stats.last_minute_counts cfg trialResults
       = (Zsum (map (last_minute_sold cfg) trialResults),
          Zsum (map (last_minute_slots cfg) trialResults))
    /\ (cfg_lastMinuteK cfg <= 0 -> q = 0%Q)
    /\ (0 <= cfg_lastMinuteK cfg <= cfg_T cfg ->
        Forall (fun st => Z.of_nat (length (salesHistory st)) = cfg_T cfg)
          trialResults ->
        snd (Stats.last_minute_counts cfg trialResults)
        = cfg_lastMinuteK cfg * Z.of_nat (length trialResults)).
Proof.
  pose proof (last_minute_counts_sums cfg trialResults) as Hcounts.
  pose proof (last_minute_sums_ordered cfg trialResults) as Hord.
  unfold Stats._calculateAggregates. rewrite Hcounts. cbn [lastMinuteShare].
  set (lm := Zsum (map (last_minute_sold cfg) trialResults)) in *.
  set (tot := Zsum (map (last_minute_slots cfg) trialResults)) in *.
  assert (Hfull : 0 <= cfg_lastMinuteK cfg <= cfg_T cfg ->
                  Forall (fun st => Z.of_nat (length (salesHistory st)) = cfg_T cfg)
                    trialResults ->
                  tot = cfg_lastMinuteK cfg * Z.of_nat (length trialResults)).
  { intros HK Hall. subst tot. clear - HK Hall.
    induction Hall as [|st trs Hst Hall IH]; [unfold Zsum; simpl; lia|].
    unfold Zsum in *. cbn [map fold_right length].
    rewrite IH, (last_minute_slots_full cfg st HK Hst). lia. }
  assert (Hnone : cfg_lastMinuteK cfg <= 0 -> tot = 0).
  { intros HK. subst tot. clear - HK.
    induction trialResults as [|st trs IH]; [reflexivity|].
    unfold Zsum in *. cbn [map fold_right]. rewrite IH.
    unfold last_minute_slots. rewrite range_nil by lia. reflexivity. }
  destruct (Z.ltb_spec 0 tot) as [Hpos|Hzero].
  - destruct (fdiv_share lm tot Hord Hpos) as (q & Hq & Hb).
    exists q. split; [exact Hq|]. split; [exact Hb|]. split; [reflexivity|].
    split; [intros HK; specialize (Hnone HK); lia|].
    intros HK Hall. cbn [snd]. apply Hfull; assumption.
  - exists 0%Q. split; [reflexivity|]. split; [split; discriminate|].
    split; [reflexivity|]. split; [reflexivity|].
    intros HK Hall. cbn [snd]. apply Hfull; assumption.
Qed.

End LastMinute.

Lemma last_minute_share_bounded_witness :
  let cfg := mkConfig 7 15 (3 # 1) 42 3 in
  let trs := fst (Engine.run_trials cfg
                   (mkPolicy (repeat (repeat 30000 15%nat) 7%nat) 7 15) (Rng.new 42)) in
  snd (@Stats.last_minute_counts cfg trs) = 3 * 3.
Proof.
  intros cfg trs.
  destruct (@last_minute_share_bounded Exact Exact_laws cfg trs)
    as (q & _ & _ & _ & _ & Hfull).
  apply Hfull; [simpl; lia|]. vm_compute. repeat constructor.
Defined.

(** ** When [runSimulation] throws *)

Section Guard.
Context {F : Float64}.


End Guard.


(** ** Settings that are absent or zero *)

(** The constructor reads each setting with [||], so a setting of 0 is
    replaced like an absent one: a seed of 0 runs as seed 42, a [lastMinuteK]
    of 0 as 3, a trials count of 0 as 10000.  No accepted engine therefore has
    seed 0, [lastMinuteK] 0 or no trials, and its generator starts at its
    seed.  A negative [lastMinuteK] is not rejected. *)
Theorem zero_settings_take_defaults (trials : option Q) (seed lastMinuteK : option Z) :
  Engine.new (mkInput trials (Some 0) lastMinuteK)
  = Engine.new (mkInput trials (Some 42) lastMinuteK)
  /\ Engine.new (mkInput trials None lastMinuteK)
     = Engine.new (mkInput trials (Some 42) lastMinuteK)
  /\ Engine.new (mkInput trials seed (Some 0)) = Engine.new (mkInput trials seed (Some 3))
  /\ Engine.new (mkInput trials seed None) = Engine.new (mkInput trials seed (Some 3))
  /\ Engine.new (mkInput (Some 0%Q) seed lastMinuteK)
     = Engine.new (mkInput (Some (10000 # 1)) seed lastMinuteK)
  /\ Engine.new (mkInput None seed lastMinuteK)
     = Engine.new (mkInput (Some (10000 # 1)) seed lastMinuteK)
  /\ (forall e,
        Engine.new (mkInput trials seed lastMinuteK) = Ok e ->
        cfg_seed (config e) <> 0 /\ cfg_lastMinuteK (config e) <> 0
        /\ (0 < cfg_trials (config e))%Q
        /\ rng e = mkRNG (cfg_seed (config e)) (cfg_seed (config e)))
  /\ (forall k,
        lastMinuteK = Some k -> k < 0 ->
        (exists e, Engine.new (mkInput trials seed lastMinuteK) = Ok e
                   /\ cfg_lastMinuteK (config e) = k)
        \/ Engine.new (mkInput trials seed lastMinuteK)
           = Throw "Number of trials must be positive").
Proof.
  repeat match goal with |- _ /\ _ => split end; try reflexivity.
  - intros e Hnew.
    destruct (engine_new_config _ e Hnew) as (_ & _ & Htrials & _ & Hrng & _).
    unfold Engine.new in Hnew.
    destruct (Engine._validateConfig _); [|discriminate].
    injection Hnew as <-. cbn [config rng cfg_seed cfg_lastMinuteK cfg_trials] in *.
    cbn [in_seed in_lastMinuteK in_trials].
    repeat split; try exact Htrials.
    + unfold JS.or_default_Z. destruct seed as [s|]; [|discriminate].
      destruct (Z.eqb_spec s 0); [discriminate|assumption].
    + unfold JS.or_default_Z. destruct lastMinuteK as [k|]; [|discriminate].
      destruct (Z.eqb_spec k 0); [discriminate|assumption].
  - intros k -> Hk. unfold Engine.new, Engine._validateConfig.
    cbn [cfg_I cfg_T cfg_trials cfg_lastMinuteK in_trials in_seed in_lastMinuteK].
    change ((CONFIG.I <=? 0) || (CONFIG.T <=? 0)) with false. cbv iota.
    destruct (Qle_bool _ 0); [right; reflexivity|]. left.
    unfold JS.or_default_Z at 1. destruct (Z.eqb_spec k 0); [lia|].
    destruct (Z.gtb_spec k CONFIG.T) as [Hgt|_]; [unfold CONFIG.T in Hgt; lia|].
    eexists. split; [reflexivity|]. cbn [config cfg_lastMinuteK].
    unfold JS.or_default_Z. destruct (Z.eqb_spec k 0); [lia|reflexivity].
Qed.

Lemma zero_settings_take_defaults_witness :
  exists e, Engine.new (mkInput (Some (100 # 1)) (Some 0) (Some (-2))) = Ok e
            /\ cfg_seed (config e) <> 0.
Proof.
  exists (mkEngine (mkConfig 7 15 (100 # 1) 42 (-2)) (Rng.new 42)).
  split; [reflexivity|].
  apply (zero_settings_take_defaults (Some (100 # 1)) (Some 0) (Some (-2))).
  reflexivity.
Defined.

(** ** The two ways a policy reaches the engine *)

Lemma split_not_nil (sep : ascii) (s : string) : Str.split sep s <> [].
Proof.
  destruct s as [|ch s]; simpl; [discriminate|].
  destruct (Ascii.eqb ch sep); [discriminate|].
  destruct (Str.split sep s); discriminate.
Qed.

Lemma parseCSV_not_empty (text : string) :
  CSVProcessor.parseCSV text <> []
  /\ Forall (fun row => row <> []) (CSVProcessor.parseCSV text).
Proof.
  unfold CSVProcessor.parseCSV. split.
  - intros H. apply map_eq_nil in H. exact (split_not_nil _ _ H).
  - apply Forall_forall. intros row Hin. apply in_map_iff in Hin.
    destruct Hin as (line & <- & _). intros H. apply map_eq_nil in H.
    exact (split_not_nil _ _ H).
Qed.

(** The converse of [valid_grid_shape]. *)
Lemma shape_valid (grid : list (list string)) :
  Z.of_nat (length grid) = CONFIG.I ->
  (forall row, In row grid -> Z.of_nat (length row) = CONFIG.T) ->
  (forall row cell, In row grid -> In cell row ->
     CSVProcessor._isValidPriceLevel cell = true) ->
  CSVProcessor.valid (CSVProcessor.validateMatrix grid) = true.
Proof.
  intros Hrows Hcols Hcells. apply validate_valid_iff.
  destruct (CSVProcessor.errors (CSVProcessor.validateMatrix grid)) as [|e es] eqn:E;
    [reflexivity|].
  exfalso.
  assert (Hin : In e (CSVProcessor.errors (CSVProcessor.validateMatrix grid)))
    by (rewrite E; left; reflexivity).
  apply validate_errors_iff in Hin.
  destruct Hin as [(Hne & _)|[(i & row & Hi & Hne & _)|(i & j & row & cell & Hi & Hj & Hv & _)]].
  - contradiction.
  - apply Hne, Hcols. eapply nth_error_In; eassumption.
  - rewrite (Hcells row cell) in Hv; [discriminate| |];
      eapply nth_error_In; eassumption.
Qed.

Lemma range_nth (lo hi : Z) (k : nat) :
  Z.of_nat k < hi - lo -> nth_error (JS.range lo hi) k = Some (lo + Z.of_nat k).
Proof.
  intros Hk. unfold JS.range. rewrite nth_error_map.
  rewrite (nth_error_nth' _ 0%nat) by (rewrite length_seq; lia).
  rewrite seq_nth by lia. reflexivity.
Qed.

Lemma playground_grid_valid (grid : Z -> Z -> App.CellClasses) :
  CSVProcessor.valid (CSVProcessor.validateMatrix (App.getPlaygroundMatrix grid)) = true.
Proof.
  apply shape_valid; unfold App.getPlaygroundMatrix.
  - rewrite length_map, range_length. reflexivity.
  - intros row Hin. apply in_map_iff in Hin. destruct Hin as (i & <- & _).
    rewrite length_map, range_length. reflexivity.
  - intros row cell Hrow Hcell. apply in_map_iff in Hrow.
    destruct Hrow as (i & <- & _). apply in_map_iff in Hcell.
    destruct Hcell as (t & <- & _). unfold App.cell_value.
    destruct (App.has_low (grid i t)), (App.has_med (grid i t)),
      (App.has_high (grid i t)); reflexivity.
Qed.

Lemma error_text_head (errors : list CSVProcessor.ValidationError) :
  exists rest, App.error_text errors = String "C"%char rest.
Proof. unfold App.error_text. simpl. eexists. reflexivity. Qed.

Lemma valid_cell_cases (cell : string) :
  CSVProcessor._isValidPriceLevel cell = true -> In cell CSVProcessor.validValues.
Proof.
  unfold CSVProcessor._isValidPriceLevel. intros H.
  apply existsb_exists in H. destruct H as (v & Hin & Heq).
  apply String.eqb_eq in Heq. subst v. exact Hin.
Qed.

(** A cell populated from a valid value reads back as a value of the same
    price. *)
Lemma populated_cell_price (cell : string) :
  CSVProcessor._isValidPriceLevel cell = true ->
  CSVProcessor.cell_price (App.cell_value (App.populated_classes cell))
  = CSVProcessor.cell_price cell.
Proof.
  intros H. apply valid_cell_cases in H. unfold CSVProcessor.validValues in H.
  repeat (destruct H as [<-|H]; [reflexivity|]). contradiction.
Qed.

Lemma all_cells_In (i t : Z) :
  In (i, t) App.all_cells <-> 0 <= i < CONFIG.I /\ 0 <= t < CONFIG.T.
Proof.
  unfold App.all_cells. rewrite in_flat_map. split.
  - intros (i' & Hi & Hin). apply in_map_iff in Hin.
    destruct Hin as (t' & Heq & Ht). injection Heq as -> ->.
    apply range_In in Hi. apply range_In in Ht. split; assumption.
  - intros (Hi & Ht). exists i. split; [apply range_In; exact Hi|].
    apply in_map_iff. exists t. split; [reflexivity|apply range_In; exact Ht].
Qed.

(** The loop over the cells, when the matrix has an entry for each of them:
    nothing throws, each visited cell shows its entry and the others are
    left alone. *)
Lemma populate_cells_defined (matrix : list (list string)) (todo : list (Z * Z)) :
  forall grid : Z -> Z -> App.CellClasses,
  (forall i t, In (i, t) todo -> exists v, App.entry matrix i t = Some v) ->
  snd (App.populate_cells matrix todo grid) = None
  /\ (forall i t v,
        In (i, t) todo -> App.entry matrix i t = Some v ->
        fst (App.populate_cells matrix todo grid) i t = App.populated_classes v)
  /\ (forall i t,
        ~ In (i, t) todo -> fst (App.populate_cells matrix todo grid) i t = grid i t).
Proof.
  assert (Hdec : forall x y : Z * Z, {x = y} + {x <> y})
    by (decide equality; apply Z.eq_dec).
  induction todo as [|[i0 t0] rest IH]; intros grid Hdef.
  - simpl. split; [reflexivity|]. split; [intros; contradiction|reflexivity].
  - destruct (Hdef i0 t0 (or_introl eq_refl)) as (v0 & Hv0).
    cbn [App.populate_cells]. unfold App.entry in Hv0.
    destruct (JS.index matrix i0) as [row|] eqn:Erow; [|discriminate].
    rewrite Hv0.
    destruct (IH (App.set_cell grid i0 t0 (App.populated_classes v0)))
      as (Hnone & Hin & Hout); [intros; apply Hdef; right; assumption|].
    split; [exact Hnone|]. split.
    + intros i t v Hit Hv.
      destruct (in_dec Hdec (i, t) rest) as [Hrest|Hrest]; [apply Hin; assumption|].
      destruct Hit as [Heq|Hit]; [|contradiction].
      injection Heq as <- <-. rewrite Hout by exact Hrest.
      unfold App.set_cell. rewrite !Z.eqb_refl. cbn [andb].
      unfold App.entry in Hv. rewrite Erow in Hv. congruence.
    + intros i t Hnot. rewrite Hout by (intros H; apply Hnot; right; exact H).
      unfold App.set_cell.
      destruct (Z.eqb_spec i i0) as [->|]; [|reflexivity].
      destruct (Z.eqb_spec t t0) as [->|]; [|reflexivity].
      exfalso. apply Hnot. left. reflexivity.
Qed.

Lemma valid_grid_entries (matrix : list (list string)) (i t : Z) :
  CSVProcessor.valid (CSVProcessor.validateMatrix matrix) = true ->
  0 <= i < CONFIG.I -> 0 <= t < CONFIG.T ->
  exists v, App.entry matrix i t = Some v
            /\ CSVProcessor._isValidPriceLevel v = true.
Proof.
  intros Hv Hi Ht. destruct (valid_grid_shape matrix Hv) as (Hrows & Hcols & Hcells).
  destruct (index_in_range matrix i) as (row & Hrow & Hin); [lia|].
  destruct (index_in_range row t) as (v & Hcell & Hinv);
    [rewrite (Hcols row Hin); lia|].
  exists v. split; [unfold App.entry; rewrite Hrow; exact Hcell|].
  eapply Hcells; eassumption.
Qed.

Lemma map_range_nth {A : Type} (f : Z -> A) (l : list A) :
  forall lo : Z,
  (forall k x, nth_error l k = Some x -> f (lo + Z.of_nat k) = x) ->
  map f (JS.range lo (lo + Z.of_nat (length l))) = l.
Proof.
  induction l as [|a l IH]; intros lo H.
  - simpl. rewrite range_nil by lia. reflexivity.
  - rewrite range_cons by (simpl length; lia). cbn [map]. f_equal.
    + rewrite <- (H 0%nat a eq_refl). f_equal. lia.
    + replace (lo + Z.of_nat (length (a :: l))) with (lo + 1 + Z.of_nat (length l))
        by (simpl length; lia).
      apply IH. intros k x Hk.
      replace (lo + 1 + Z.of_nat k) with (lo + Z.of_nat (S k)) by lia.
      apply H. exact Hk.
Qed.

(** A grid that shows the entries of a validated matrix gives, through
    [proceedToSimulate], the policy of that matrix. *)
Lemma populated_grid_policy (matrix : list (list string))
    (grid : Z -> Z -> App.CellClasses) :
  CSVProcessor.valid (CSVProcessor.validateMatrix matrix) = true ->
  (forall i t v,
     0 <= i < CONFIG.I -> 0 <= t < CONFIG.T -> App.entry matrix i t = Some v ->
     grid i t = App.populated_classes v) ->
  App.proceedToSimulate grid = CSVProcessor.convertToPriceMatrix matrix.
Proof.
  intros Hv Hgrid. destruct (valid_grid_shape matrix Hv) as (Hrows & Hcols & Hcells).
  unfold App.proceedToSimulate, CSVProcessor.convertToPriceMatrix,
    App.getPlaygroundMatrix. f_equal.
  rewrite map_map.
  replace CONFIG.I with (0 + Z.of_nat (length (map (map CSVProcessor.cell_price) matrix)))
    by (rewrite length_map; lia).
  apply map_range_nth. intros k prices Hk. rewrite Z.add_0_l.
  rewrite nth_error_map in Hk.
  destruct (nth_error matrix k) as [row|] eqn:Erow; [|discriminate].
  injection Hk as <-.
  assert (Hin : In row matrix) by (eapply nth_error_In; eassumption).
  assert (Hk7 : (k < length matrix)%nat) by (apply nth_error_Some; congruence).
  rewrite map_map.
  replace CONFIG.T with (0 + Z.of_nat (length (map CSVProcessor.cell_price row)))
    by (rewrite length_map, (Hcols row Hin); lia).
  apply map_range_nth. intros j price Hj. rewrite Z.add_0_l.
  rewrite nth_error_map in Hj.
  destruct (nth_error row j) as [v|] eqn:Ecell; [|discriminate].
  injection Hj as <-.
  assert (Hj15 : (j < length row)%nat) by (apply nth_error_Some; congruence).
  rewrite (Hgrid (Z.of_nat k) (Z.of_nat j) v).
  - apply populated_cell_price. eapply Hcells; [exact Hin|].
    eapply nth_error_In; eassumption.
  - lia.
  - rewrite <- (Hcols row Hin). lia.
  - unfold App.entry. rewrite index_of_nat, Erow, index_of_nat. exact Ecell.
Qed.

(** The handler on a text whose grid validates. *)
Lemma processCSVFile_valid (text : string) (page : App.Page) :
  CSVProcessor.valid (CSVProcessor.validateMatrix (CSVProcessor.parseCSV text)) = true ->
  exists P grid,
    CSVProcessor.convertToPriceMatrix (CSVProcessor.parseCSV text) = Ok P
    /\ App.processCSVFile text page
       = (App.mkPage (Some P) grid, App.Success "CSV loaded successfully! Grid updated.")
    /\ App.proceedToSimulate grid = Ok P
    /\ (forall i t v,
          0 <= i < CONFIG.I -> 0 <= t < CONFIG.T ->
          App.entry (CSVProcessor.parseCSV text) i t = Some v ->
          grid i t = App.populated_classes v)
    /\ (forall i t,
          ~ (0 <= i < CONFIG.I /\ 0 <= t < CONFIG.T) -> grid i t = App.cells page i t).
Proof.
  intros Hv. destruct (validated_grid_policy _ Hv) as (P & HP & _).
  destruct (populate_cells_defined (CSVProcessor.parseCSV text) App.all_cells
              (App.cells page)) as (Hnone & Hin & Hout).
  { intros i t Hit. apply all_cells_In in Hit. destruct Hit as (Hi & Ht).
    destruct (valid_grid_entries _ i t Hv Hi Ht) as (v & Hentry & _). eauto. }
  fold (App.populateGridFromMatrix (CSVProcessor.parseCSV text) (App.cells page))
    in Hnone, Hin, Hout.
  assert (Hcells : forall i t v,
            0 <= i < CONFIG.I -> 0 <= t < CONFIG.T ->
            App.entry (CSVProcessor.parseCSV text) i t = Some v ->
            fst (App.populateGridFromMatrix (CSVProcessor.parseCSV text) (App.cells page))
              i t = App.populated_classes v).
  { intros i t v Hi Ht. apply Hin. apply all_cells_In. split; assumption. }
  exists P, (fst (App.populateGridFromMatrix (CSVProcessor.parseCSV text)
                    (App.cells page))).
  split; [exact HP|]. split; [|split; [|split]].
  - unfold App.processCSVFile. rewrite Hv, HP.
    destruct (App.populateGridFromMatrix _ _) as [grid [msg|]];
      [discriminate|reflexivity].
  - rewrite <- HP. apply populated_grid_policy; assumption.
  - exact Hcells.
  - intros i t Hnot. apply Hout. intros Hit. apply Hnot. apply all_cells_In. exact Hit.
Qed.

(** The handler shows success only after storing the conversion of a grid
    that validated. *)
Lemma processCSVFile_success (text : string) (page page' : App.Page) (msg : string) :
  App.processCSVFile text page = (page', App.Success msg) ->
  CSVProcessor.valid (CSVProcessor.validateMatrix (CSVProcessor.parseCSV text)) = true
  /\ exists P, App.policyMatrix page' = Some P
               /\ CSVProcessor.convertToPriceMatrix (CSVProcessor.parseCSV text) = Ok P.
Proof.
  unfold App.processCSVFile.
  destruct (CSVProcessor.valid _) eqn:Ev; [|discriminate].
  destruct (CSVProcessor.convertToPriceMatrix _) as [Q|m]; [|discriminate].
  destruct (App.populateGridFromMatrix _ _) as [grid [m|]]; [discriminate|].
  intros H. injection H as <- _. split; [reflexivity|]. exists Q. split; reflexivity.
Qed.

(** The upload path.  The text of a file either validates: then the policy
    stored is the conversion of the parsed grid, of dimensions 7 x 15 with
    full rows and canonical prices, the strategy grid is populated from the
    parsed grid without an error, success is shown, and [proceedToSimulate]
    on the populated grid gives the stored policy again.  Or it does not:
    then the page is left as it was and the message lists the validation
    errors, of which there is at least one.  The parsed grid is never empty
    and has no empty row; the message of the [catch] branch is never shown. *)
Theorem processCSVFile_outcomes (text : string) (page : App.Page) :
  let grid := CSVProcessor.parseCSV text in
  let validation := CSVProcessor.validateMatrix grid in
  (CSVProcessor.valid validation = true ->
   exists P cells',
     App.processCSVFile text page
     = (App.mkPage (Some P) cells', App.Success "CSV loaded successfully! Grid updated.")
     /\ CSVProcessor.convertToPriceMatrix grid = Ok P
     /\ policy_I P = CONFIG.I /\ policy_T P = CONFIG.T
     /\ Policy.rectangular P /\ Policy.all_canonical P
     /\ App.proceedToSimulate cells' = Ok P
     /\ (forall i t v,
           0 <= i < CONFIG.I -> 0 <= t < CONFIG.T -> App.entry grid i t = Some v ->
           cells' i t = App.populated_classes v))
  /\ (CSVProcessor.valid validation = false ->
      App.processCSVFile text page
      = (page, App.Error (App.error_text (CSVProcessor.errors validation)))
      /\ CSVProcessor.errors validation <> [])
  /\ (forall msg,
        snd (App.processCSVFile text page)
        <> App.Error ("Error processing CSV: " ++ msg)%string)
  /\ grid <> [] /\ Forall (fun row => row <> []) grid.
Proof.
  intros grid validation.
  assert (Hvalid : CSVProcessor.valid validation = true ->
            exists P cells',
              App.processCSVFile text page
              = (App.mkPage (Some P) cells',
                 App.Success "CSV loaded successfully! Grid updated.")
              /\ CSVProcessor.convertToPriceMatrix grid = Ok P
              /\ policy_I P = CONFIG.I /\ policy_T P = CONFIG.T
              /\ Policy.rectangular P /\ Policy.all_canonical P
              /\ App.proceedToSimulate cells' = Ok P
              /\ (forall i t v,
                    0 <= i < CONFIG.I -> 0 <= t < CONFIG.T ->
                    App.entry grid i t = Some v ->
                    cells' i t = App.populated_classes v)).
  { intros Hv.
    destruct (processCSVFile_valid text page Hv)
      as (P & cells' & HP & Hrun & Hproceed & Hcells & _).
    destruct (validated_grid_policy grid Hv) as (Q & HQ & HI & HT & Hrect & Hcan).
    fold grid in HP. rewrite HP in HQ. injection HQ as <-.
    exists P, cells'. repeat (split; [assumption|]). exact Hcells. }
  assert (Hinvalid : CSVProcessor.valid validation = false ->
            App.processCSVFile text page
            = (page, App.Error (App.error_text (CSVProcessor.errors validation)))).
  { intros Hv. unfold App.processCSVFile. fold grid. fold validation. rewrite Hv.
    reflexivity. }
  destruct (parseCSV_not_empty text) as (Hne & Hrows). fold grid in Hne, Hrows.
  split; [exact Hvalid|]. split; [|split; [|split; [exact Hne|exact Hrows]]].
  - intros Hv. split; [apply Hinvalid; exact Hv|].
    intros He. apply validate_valid_iff in He. fold grid in He. fold validation in He.
    congruence.
  - intros msg. destruct (CSVProcessor.valid validation) eqn:Ev.
    + destruct (Hvalid eq_refl) as (P & cells' & -> & _). discriminate.
    + rewrite (Hinvalid eq_refl). cbn [snd].
      destruct (error_text_head (CSVProcessor.errors validation)) as (rest & ->).
      simpl. discriminate.
Qed.

Lemma processCSVFile_outcomes_witness :
  let page := App.mkPage None (fun _ _ => App.mkClasses false false false) in
  App.processCSVFile "low,med" page
  = (page,
     App.Error
       (App.error_text
          (CSVProcessor.errors
             (CSVProcessor.validateMatrix (CSVProcessor.parseCSV "low,med"))))).
Proof.
  intros page. apply (processCSVFile_outcomes "low,med" page). reflexivity.
Defined.

(** The grid of the strategy editor always converts: whatever the classes of
    its cells are, [proceedToSimulate] stores a policy of dimensions 7 x 15
    with full rows and canonical prices, whose price at (capacity index,
    period) is that of the cell, a cell of no price class counting as LOW.
    The file [exportCSV] writes is read back as the grid of values, is
    accepted by [processCSVFile], and stores the same policy. *)
Theorem playground_export_reimports (grid : Z -> Z -> App.CellClasses)
    (page : App.Page) :
  exists P,
    App.proceedToSimulate grid = Ok P
    /\ App.policyMatrix (fst (App.processCSVFile (App.exportCSV grid) page)) = Some P
    /\ snd (App.processCSVFile (App.exportCSV grid) page)
       = App.Success "CSV loaded successfully! Grid updated."
    /\ CSVProcessor.parseCSV (App.exportCSV grid) = App.getPlaygroundMatrix grid
    /\ policy_I P = CONFIG.I /\ policy_T P = CONFIG.T
    /\ Policy.rectangular P /\ Policy.all_canonical P
    /\ (forall i t,
          0 <= i < CONFIG.I -> 0 <= t < CONFIG.T ->
          Policy.getPrice P i t
          = Some (CSVProcessor.cell_price (App.cell_value (grid i t)))).
Proof.
  pose proof (playground_grid_valid grid) as Hv.
  destruct (validated_grid_policy _ Hv) as (P & HP & HI & HT & Hrect & Hcan).
  pose proof (plain_grid_round_trip _ (valid_grid_plain _ Hv)) as Hround.
  fold (App.exportCSV grid) in Hround.
  exists P. split; [exact HP|].
  assert (Hv' : CSVProcessor.valid
                  (CSVProcessor.validateMatrix
                     (CSVProcessor.parseCSV (App.exportCSV grid))) = true)
    by (rewrite Hround; exact Hv).
  destruct (processCSVFile_valid (App.exportCSV grid) page Hv')
    as (Q & cells' & HQ & Hrun & _).
  rewrite Hround in HQ. unfold App.proceedToSimulate in HP. rewrite HP in HQ.
  injection HQ as <-. rewrite Hrun. cbn [fst snd App.policyMatrix].
  split; [reflexivity|]. split; [reflexivity|].
  split; [exact Hround|]. repeat (split; [assumption|]).
  intros i t Hi Ht. rewrite getPrice_in_range by lia.
  unfold CSVProcessor.convertToPriceMatrix in HP.
  destruct (new_policy_fields _ _ HP) as (Hm & _).
  unfold TrialSpec.cell. rewrite Hm. unfold App.getPlaygroundMatrix.
  unfold CONFIG.I, CONFIG.T in *.
  assert (Ei : i = Z.of_nat (Z.to_nat i)) by lia.
  assert (Et : t = Z.of_nat (Z.to_nat t)) by lia.
  rewrite Ei, Et at 1. rewrite index_of_nat.
  rewrite !nth_error_map, range_nth by lia.
  cbn [option_map]. rewrite Et at 1. rewrite index_of_nat.
  rewrite !nth_error_map, range_nth by lia.
  cbn [option_map]. rewrite !Z.add_0_l, <- Ei, <- Et. reflexivity.
Qed.

Lemma playground_export_reimports_witness :
  let grid := fun i t : Z => App.mkClasses false (i <? t) true in
  let page := App.mkPage None (fun _ _ => App.mkClasses false false false) in
  CSVProcessor.parseCSV (App.exportCSV grid) = App.getPlaygroundMatrix grid.
Proof.
  intros grid page.
  destruct (playground_export_reimports grid page) as (P & _ & _ & _ & H & _). exact H.
Defined.

(** ** The simulation the page runs *)

Section AppRun.
Context {F : Float64}.

(** The page runs 100 trials with seed 42 and a [lastMinuteK] of 3.  For a
    stored policy of dimensions 7 x 15 the run returns results, for that
    policy and that configuration, and the total revenue of their sample trial
    is the revenue the chart computes for its trial 0.  For a stored policy of
    other dimensions the page shows the dimension error as a failed
    simulation.  A policy stored by [proceedToSimulate] or by
    [processCSVFile] is always of the first kind. *)
Theorem app_simulation_outcomes (P : PolicyMatrix) :
  (policy_I P = CONFIG.I /\ policy_T P = CONFIG.T ->
   exists res,
     App.runSimulation (Some P) = Ok res
     /\ res_policy res = P
     /\ res_config res = mkConfig 7 15 (100 # 1) 42 3
     /\ Sample.totalRevenue (sampleTrial res) = App.chart_trial P 0
     /\ length (salesByPeriod res) = 15%nat)
  /\ (~ (policy_I P = CONFIG.I /\ policy_T P = CONFIG.T) ->
      App.runSimulation (Some P)
      = Throw ("Simulation failed: Policy dimensions (" ++ JS.show (policy_I P) ++ "x"
               ++ JS.show (policy_T P) ++ ") don't match config (7x15)")%string)
  /\ (forall grid,
        App.proceedToSimulate grid = Ok P ->
        exists res, App.runSimulation (Some P) = Ok res)
  /\ (forall text page page' msg,
        App.processCSVFile text page = (page', App.Success msg) ->
        App.policyMatrix page' = Some P ->
        exists res, App.runSimulation (Some P) = Ok res).
Proof.
  set (input := mkInput (Some (100 # 1)) (Some 42) None).
  set (e := mkEngine (mkConfig 7 15 (100 # 1) 42 3) (Rng.new 42)).
  assert (Hnew : Engine.new input = Ok e) by reflexivity.
  assert (Hgood : policy_I P = CONFIG.I /\ policy_T P = CONFIG.T ->
            exists res,
              App.runSimulation (Some P) = Ok res
              /\ res_policy res = P
              /\ res_config res = mkConfig 7 15 (100 # 1) 42 3
              /\ Sample.totalRevenue (sampleTrial res) = App.chart_trial P 0
              /\ length (salesByPeriod res) = 15%nat).
  { intros (HPI & HPT).
    destruct (runSimulation_ok input e P Hnew HPI HPT)
      as (first & rest & g1 & Hrun & Hres & _).
    unfold App.runSimulation. fold input. rewrite Hnew, Hres. cbn [fst].
    eexists. split; [reflexivity|].
    cbn [res_policy res_config sampleTrial salesByPeriod config].
    split; [reflexivity|]. split; [reflexivity|]. split.
    - unfold Stats._createSampleTrial. cbn [Sample.totalRevenue].
      pose proof (run_trials_nth (config e) P (Rng.reset (rng e)) 0) as Hnth.
      rewrite Hrun, generator_at_0 in Hnth. cbn [fst] in Hnth.
      change (Z.to_nat 0) with 0%nat in Hnth. cbn [nth_error] in Hnth.
      assert (Hfirst : first = fst (Engine._runSingleTrial (config e) P 0
                                      (Rng.reset (rng e)))).
      { assert (Hc : 0 <= 0 < Engine.trial_count (config e)) by (split; [lia|reflexivity]).
        specialize (Hnth Hc). congruence. }
      rewrite Hfirst. symmetry.
      apply (chart_periods_trial P (JS.range 0 15) (new_state 7)).
    - destruct (sales_by_period_loop (cfg_T (config e)) 0 (first :: rest)
                  (repeat 0 (Z.to_nat (cfg_T (config e))))) as (Hl & _);
        [apply repeat_length|rewrite repeat_length; simpl; lia|].
      unfold Stats._createSalesByPeriodHistogram. rewrite Hl. apply repeat_length. }
  assert (Hgrid : forall m P',
            CSVProcessor.valid (CSVProcessor.validateMatrix m) = true ->
            CSVProcessor.convertToPriceMatrix m = Ok P' ->
            policy_I P' = CONFIG.I /\ policy_T P' = CONFIG.T).
  { intros m P' Hv HP'. destruct (validated_grid_policy m Hv) as (Q & HQ & HI & HT & _).
    rewrite HP' in HQ. injection HQ as <-. split; assumption. }
  split; [exact Hgood|]. split; [|split].
  - intros Hdims. unfold App.runSimulation. fold input. rewrite Hnew.
    unfold Stats.runSimulation. cbn [config e cfg_I cfg_T].
    destruct (Z.eqb_spec (policy_I P) 7) as [Hi|Hi];
      destruct (Z.eqb_spec (policy_T P) 15) as [Ht|Ht];
      cbn [negb orb fst]; try reflexivity.
    exfalso. apply Hdims. split; assumption.
  - intros grid Hp.
    destruct (Hgood (Hgrid _ _ (playground_grid_valid grid) Hp)) as (res & Hres & _).
    exists res. exact Hres.
  - intros text page page' msg Hp HP.
    destruct (processCSVFile_success text page page' msg Hp) as (Hv & Q & HQ & Hc).
    rewrite HP in HQ. injection HQ as <-.
    destruct (Hgood (Hgrid _ _ Hv Hc)) as (res & Hres & _).
    exists res. exact Hres.
Qed.

End AppRun.

Lemma app_simulation_outcomes_witness :
  let P := mkPolicy (repeat (repeat 30000 15%nat) 7%nat) 7 15 in
  exists res, @App.runSimulation Exact (Some P) = Ok res /\ res_policy res = P.
Proof.
  intros P.
  destruct (proj1 (@app_simulation_outcomes Exact P)) as (res & Hres & HP & _);
    [split; reflexivity|].
  exists res. split; assumption.
Defined.

(** ** The outputs of a run agree on the number of sales *)

Lemma Zsum_map_add {A : Type} (f g : A -> Z) (l : list A) :
  Zsum (map (fun x => f x + g x) l) = Zsum (map f l) + Zsum (map g l).
Proof.
  unfold Zsum. induction l as [|x l IH]; [reflexivity|].
  cbn [map fold_right]. rewrite IH. lia.
Qed.

Lemma Zsum_indicator {A : Type} (p : A -> bool) (l : list A) :
  Zsum (map (fun x => if p x then 1 else 0) l) = Z.of_nat (length (filter p l)).
Proof.
  unfold Zsum. induction l as [|x l IH]; [reflexivity|].
  cbn [map fold_right filter]. rewrite IH.
  destruct (p x); [simpl length|]; lia.
Qed.

(** Counting the sales period by period or trial by trial gives the same
    number. *)
Lemma sales_counted_both_ways (ts : list Z) (trs : list SimulationState) :
  Zsum (map (fun t => trials_selling_in t trs) ts)
  = Zsum (map (fun st => Z.of_nat (length (filter (sold_at (salesHistory st)) ts))) trs).
Proof.
  induction trs as [|st trs IH].
  - unfold trials_selling_in, Zsum. simpl.
    induction ts as [|t ts IHt]; [reflexivity|]. simpl. exact IHt.
  - cbn [map]. unfold Zsum at 2. cbn [fold_right]. fold (Zsum (map (fun st0 =>
      Z.of_nat (length (filter (sold_at (salesHistory st0)) ts))) trs)).
    rewrite <- IH, <- Zsum_indicator, <- Zsum_map_add.
    f_equal. apply map_ext. intros t. apply trials_selling_in_cons.
Qed.

Lemma sold_prices_length (st : SimulationState) :
  length (Stats.sold_prices st)
  = length (filter (sold_at (salesHistory st))
              (JS.range 0 (Z.of_nat (length (salesHistory st))))).
Proof.
  unfold Stats.sold_prices.
  induction (JS.range 0 (Z.of_nat (length (salesHistory st)))) as [|t ts IH];
    [reflexivity|].
  cbn [flat_map filter]. rewrite length_app, IH.
  destruct (sold_at (salesHistory st) t); reflexivity.
Qed.

Lemma sales_by_period_length (cfg : Config) (trs : list SimulationState) :
  length (Stats._createSalesByPeriodHistogram cfg trs) = Z.to_nat (cfg_T cfg).
Proof.
  unfold Stats._createSalesByPeriodHistogram.
  destruct (Z.to_nat (cfg_T cfg)) as [|n] eqn:E.
  - cbn [repeat]. clear. induction trs as [|st trs IH]; [reflexivity|].
    cbn [fold_left].
    replace (fold_left _ (JS.range 0 _) []) with (@nil Z); [exact IH|].
    induction (JS.range 0 (Z.min (Z.of_nat (length (salesHistory st))) (cfg_T cfg)))
      as [|t ts IHt]; [reflexivity|].
    cbn [fold_left]. destruct (sold_at (salesHistory st) t); exact IHt.
  - rewrite <- E.
    destruct (sales_by_period_loop (cfg_T cfg) 0 trs
                (repeat 0 (Z.to_nat (cfg_T cfg)))) as (Hl & _);
      [apply repeat_length|rewrite repeat_length; lia|].
    rewrite Hl. apply repeat_length.
Qed.

Lemma sales_by_period_list (cfg : Config) (trs : list SimulationState) :
  0 <= cfg_T cfg ->
  Stats._createSalesByPeriodHistogram cfg trs
  = map (fun t => trials_selling_in t trs) (JS.range 0 (cfg_T cfg)).
Proof.
  intros HT. pose proof (sales_by_period_length cfg trs) as Hlen.
  symmetry.
  replace (cfg_T cfg)
    with (0 + Z.of_nat (length (Stats._createSalesByPeriodHistogram cfg trs)))
    at 1 by lia.
  apply map_range_nth. intros k x Hk. rewrite Z.add_0_l.
  assert (Hlt : (k < length (Stats._createSalesByPeriodHistogram cfg trs))%nat)
    by (apply nth_error_Some; congruence).
  destruct (sales_by_period_loop (cfg_T cfg) k trs
              (repeat 0 (Z.to_nat (cfg_T cfg)))) as (_ & Hn);
    [apply repeat_length|rewrite repeat_length; lia|].
  fold (Stats._createSalesByPeriodHistogram cfg trs) in Hn.
  rewrite nth_repeat in Hn.
  apply (nth_error_nth _ _ 0) in Hk. lia.
Qed.

Section TotalSales.
Context {F : Float64}.

(** With a seed that is not negative, the outputs of a run agree on the
    number of sales: the entries of the histogram of the sales by period add
    up to the sum of the sales counts of the trials, which is also the total
    of the price histogram and of the price mix, and is at most 7 sales per
    trial. *)
Theorem outputs_agree_on_total_sales (input : ConfigInput) (e : SimulationEngine)
    (P : PolicyMatrix) :
  Engine.new input = Ok e ->
  0 <= cfg_seed (config e) ->
  policy_I P = CONFIG.I -> policy_T P = CONFIG.T ->
  exists res,
    fst (Stats.runSimulation e P) = Ok res
    /\ Zsum (salesByPeriod res)
       = Zsum (map salesCount
                 (fst (Engine.run_trials (config e) P (Rng.reset (rng e)))))
    /\ mix_total (priceHistogram res) = Zsum (salesByPeriod res)
    /\ mix_total (priceMix (aggregates res)) = Zsum (salesByPeriod res)
    /\ 0 <= Zsum (salesByPeriod res) <= CONFIG.I * Engine.trial_count (config e).
Proof.
  intros Hnew Hseed HPI HPT.
  destruct (engine_new_config input e Hnew) as (HI & HT & _ & _ & Hrng & _).
  assert (Hsum : Forall (summarized (config e))
                   (fst (Engine.run_trials (config e) P (Rng.reset (rng e))))).
  { apply run_trials_summarized; try congruence.
    - rewrite HI. unfold CONFIG.I. lia.
    - rewrite Hrng. simpl. exact Hseed. }
  destruct (runSimulation_ok input e P Hnew HPI HPT)
    as (first & rest & g1 & Hrun & Hres & Hcount).
  rewrite Hres, Hrun in *. cbn [fst] in *.
  set (trs := first :: rest) in *.
  assert (Hperiods : Zsum (Stats._createSalesByPeriodHistogram (config e) trs)
                     = Zsum (map salesCount trs)).
  { rewrite sales_by_period_list by (rewrite HT; unfold CONFIG.T; lia).
    rewrite sales_counted_both_ways. f_equal.
    apply map_ext_in. intros st Hin. rewrite Forall_forall in Hsum.
    destruct (Hsum st Hin) as (vs & Hp & _ & Hn & _ & _ & Hlen & _).
    rewrite Hn. f_equal. rewrite <- (length_map Some vs), <- Hp, sold_prices_length.
    rewrite Hlen, Z2Nat.id by (rewrite HT; unfold CONFIG.T; lia). reflexivity. }
  assert (Hmix : mix_total (Stats._createPriceHistogram trs)
                 = Zsum (map salesCount trs)).
  { unfold Stats._createPriceHistogram. rewrite count_prices_tally.
    destruct (summarized_all _ _ Hsum) as (every & He & Hce & Hlen).
    rewrite He, fold_tally_counts. unfold mix_total.
    cbn [PriceMix.LOW PriceMix.MED PriceMix.HIGH].
    rewrite <- Hlen, <- (sales_at_canonical every Hce). lia. }
  pose proof (summarized_sales_bound _ _ Hsum) as Hbound. rewrite HI, Hcount in Hbound.
  assert (Hnonneg : 0 <= Zsum (map salesCount trs)).
  { clear - Hsum. induction Hsum as [|st l (vs & _ & _ & _ & _ & Hb & _) _ IH];
      [unfold Zsum; simpl; lia|].
    unfold Zsum in *. cbn [map fold_right]. lia. }
  eexists. split; [reflexivity|].
  cbn [salesByPeriod priceHistogram aggregates].
  split; [exact Hperiods|]. split; [congruence|]. split; [|lia].
  unfold Stats._calculateAggregates.
  destruct (Stats.last_minute_counts (config e) trs). cbn [priceMix].
  fold (Stats._createPriceHistogram trs). congruence.
Qed.

End TotalSales.

Lemma outputs_agree_on_total_sales_witness :
  let input := mkInput (Some (20 # 1)) (Some 42) (Some 3) in
  let e := mkEngine (mkConfig 7 15 (20 # 1) 42 3) (Rng.new 42) in
  let P := mkPolicy (repeat (repeat 50000 15%nat) 7%nat) 7 15 in
  exists res,
    fst (@Stats.runSimulation Exact e P) = Ok res
    /\ mix_total (priceHistogram res) = Zsum (salesByPeriod res).
Proof.
  intros input e P.
  destruct (@outputs_agree_on_total_sales Exact input e P eq_refl)
    as (res & Hres & _ & Hmix & _); [simpl; lia|reflexivity|reflexivity|].
  exists res. split; assumption.
Defined.

(** ** Letter case in CSV text *)

Lemma upper_idempotent (ch : ascii) : Str.upper (Str.upper ch) = Str.upper ch.
Proof. destruct ch as [[] [] [] [] [] [] [] []]; reflexivity. Qed.

Lemma upper_space (ch : ascii) : Str.is_space (Str.upper ch) = Str.is_space ch.
Proof. destruct ch as [[] [] [] [] [] [] [] []]; reflexivity. Qed.

Lemma upper_comma (ch : ascii) : Ascii.eqb (Str.upper ch) "," = Ascii.eqb ch ",".
Proof. destruct ch as [[] [] [] [] [] [] [] []]; reflexivity. Qed.

Lemma upper_line_feed (ch : ascii) :
  Ascii.eqb (Str.upper ch) "010" = Ascii.eqb ch "010".
Proof. destruct ch as [[] [] [] [] [] [] [] []]; reflexivity. Qed.

Lemma toUpperCase_idempotent (s : string) :
  Str.toUpperCase (Str.toUpperCase s) = Str.toUpperCase s.
Proof.
  induction s as [|ch s IH]; [reflexivity|].
  simpl. rewrite upper_idempotent, IH. reflexivity.
Qed.

Lemma trimStart_upper (s : string) :
  Str.trimStart (Str.toUpperCase s) = Str.toUpperCase (Str.trimStart s).
Proof.
  induction s as [|ch s IH]; [reflexivity|].
  simpl. rewrite upper_space. destruct (Str.is_space ch); [exact IH|reflexivity].
Qed.

Lemma rev_append_upper (s acc : string) :
  Str.rev_append (Str.toUpperCase s) (Str.toUpperCase acc)
  = Str.toUpperCase (Str.rev_append s acc).
Proof.
  revert acc. induction s as [|ch s IH]; intros acc; [reflexivity|].
  simpl. apply (IH (String ch acc)).
Qed.

Lemma rev_upper (s : string) : Str.rev (Str.toUpperCase s) = Str.toUpperCase (Str.rev s).
Proof. apply (rev_append_upper s EmptyString). Qed.

Lemma trim_upper (s : string) : Str.trim (Str.toUpperCase s) = Str.toUpperCase (Str.trim s).
Proof.
  unfold Str.trim. rewrite trimStart_upper, rev_upper, trimStart_upper, rev_upper.
  reflexivity.
Qed.

Lemma split_upper (sep : ascii) (s : string) :
  (forall ch, Ascii.eqb (Str.upper ch) sep = Ascii.eqb ch sep) ->
  Str.split sep (Str.toUpperCase s) = map Str.toUpperCase (Str.split sep s).
Proof.
  intros Hsep. induction s as [|ch s IH]; [reflexivity|].
  simpl. rewrite Hsep, IH. destruct (Ascii.eqb ch sep); [reflexivity|].
  destruct (Str.split sep s); reflexivity.
Qed.

(** The parser does not see the case of letters: a text and its upper-case
    form are parsed to the same grid, whose cells are all in upper case; so
    both are validated alike and store the same policy. *)
Theorem parseCSV_ignores_case (text : string) :
  CSVProcessor.parseCSV (Str.toUpperCase text) = CSVProcessor.parseCSV text
  /\ Forall (Forall (fun cell => Str.toUpperCase cell = cell))
       (CSVProcessor.parseCSV text)
  /\ (forall page,
        App.processCSVFile (Str.toUpperCase text) page = App.processCSVFile text page).
Proof.
  assert (H : CSVProcessor.parseCSV (Str.toUpperCase text) = CSVProcessor.parseCSV text).
  { unfold CSVProcessor.parseCSV.
    rewrite trim_upper, (split_upper _ _ upper_line_feed), map_map.
    apply map_ext. intros line.
    rewrite (split_upper _ _ upper_comma), map_map.
    apply map_ext. intros cell. rewrite trim_upper. apply toUpperCase_idempotent. }
  split; [exact H|]. split.
  - unfold CSVProcessor.parseCSV. apply Forall_forall. intros row Hrow.
    apply in_map_iff in Hrow. destruct Hrow as (line & <- & _).
    apply Forall_forall. intros cell Hcell.
    apply in_map_iff in Hcell. destruct Hcell as (raw & <- & _).
    apply toUpperCase_idempotent.
  - intros page. unfold App.processCSVFile. rewrite H. reflexivity.
Qed.

(** ** Header rows and columns *)




